(** * GHL MCP integration: protocol client, resilience layer, monitoring engine

    A shallow embedding of the JavaScript sources of the integration
    (shared/ghl-mcp-client.js, shared/ghl-utils.js,
    openclaw-skill/ghl_monitor.js, openclaw-skill/ghl_actions.js,
    cli/encryption.js) and the properties stated about them.

    Conventions of the embedding.
    - A JavaScript string is a [string] (its UTF-8 bytes); where the
      source turns a string into bytes, the plaintext of the credential
      store, it is the list of its UTF-16 code units.
    - A JavaScript number that counts or dates (a counter, an id, a time
      in milliseconds, a threshold) is an integer of [Z]; [NaN] is [None]
      where a computation can produce it.  A number that the source
      computes with fractions or adds up (a monetary value, the delay of
      a retry, a response time in minutes) is a binary64 [float], and
      its arithmetic is that of [PrimFloat].
    - An operation that can throw returns a [result]; what it throws is a
      [jserror] (the [name] and [message] of the Error object).
    - [Date.now()] is an argument: every reading of the clock that the
      source makes is an input of the model.
    - Built-ins of the platform whose definition is not part of the
      repository ([JSON.parse], [Date.parse], [String.prototype.trim],
      [Date.prototype.toLocaleString], the primitives of node:crypto) are
      parameters of the functions that call them. *)

From Stdlib Require Import Floats.
From Stdlib Require Import ZArith List String Ascii Bool Lia Arith.
From Stdlib Require Import Permutation DecimalString DecimalPos Strings.Byte QArith.
Import ListNotations.

Set Implicit Arguments.
Set Warnings "-register-all".
Local Open Scope string_scope.
Local Open Scope Z_scope.

(* ===================================================================== *)
(** * Part I: the embedding                                               *)
(* ===================================================================== *)

(* --------------------------------------------------------------------- *)
(** ** Errors and fallible computations *)

Module Js.

(** An Error object: [name] is the constructor's name, [message] its
    message ([None] when the thrown value has no [message]). *)
Record jserror : Type := mkError {
  ename : string;
  emessage : option string
}.

Definition Error (msg : string) : jserror := mkError "Error" (Some msg).
Definition TypeError (msg : string) : jserror := mkError "TypeError" (Some msg).
Definition RangeError (msg : string) : jserror := mkError "RangeError" (Some msg).
Definition SyntaxError (msg : string) : jserror := mkError "SyntaxError" (Some msg).

(** A computation that returns normally or throws. *)
Inductive result (A : Type) : Type :=
| Ok (a : A)
| Throw (e : jserror).
Arguments Ok {A} a.
Arguments Throw {A} e.

Definition bind {A B : Type} (m : result A) (k : A -> result B) : result B :=
  match m with
  | Ok a => k a
  | Throw e => Throw e
  end.

Definition is_ok {A : Type} (m : result A) : bool :=
  match m with Ok _ => true | Throw _ => false end.

(* --------------------------------------------------------------------- *)
(** ** Strings *)

Definition LF : ascii := "010"%char.
Definition nl : string := String LF "".

(** [s.startsWith(p)] *)
Definition startsWith (p s : string) : bool := String.prefix p s.

(** [s.slice(n)] for [0 <= n]: [s] without its first [n] characters. *)
Fixpoint slice (n : nat) (s : string) : string :=
  match n, s with
  | O, _ => s
  | S _, EmptyString => EmptyString
  | S k, String _ t => slice k t
  end.

(** [s.includes(p)] *)
Fixpoint includes (p s : string) : bool :=
  String.prefix p s ||
  match s with
  | EmptyString => false
  | String _ t => includes p t
  end.

(** [s.split('\n')]: the pieces between line feeds; never empty. *)
Fixpoint split_lf (s : string) : list string :=
  match s with
  | EmptyString => [EmptyString]
  | String c t =>
      if Ascii.eqb c LF then EmptyString :: split_lf t
      else match split_lf t with
           | [] => [String c EmptyString]
           | h :: r => String c h :: r
           end
  end.

(** [lines.pop()]: the array without its last element, and that element
    ([None] for [undefined], on an empty array). *)
Fixpoint pop {A : Type} (l : list A) : list A * option A :=
  match l with
  | [] => ([], None)
  | [x] => ([], Some x)
  | x :: r => let (r', last) := pop r in (x :: r', last)
  end.

(** Truthiness of a string: the empty string is falsy. *)
Definition truthy_string (s : string) : bool :=
  negb (String.eqb s EmptyString).

(** Truthiness of an optional string property. *)
Definition truthy_opt (o : option string) : bool :=
  match o with Some s => truthy_string s | None => false end.

(** [a || b] on optional string properties. *)
Definition or_else (a b : option string) : option string :=
  if truthy_opt a then a else b.

(** [a || ''] *)
Definition or_empty (a : option string) : string :=
  match a with Some s => s | None => EmptyString end.

Definition is_digit (c : ascii) : bool :=
  let n := N_of_ascii c in (48 <=? n)%N && (n <=? 57)%N.

(** The longest prefix of decimal digits, what [\d+] captures greedily. *)
Fixpoint take_digits (s : string) : string :=
  match s with
  | EmptyString => EmptyString
  | String c t => if is_digit c then String c (take_digits t) else EmptyString
  end.

(** [parseInt] of a run of decimal digits. *)
Fixpoint digits_value (acc : Z) (s : string) : Z :=
  match s with
  | EmptyString => acc
  | String c t => digits_value (10 * acc + (Z.of_N (N_of_ascii c) - 48)) t
  end.

(** Decimal rendering of an integer, as a template literal does it. *)
Definition show_Z (z : Z) : string := NilZero.string_of_int (Z.to_int z).

(* --------------------------------------------------------------------- *)
(** ** JSON values *)

(** What [JSON.parse] returns.  An object is its list of properties. *)
Inductive json : Type :=
| JNull
| JBool (b : bool)
| JNum (n : Z)
| JStr (s : string)
| JArr (items : list json)
| JObj (props : list (string * json)).

(** A JavaScript value reached from parsed JSON: [None] is [undefined]. *)
Definition value : Type := option json.

Fixpoint assoc {A : Type} (k : string) (l : list (string * A)) : option A :=
  match l with
  | [] => None
  | (k', v) :: r => if String.eqb k k' then Some v else assoc k r
  end.

(** Property read [m.k].  Reading a property of [null] throws; a
    primitive or an array has no such own property. *)
Definition get (k : string) (m : json) : result value :=
  match m with
  | JNull => Throw (TypeError ("Cannot read properties of null (reading '" ++ k ++ "')"))
  | JObj props => Ok (assoc k props)
  | _ => Ok None
  end.

Definition truthy (v : value) : bool :=
  match v with
  | None => false
  | Some JNull => false
  | Some (JBool b) => b
  | Some (JNum n) => negb (n =? 0)
  | Some (JStr s) => truthy_string s
  | Some (JArr _) => true
  | Some (JObj _) => true
  end.

(** [a === b].  Two parsed arrays or objects are distinct references. *)
Definition strict_eq (a b : value) : bool :=
  match a, b with
  | None, None => true
  | Some JNull, Some JNull => true
  | Some (JBool x), Some (JBool y) => Bool.eqb x y
  | Some (JNum x), Some (JNum y) => x =? y
  | Some (JStr x), Some (JStr y) => String.eqb x y
  | _, _ => false
  end.

Definition is_object (m : json) : bool :=
  match m with JObj _ => true | _ => false end.

End Js.

Export Js.

Declare Scope js_scope.
Notation "'do' x <- m ; k" := (Js.bind m (fun x => k))
  (at level 10, x name, m at level 100, k at level 200) : js_scope.
Local Open Scope js_scope.

(* --------------------------------------------------------------------- *)
(** ** Numbers that are not integers *)

(** Where the source divides, or adds numbers that need not be integers,
    a number is a binary64 [float] and the operations are those of the
    processor. *)
Module Num.

(** The Number of an integer: exact up to [2^53] in absolute value. *)
Definition of_Z (z : Z) : float :=
  match z with
  | Z0 => 0%float
  | Zpos _ => PrimFloat.of_uint63 (Uint63.of_Z z)
  | Zneg _ => (- PrimFloat.of_uint63 (Uint63.of_Z (- z)))%float
  end.

(** [x || 0] on a number: zero, negative zero and [NaN] are falsy. *)
Definition or_zero (x : float) : float :=
  if PrimFloat.is_zero x || PrimFloat.is_nan x then 0%float else x.

(** The rational that a finite number is. *)
Definition exact (x : float) : option Q :=
  match Prim2SF x with
  | S754_zero _ => Some 0%Q
  | S754_finite s m e =>
      let v := if (e <? 0)%Z
               then (inject_Z (Zpos m) / inject_Z (2 ^ (- e)))%Q
               else inject_Z (Zpos m * 2 ^ e) in
      Some (if s then (- v)%Q else v)
  | S754_infinity _ => None
  | S754_nan => None
  end.

(** [Math.round(x)]: the nearest integer, a half rounded up; [None] for
    [NaN] and the infinities. *)
Definition Math_round (x : float) : option Z :=
  match Prim2SF x with
  | S754_zero _ => Some 0
  | S754_finite s m e =>
      let v := if s then Zneg m else Zpos m in
      Some (if (e <? 0)%Z
            then (2 * v + 2 ^ (- e)) / (2 * 2 ^ (- e))
            else v * 2 ^ e)
  | S754_infinity _ => None
  | S754_nan => None
  end.

(** The decimal rendering of [Math.round(x)] in a template literal, for
    a result below [10^21] in absolute value. *)
Definition show_rounded (x : float) : string :=
  match Math_round x with
  | Some n => show_Z n
  | None =>
      match Prim2SF x with
      | S754_infinity false => "Infinity"
      | S754_infinity true => "-Infinity"
      | _ => "NaN"
      end
  end.

End Num.

(* --------------------------------------------------------------------- *)
(** ** Transport codec: ghl-mcp-client.js, [parseSSEResponse] *)

Module Codec.

Section Decoder.

(** [JSON.parse]: [None] when it throws a SyntaxError. *)
Variable JSON_parse : string -> option json.

(** [try { messages.push(JSON.parse(data)) } catch {}] *)
Definition push_parsed (messages : list json) (data : string) : list json :=
  match JSON_parse data with
  | Some m => messages ++ [m]
  | None => messages
  end.

(** The [for (const line of lines)] loop of one chunk, with its two
    variables [currentData] and [messages]. *)
Fixpoint for_lines (lines : list string) (currentData : string)
  (messages : list json) : list json :=
  match lines with
  | [] => messages
  | line :: rest =>
      if startsWith "data: " line then
        for_lines rest (currentData ++ slice 6 line) messages
      else if String.eqb line "" && truthy_string currentData then
        for_lines rest "" (push_parsed messages currentData)
      else
        for_lines rest currentData messages
  end.

(** The [while (true)] loop over the chunks that [reader.read()] delivers
    until [done].  [currentData] is declared inside the loop body, so
    every chunk starts with an empty one. *)
Fixpoint read_loop (chunks : list string) (buffer : string)
  (messages : list json) : string * list json :=
  match chunks with
  | [] => (buffer, messages)
  | value :: more =>
      let buffer := buffer ++ value in
      let (lines, last) := pop (split_lf buffer) in
      let buffer := or_empty last in
      read_loop more buffer (for_lines lines "" messages)
  end.

(** [parseSSEResponse(body)], the body given as the chunks of decoded
    text it delivers. *)
Definition parseSSEResponse (body : list string) : list json :=
  let (buffer, messages) := read_loop body "" [] in
  if startsWith "data: " buffer then push_parsed messages (slice 6 buffer)
  else messages.

(** *** Streams of frames *)

(** A string without a line feed. *)
Fixpoint one_line (s : string) : bool :=
  match s with
  | EmptyString => true
  | String c t => negb (Ascii.eqb c LF) && one_line t
  end.

(** One frame: a [data: ] line carrying the payload, then a blank
    line. *)
Definition frame (payload : string) : string :=
  "data: " ++ payload ++ nl ++ nl.

Fixpoint stream_of (payloads : list string) : string :=
  match payloads with
  | [] => EmptyString
  | p :: rest => frame p ++ stream_of rest
  end.

(** The messages that a sequence of payloads parses to, malformed
    payloads left out. *)
Fixpoint parsed (payloads : list string) : list json :=
  match payloads with
  | [] => []
  | p :: rest =>
      match JSON_parse p with
      | Some m => m :: parsed rest
      | None => parsed rest
      end
  end.

Fixpoint lines_of (payloads : list string) : list string :=
  match payloads with
  | [] => []
  | p :: rest => ("data: " ++ p)%string :: EmptyString :: lines_of rest
  end.

End Decoder.

End Codec.

(* --------------------------------------------------------------------- *)
(** ** A JSON reader for running the decoder on concrete streams *)

(** [json_read] reads the fragment of JSON whose numbers are integers
    and whose strings have no [\u] escape, and answers [None] elsewhere.
    The decoder is parametric in [JSON.parse]; this reader instantiates
    it where a property is evaluated on a concrete stream. *)
Module JsonReader.

Definition DQ : ascii := "034"%char.

(** Test payloads are written with apostrophes where JSON has double
    quotes; [dq] puts the double quotes back. *)
Fixpoint dq (s : string) : string :=
  match s with
  | EmptyString => EmptyString
  | String c t => String (if Ascii.eqb c "'"%char then DQ else c) (dq t)
  end.

Definition is_ws (c : ascii) : bool :=
  let n := N_of_ascii c in
  (n =? 32)%N || (n =? 9)%N || (n =? 10)%N || (n =? 13)%N.

Fixpoint skip_ws (s : string) : string :=
  match s with
  | String c t => if is_ws c then skip_ws t else s
  | EmptyString => EmptyString
  end.

(** The characters of a string literal after its opening quote. *)
Fixpoint read_chars (s : string) : option (string * string) :=
  match s with
  | EmptyString => None
  | String c t =>
      if Ascii.eqb c DQ then Some (EmptyString, t)
      else if Ascii.eqb c "\"%char then
        match t with
        | String e t' =>
            let esc (x : ascii) :=
              match read_chars t' with
              | Some (r, rest) => Some (String x r, rest)
              | None => None
              end in
            if Ascii.eqb e DQ then esc DQ
            else if Ascii.eqb e "\"%char then esc "\"%char
            else if Ascii.eqb e "/"%char then esc "/"%char
            else if Ascii.eqb e "n"%char then esc LF
            else if Ascii.eqb e "t"%char then esc "009"%char
            else if Ascii.eqb e "r"%char then esc "013"%char
            else if Ascii.eqb e "b"%char then esc "008"%char
            else if Ascii.eqb e "f"%char then esc "012"%char
            else None
        | EmptyString => None
        end
      else if (N_of_ascii c <? 32)%N then None
      else match read_chars t with
           | Some (r, rest) => Some (String c r, rest)
           | None => None
           end
  end.

(** An integer literal: an optional sign, then [0] or digits without a
    leading zero, not followed by a fraction or an exponent. *)
Definition read_int (s : string) : option (Z * string) :=
  let (neg, s1) :=
    match s with
    | String "-"%char t => (true, t)
    | _ => (false, s)
    end in
  let ds := take_digits s1 in
  let rest := slice (String.length ds) s1 in
  let leading_zero :=
    match ds with
    | String "0"%char (String _ _) => true
    | _ => false
    end in
  let continued :=
    match rest with
    | String c _ =>
        Ascii.eqb c "."%char || Ascii.eqb c "e"%char || Ascii.eqb c "E"%char
    | EmptyString => false
    end in
  if String.eqb ds EmptyString || leading_zero || continued then None
  else let n := digits_value 0 ds in Some (if neg then - n else n, rest).

(** A property set by a later occurrence of the same key replaces the
    value and keeps the position, as object construction does. *)
Fixpoint set_prop (k : string) (v : json) (props : list (string * json))
  : list (string * json) :=
  match props with
  | [] => [(k, v)]
  | (k', v') :: r =>
      if String.eqb k k' then (k', v) :: r else (k', v') :: set_prop k v r
  end.

Fixpoint read_value (fuel : nat) (s : string) : option (json * string) :=
  match fuel with
  | O => None
  | S f =>
      match skip_ws s with
      | EmptyString => None
      | String c t =>
          if Ascii.eqb c "{"%char then
            match skip_ws t with
            | String "}"%char r => Some (JObj [], r)
            | t' => read_members f t' []
            end
          else if Ascii.eqb c "["%char then
            match skip_ws t with
            | String "]"%char r => Some (JArr [], r)
            | t' => read_items f t' []
            end
          else if Ascii.eqb c DQ then
            match read_chars t with
            | Some (str, r) => Some (JStr str, r)
            | None => None
            end
          else if startsWith "true" (String c t) then Some (JBool true, slice 4 (String c t))
          else if startsWith "false" (String c t) then Some (JBool false, slice 5 (String c t))
          else if startsWith "null" (String c t) then Some (JNull, slice 4 (String c t))
          else match read_int (String c t) with
               | Some (n, r) => Some (JNum n, r)
               | None => None
               end
      end
  end
with read_items (fuel : nat) (s : string) (acc : list json)
  : option (json * string) :=
  match fuel with
  | O => None
  | S f =>
      match read_value f s with
      | Some (v, r) =>
          match skip_ws r with
          | String ","%char r' => read_items f r' (acc ++ [v])
          | String "]"%char r' => Some (JArr (acc ++ [v]), r')
          | _ => None
          end
      | None => None
      end
  end
with read_members (fuel : nat) (s : string) (acc : list (string * json))
  : option (json * string) :=
  match fuel with
  | O => None
  | S f =>
      match skip_ws s with
      | String c t =>
          if negb (Ascii.eqb c DQ) then None else
          match read_chars t with
          | Some (k, r) =>
              match skip_ws r with
              | String ":"%char r1 =>
                  match read_value f r1 with
                  | Some (v, r2) =>
                      match skip_ws r2 with
                      | String ","%char r3 => read_members f r3 (set_prop k v acc)
                      | String "}"%char r3 => Some (JObj (set_prop k v acc), r3)
                      | _ => None
                      end
                  | None => None
                  end
              | _ => None
              end
          | None => None
          end
      | EmptyString => None
      end
  end.

Definition json_read (s : string) : option json :=
  match read_value (2 * String.length s + 2) s with
  | Some (v, r) => if String.eqb (skip_ws r) EmptyString then Some v else None
  | None => None
  end.

End JsonReader.

(** The response of the specification's example, and the message it
    parses to. *)
Definition response_1 : string :=
  JsonReader.dq "{'jsonrpc':'2.0','id':1,'result':{}}".

Definition message_1 : json :=
  JObj [("jsonrpc", JStr "2.0"); ("id", JNum 1); ("result", JObj [])].

(* --------------------------------------------------------------------- *)
(** ** Protocol client: ghl-mcp-client.js, [sendJsonRpc] *)

Module Client.

(** What [fetch] resolves to, as far as [sendJsonRpc] reads it:
    [response.ok], [response.status], the outcome of [response.text()],
    the two headers it gets, and the chunks of [response.body]. *)
Record response : Type := mkResponse {
  ok : bool;
  status : Z;
  text : result string;
  mcp_session_id : option string;
  content_type : option string;
  body : list string
}.

(** The promise of [fetch]: rejected (network failure, abort on
    timeout) or resolved with a response. *)
Inductive fetched : Type :=
| Rejected (e : jserror)
| Resolved (r : response).

(** The object [{ result, sessionId }] that [sendJsonRpc] returns. *)
Record reply : Type := mkReply {
  result_of : json;
  sessionId : option string
}.

Section Send.

Variable JSON_parse : string -> option json.

(** [messages.filter(m => m.id === request.id)]; the callback throws on
    a [null] message. *)
Fixpoint filter_by_id (request_id : value) (messages : list json)
  : result (list json) :=
  match messages with
  | [] => Ok []
  | m :: rest =>
      do v <- get "id" m;
      do kept <- filter_by_id request_id rest;
      Ok (if strict_eq v request_id then m :: kept else kept)
  end.

(** The message is an object whose [id] is the number [n]. *)
Definition has_id (n : Z) (m : json) : bool :=
  match m with
  | JObj props =>
      match assoc "id" props with
      | Some (JNum k) => k =? n
      | _ => false
      end
  | _ => false
  end.

(** [messages.filter(m => m.id === request.id).pop() || messages.pop() || {}] *)
Definition select_response (request_id : value) (messages : list json)
  : result json :=
  do matching <- filter_by_id request_id messages;
  let first := snd (pop matching) in
  if truthy first then Ok (match first with Some m => m | None => JObj [] end)
  else
    let second := snd (pop messages) in
    if truthy second then Ok (match second with Some m => m | None => JObj [] end)
    else Ok (JObj []).

(** [response.json()]: the whole body parsed as one JSON text. *)
Definition response_json (r : response) : result json :=
  match JSON_parse (String.concat "" (body r)) with
  | Some v => Ok v
  | None => Throw (SyntaxError "Unexpected token in JSON")
  end.

(** [sendJsonRpc(url, headers, request, sessionId, timeoutMs)] once
    [fetch] has settled to [f]; [request_id] is [request.id]. *)
Definition sendJsonRpc (request_id : value) (session : option string)
  (f : fetched) : result reply :=
  match f with
  | Rejected e => Throw e
  | Resolved r =>
      if negb (ok r) then
        let t := match text r with Ok t => t | Throw _ => "" end in
        Throw (Error ("MCP HTTP " ++ show_Z (status r) ++ ": " ++ t))
      else
        let newSessionId := or_else (mcp_session_id r) session in
        let contentType := or_empty (content_type r) in
        do res <- (if includes "text/event-stream" contentType
                   then select_response request_id
                          (Codec.parseSSEResponse JSON_parse (body r))
                   else response_json r);
        Ok (mkReply res newSessionId)
  end.

End Send.

End Client.

(* --------------------------------------------------------------------- *)
(** ** Resilience layer: ghl-utils.js, [createRateLimiter] *)

Module Limiter.

(** The options of [createRateLimiter]. *)
Record options : Type := mkOptions {
  maxPerWindow : Z;
  windowMs : Z;
  maxPerDay : Z
}.

Definition default_options : options := mkOptions 100 10000 200000.

(** The four variables the closure owns. *)
Record state : Type := mkState {
  windowStart : Z;
  windowCount : Z;
  dayStart : Z;
  dayCount : Z
}.

(** [createRateLimiter(opts)]: the two readings of the clock that
    initialise [windowStart] and [dayStart]. *)
Definition createRateLimiter (t_window t_day : Z) : state :=
  mkState t_window 0 t_day 0.

Definition resetWindowIfNeeded (o : options) (now : Z) (s : state) : state :=
  if windowMs o <=? now - windowStart s
  then mkState now 0 (dayStart s) (dayCount s)
  else s.

Definition resetDayIfNeeded (now : Z) (s : state) : state :=
  if 86400000 <=? now - dayStart s
  then mkState (windowStart s) (windowCount s) now 0
  else s.

(** [windowCount++; dayCount++] *)
Definition count_request (s : state) : state :=
  mkState (windowStart s) (windowCount s + 1) (dayStart s) (dayCount s + 1).

Definition daily_limit_error (o : options) : jserror :=
  Error ("Daily rate limit reached (" ++ show_Z (maxPerDay o) ++ ")").

(** How the synchronous part of [acquire()] ends: it throws, it returns
    (the promise resolves without a suspension), or it reaches the
    [await] of the timer.  Each case carries the limiter's state at that
    point. *)
Inductive begun : Type :=
| Failed (e : jserror) (s : state)
| Granted (s : state)
| Suspended (waitMs : Z) (s : state).

(** [acquire()] up to its [await].  [t_day], [t_window] and [t_wait] are
    the readings of [Date.now()] in [resetDayIfNeeded], in
    [resetWindowIfNeeded] and in the computation of [waitMs]. *)
Definition acquire_begin (o : options) (t_day t_window t_wait : Z) (s : state)
  : begun :=
  let s := resetDayIfNeeded t_day s in
  if maxPerDay o <=? dayCount s then Failed (daily_limit_error o) s
  else
    let s := resetWindowIfNeeded o t_window s in
    if maxPerWindow o <=? windowCount s then
      Suspended (windowMs o - (t_wait - windowStart s) + 50) s
    else Granted (count_request s).

(** [acquire()] after the timer has fired, on the state found then;
    [t_wake] is the reading of the clock in the second
    [resetWindowIfNeeded]. *)
Definition acquire_resume (o : options) (t_wake : Z) (s : state) : state :=
  count_request (resetWindowIfNeeded o t_wake s).

(** The readings of the clock during one call that runs alone. *)
Record readings : Type := mkReadings {
  at_day : Z;
  at_window : Z;
  at_wait : Z;
  at_wake : Z
}.

(** How a call of [acquire()] ends. *)
Inductive outcome : Type :=
| Rejected (e : jserror)
| Immediate
| Waited (waitMs : Z).

(** One awaited call of [acquire()], nothing else running meanwhile. *)
Definition acquire (o : options) (r : readings) (s : state) : outcome * state :=
  match acquire_begin o (at_day r) (at_window r) (at_wait r) s with
  | Failed e s' => (Rejected e, s')
  | Granted s' => (Immediate, s')
  | Suspended w s' => (Waited w, acquire_resume o (at_wake r) s')
  end.

(** A sequence of awaited calls. *)
Fixpoint acquire_all (o : options) (calls : list readings) (s : state)
  : list outcome * state :=
  match calls with
  | [] => ([], s)
  | r :: rest =>
      let (out, s') := acquire o r s in
      let (outs, s'') := acquire_all o rest s' in
      (out :: outs, s'')
  end.

(** The object [stats()] returns. *)
Record stats_view : Type := mkStats {
  windowRemaining : Z;
  dayRemaining : Z;
  stat_dayCount : Z
}.

(** [stats()], with the readings of the clock of its two resets. *)
Definition stats (o : options) (t_window t_day : Z) (s : state)
  : stats_view * state :=
  let s := resetWindowIfNeeded o t_window s in
  let s := resetDayIfNeeded t_day s in
  (mkStats (maxPerWindow o - windowCount s) (maxPerDay o - dayCount s) (dayCount s), s).

Definition suspends (out : outcome) : bool :=
  match out with Waited _ => true | _ => false end.

End Limiter.

(* --------------------------------------------------------------------- *)
(** ** Resilience layer: ghl-utils.js, [withRetry], [resolveEnvValue], [timeAgo] *)

Module Utils.

(** [err.message.match(/HTTP (\d+)/)?.[1]]: the digits after the first
    occurrence of [HTTP ] that is followed by a digit. *)
Fixpoint match_http (msg : string) : option string :=
  match msg with
  | EmptyString => None
  | String _ t =>
      let ds := take_digits (slice 5 msg) in
      if startsWith "HTTP " msg && truthy_string ds then Some ds
      else match_http t
  end.

(** [parseInt(err.message?.match(/HTTP (\d+)/)?.[1])]: [None] is [NaN]. *)
Definition http_status (err : jserror) : option Z :=
  match emessage err with
  | None => None
  | Some msg =>
      match match_http msg with
      | Some ds => Some (digits_value 0 ds)
      | None => None
      end
  end.

(** The default [shouldRetry]. *)
Definition shouldRetry_default (err : jserror) : bool :=
  if match emessage err with
     | Some msg => includes "fetch failed" msg
     | None => false
     end
  then true
  else match http_status err with
       | Some status => (status =? 429) || ((500 <=? status) && (status <? 600))
       | None => false
       end.

(** How a request of the transport fails, in the classes of the
    specification: a failure of the network, which [fetch] reports by
    rejecting with [TypeError: fetch failed], or a response that is not
    OK, which [sendJsonRpc] reports with its status and its body. *)
Inductive failure : Type :=
| NetworkFailure
| HttpFailure (status : Z) (body : string).

(** The error that a failure is reported with. *)
Definition error_of (f : failure) : jserror :=
  match f with
  | NetworkFailure => TypeError "fetch failed"
  | HttpFailure status body =>
      Error ("MCP HTTP " ++ show_Z status ++ ": " ++ body)
  end.


(** The options of [withRetry]; [maxRetries] is a count, [baseDelayMs] a
    number. *)
Record options : Type := mkOptions {
  maxRetries : nat;
  baseDelayMs : float;
  shouldRetry : jserror -> bool
}.

Definition default_options : options := mkOptions 3 1000%float shouldRetry_default.

(** One pass through the [catch] block that ends in a timer: the
    attempt that failed, the delay awaited, the error logged. *)
Record retry : Type := mkRetry {
  attempt_of : nat;
  delay_of : float;
  cause_of : jserror
}.

(** [Math.pow(2, attempt)] for the count [attempt]: the power of two, or
    [Infinity] from 1024 on. *)
Fixpoint pow2 (attempt : nat) : float :=
  match attempt with
  | O => 1%float
  | S k => (2 * pow2 k)%float
  end.

(** The value thrown by [throw lastError] when nothing was caught. *)
Definition thrown_undefined : jserror := mkError "undefined" None.

Section WithRetry.

Variable A : Type.

(** [fn k] is what the call of [fn()] made in attempt [k] settles to. *)
Variable fn : nat -> result A.

(** [random k] is what [Math.random()] returns in attempt [k]. *)
Variable random : nat -> float.

Variable o : options.

(** [baseDelayMs * Math.pow(2, attempt) + Math.random() * baseDelayMs] *)
Definition backoff (attempt : nat) : float :=
  (baseDelayMs o * pow2 attempt + random attempt * baseDelayMs o)%float.

(** The [for] loop from [attempt], with [fuel] iterations left before
    [attempt] exceeds [maxRetries]. *)
Fixpoint attempts (fuel attempt : nat) (lastError : option jserror)
  : result A * list retry :=
  match fuel with
  | O => (Throw (match lastError with Some e => e | None => thrown_undefined end), [])
  | S fuel' =>
      match fn attempt with
      | Ok v => (Ok v, [])
      | Throw err =>
          if Nat.eqb attempt (maxRetries o) || negb (shouldRetry o err)
          then (Throw err, [])
          else
            let (res, log) := attempts fuel' (S attempt) (Some err) in
            (res, mkRetry attempt (backoff attempt) err :: log)
      end
  end.

(** [withRetry(fn, opts)]: what it settles to, and the retries it made. *)
Definition withRetry : result A * list retry :=
  attempts (S (maxRetries o)) 0 None.

(** The number of times [fn] was called. *)
Definition calls_made : nat := S (List.length (snd withRetry)).

End WithRetry.

(** [resolveEnvValue(value)]; [env k] is [process.env[k]]. *)
Definition resolveEnvValue (env : string -> option string) (v : option string)
  : result (option string) :=
  match v with
  | Some s =>
      if startsWith "ENV:" s then
        let envKey := slice 4 s in
        if truthy_opt (env envKey) then Ok (env envKey)
        else Throw (Error ("Environment variable " ++ envKey ++ " not set"))
      else Ok v
  | None => Ok None
  end.

Section TimeAgo.

(** [new Date(s).getTime()]: [None] for [NaN]. *)
Variable Date_parse : string -> option Z.

(** [timeAgo(date)] at clock reading [now]. *)
Definition timeAgo (now : Z) (date : string) : string :=
  match Date_parse date with
  | None => "NaNd ago"
  | Some then_ =>
      let diffMs := now - then_ in
      let minutes := diffMs / 60000 in
      if minutes <? 1 then "just now"
      else if minutes <? 60 then show_Z minutes ++ "m ago"
      else
        let hours := minutes / 60 in
        if hours <? 24 then show_Z hours ++ "h ago"
        else show_Z (hours / 24) ++ "d ago"
  end.

End TimeAgo.

End Utils.

(* --------------------------------------------------------------------- *)
(** ** Monitoring engine: ghl_monitor.js *)

Module Monitor.

(** [config.thresholds] of a location. *)
Record thresholds : Type := mkThresholds {
  stale_lead_hours : option Z;
  stuck_opportunity_days : option Z;
  slow_response_minutes : option Z
}.

Record locationConfig : Type := mkLocation {
  loc_name : option string;
  loc_alias : option string;
  loc_token : option string;
  loc_locationId : option string;
  loc_thresholds : option thresholds
}.

(** A contact as the CRM returns it; [None] is a property that is
    absent. *)
Record contact : Type := mkContact {
  c_id : option string;
  firstName : option string;
  lastName : option string;
  email : option string;
  phone : option string;
  tags : option (list string);
  lastActivity : option string;
  dateUpdated : option string;
  dateAdded : option string
}.

Record stage : Type := mkStage {
  stage_id : option string;
  stage_name : option string
}.

Record pipeline : Type := mkPipeline {
  pipeline_id : option string;
  pipeline_name : option string;
  stages : option (list stage)
}.

Record opportunity : Type := mkOpportunity {
  opp_id : option string;
  opp_name : option string;
  contactName : option string;
  pipelineStageId : option string;
  monetaryValue : option float;
  lastStageChangeAt : option string;
  updatedAt : option string;
  createdAt : option string
}.

(** [config.thresholds?.field || dflt] *)
Definition threshold_or (t : option thresholds)
  (field : thresholds -> option Z) (dflt : Z) : Z :=
  match t with
  | None => dflt
  | Some th =>
      match field th with
      | Some n => if n =? 0 then dflt else n
      | None => dflt
      end
  end.

(** The time values a [Date] can hold. *)
Definition max_time : Z := 8640000000000000.

Definition valid_time (t : Z) : bool := (- max_time <=? t) && (t <=? max_time).

(** [new Date(t)]: an Invalid Date outside the range. *)
Definition new_Date (t : Z) : option Z := if valid_time t then Some t else None.

(** [a < b] on two dates: false when either is invalid. *)
Definition date_lt (a b : option Z) : bool :=
  match a, b with
  | Some x, Some y => x <? y
  | _, _ => false
  end.

Definition opt_eqb (a b : option string) : bool :=
  match a, b with
  | Some x, Some y => String.eqb x y
  | None, None => true
  | _, _ => false
  end.

(** *** Findings *)

Record stale_item : Type := mkStaleItem {
  si_id : option string;
  si_name : option string;
  si_lastActivity : string;
  si_tags : list string
}.

Record stale_finding : Type := mkStaleFinding {
  sf_count : nat;
  sf_threshold : string;
  sf_items : list stale_item;
  sf_hasMore : bool
}.

Record overdue_item : Type := mkOverdue {
  od_contactId : option string;
  od_contactName : string;
  od_taskTitle : option string;
  od_dueDate : string
}.

Record followup_finding : Type := mkFollowupFinding {
  ff_count : nat;
  ff_items : list overdue_item;
  ff_hasMore : bool
}.

Record opp_item : Type := mkOppItem {
  oi_id : option string;
  oi_name : option string;
  oi_value : option float;
  oi_stuckSince : string
}.

Record bottleneck : Type := mkBottleneck {
  b_pipeline : option string;
  b_stage : string;
  b_count : nat;
  b_totalValue : float;
  b_items : list opp_item
}.

Record bottleneck_finding : Type := mkBottleneckFinding {
  bf_count : nat;
  bf_threshold : string;
  bf_bottlenecks : list bottleneck
}.

Record slow_item : Type := mkSlow {
  sl_contactId : option string;
  sl_contactName : string;
  sl_responseTime : string;
  sl_threshold : string
}.

Record slow_finding : Type := mkSlowFinding {
  slf_count : nat;
  slf_threshold : string;
  slf_items : list slow_item
}.

(** A Finding: what a check returns, or the object that [runAllChecks]
    builds for a check that failed, [{ check, error }]. *)
Inductive finding : Type :=
| StaleLeads (f : stale_finding)
| MissedFollowups (f : followup_finding)
| PipelineBottlenecks (f : bottleneck_finding)
| SlowResponses (f : slow_finding)
| CheckError (check : string) (error : option string).

(** [finding.check] *)
Definition check_name (f : finding) : string :=
  match f with
  | StaleLeads _ => "stale_leads"
  | MissedFollowups _ => "missed_followups"
  | PipelineBottlenecks _ => "pipeline_bottlenecks"
  | SlowResponses _ => "slow_responses"
  | CheckError c _ => c
  end.

(** [finding.count]: absent on the finding of a failed check. *)
Definition count_of (f : finding) : option nat :=
  match f with
  | StaleLeads x => Some (sf_count x)
  | MissedFollowups x => Some (ff_count x)
  | PipelineBottlenecks x => Some (bf_count x)
  | SlowResponses x => Some (slf_count x)
  | CheckError _ _ => None
  end.

(** [finding.error]: absent on the finding of a check that returned. *)
Definition error_of (f : finding) : option string :=
  match f with
  | CheckError _ e => e
  | _ => None
  end.

(** Whether the finding has the properties [count] and [items] (or
    [bottlenecks]) of a check that returned. *)
Definition has_results (f : finding) : bool :=
  match f with
  | CheckError _ _ => false
  | _ => true
  end.

Section Checks.

Variable Date_parse : string -> option Z.
Variable trim : string -> string.

(** *** [checkStaleLeads] *)

(** [c.lastActivity || c.dateUpdated || c.dateAdded] *)
Definition activity_date (c : contact) : option string :=
  or_else (or_else (lastActivity c) (dateUpdated c)) (dateAdded c).

(** The callback of [filter]:
    [lastActivity && new Date(lastActivity) < new Date(cutoff)]. *)
Definition is_stale (cutoff : Z) (c : contact) : bool :=
  match activity_date c with
  | Some d => truthy_string d && date_lt (Date_parse d) (Some cutoff)
  | None => false
  end.

(** [`${c.firstName || ''} ${c.lastName || ''}`.trim()] *)
Definition full_name (first last : option string) : string :=
  trim (or_empty first ++ " " ++ or_empty last).

Definition stale_item_of (now : Z) (c : contact) : stale_item :=
  let n := full_name (firstName c) (lastName c) in
  mkStaleItem (c_id c)
    (if truthy_string n then Some n else or_else (email c) (phone c))
    (match activity_date c with
     | Some d => Utils.timeAgo Date_parse now d
     | None => "NaNd ago"
     end)
    (match tags c with Some l => l | None => [] end).

(** [new Date(t).toISOString()] read back by [new Date(cutoff)]: the
    time value itself, or a RangeError for an Invalid Date. *)
Definition iso_cutoff (t : Z) : result Z :=
  if valid_time t then Ok t else Throw (RangeError "Invalid time value").

(** [checkStaleLeads(actions, config)].  [now] is the clock at entry,
    [fetched] what [actions.searchContacts('', { limit: 100 })] settles
    to, decoded by [parseContent]: the [contacts] array, [None] when the
    payload has none; [now_items] is the clock when the items are
    rendered. *)
Definition checkStaleLeads (now now_items : Z) (config : locationConfig)
  (fetched : result (option (list contact))) : result stale_finding :=
  let threshold := threshold_or (loc_thresholds config) stale_lead_hours 48 in
  do cutoff <- iso_cutoff (now - threshold * 3600000);
  do payload <- fetched;
  let contacts := match payload with Some l => l | None => [] end in
  let stale := List.filter (is_stale cutoff) contacts in
  Ok (mkStaleFinding
        (List.length stale)
        (show_Z threshold ++ "h")
        (List.map (stale_item_of now_items) (List.firstn 10 stale))
        (Nat.ltb 10 (List.length stale))).

(** The reading of the specification: the most recent of the dates
    [lastActivity], [dateUpdated], [dateAdded] that the contact has,
    compared with the cutoff. *)
Definition known_dates (c : contact) : list Z :=
  List.flat_map
    (fun o => match o with
              | Some d => match Date_parse d with Some t => [t] | None => [] end
              | None => []
              end)
    [lastActivity c; dateUpdated c; dateAdded c].

Definition most_recent (c : contact) : option Z :=
  match known_dates c with
  | [] => None
  | t :: ts => Some (List.fold_left Z.max ts t)
  end.

Definition stale_by_most_recent (cutoff : Z) (c : contact) : bool :=
  match most_recent c with
  | Some t => t <? cutoff
  | None => false
  end.

(** *** [checkPipelineBottlenecks] *)

(** [opp.lastStageChangeAt || opp.updatedAt || opp.createdAt] *)
Definition stage_date (opp : opportunity) : option string :=
  or_else (or_else (lastStageChangeAt opp) (updatedAt opp)) (createdAt opp).

(** [stageDate && new Date(stageDate) < cutoff] *)
Definition is_stuck (cutoff : option Z) (opp : opportunity) : bool :=
  match stage_date opp with
  | Some d => truthy_string d && date_lt (Date_parse d) cutoff
  | None => false
  end.

(** [pipeline.stages?.find(s => s.id === opp.pipelineStageId)?.name
     || opp.pipelineStageId], as the property key it is used for. *)
Definition stage_key (p : pipeline) (opp : opportunity) : string :=
  let found :=
    match stages p with
    | None => None
    | Some l =>
        match List.find (fun s => opt_eqb (stage_id s) (pipelineStageId opp)) l with
        | Some s => stage_name s
        | None => None
        end
    end in
  match or_else found (pipelineStageId opp) with
  | Some k => k
  | None => "undefined"
  end.

Definition opp_item_of (now : Z) (opp : opportunity) : opp_item :=
  mkOppItem (opp_id opp) (or_else (opp_name opp) (contactName opp))
    (monetaryValue opp)
    (match stage_date opp with
     | Some d => Utils.timeAgo Date_parse now d
     | None => "NaNd ago"
     end).

(** The names of the properties that an object literal inherits from
    [Object.prototype]. *)
Definition inherited : list string :=
  ["constructor"; "hasOwnProperty"; "isPrototypeOf"; "propertyIsEnumerable";
   "toLocaleString"; "toString"; "valueOf"; "__proto__";
   "__defineGetter__"; "__defineSetter__"; "__lookupGetter__";
   "__lookupSetter__"].

Definition is_inherited (k : string) : bool :=
  List.existsb (String.eqb k) inherited.

(** The object [stageGroups], as its own properties in order of
    creation.  [push_group] is
    [if (!stageGroups[k]) stageGroups[k] = []; stageGroups[k].push(item)]
    for a key [k] that the object does not inherit. *)
Fixpoint push_group (k : string) (item : opp_item)
  (groups : list (string * list opp_item)) : list (string * list opp_item) :=
  match groups with
  | [] => [(k, [item])]
  | (k', l) :: rest =>
      if String.eqb k' k then (k', (l ++ [item])%list) :: rest
      else (k', l) :: push_group k item rest
  end.

(** For a key that the object inherits, [stageGroups[k]] is the
    inherited value, which is truthy and has no [push]: the call
    throws. *)
Definition not_a_function : jserror :=
  TypeError "stageGroups[stageName].push is not a function".

(** The loop over the opportunities of one pipeline. *)
Fixpoint group_stuck (now : Z) (cutoff : option Z) (p : pipeline)
  (opps : list opportunity) (groups : list (string * list opp_item))
  : result (list (string * list opp_item)) :=
  match opps with
  | [] => Ok groups
  | opp :: rest =>
      if is_stuck cutoff opp then
        if is_inherited (stage_key p opp) then Throw not_a_function
        else group_stuck now cutoff p rest
               (push_group (stage_key p opp) (opp_item_of now opp) groups)
      else group_stuck now cutoff p rest groups
  end.

(** No stuck opportunity of [opps] is filed under a name that the object
    inherits. *)
Definition own_keys (cutoff : option Z) (p : pipeline)
  (opps : list opportunity) : bool :=
  List.forallb
    (fun o => negb (is_stuck cutoff o && is_inherited (stage_key p o))) opps.

(** Whether a property key is an array index: the canonical decimal
    form of an integer below [2^32 - 1]. *)
Definition array_index (k : string) : option Z :=
  let canonical :=
    match k with
    | EmptyString => false
    | String "0"%char (String _ _) => false
    | _ => String.eqb (take_digits k) k
    end in
  if canonical && (String.length k <=? 10)%nat && (digits_value 0 k <? 4294967295)
  then Some (digits_value 0 k) else None.

Fixpoint insert_by_index {V : Type} (i : Z) (e : string * V)
  (sorted : list (Z * (string * V))) : list (Z * (string * V)) :=
  match sorted with
  | [] => [(i, e)]
  | (j, e') :: rest =>
      if i <? j then (i, e) :: (j, e') :: rest
      else (j, e') :: insert_by_index i e rest
  end.

(** The index-like properties of an object, in ascending order. *)
Fixpoint indexed_entries {V : Type} (props : list (string * V))
  : list (Z * (string * V)) :=
  match props with
  | [] => []
  | (k, v) :: rest =>
      match array_index k with
      | Some i => insert_by_index i (k, v) (indexed_entries rest)
      | None => indexed_entries rest
      end
  end.

Definition named_entries {V : Type} (props : list (string * V))
  : list (string * V) :=
  List.filter (fun e => match array_index (fst e) with Some _ => false | None => true end) props.

(** [Object.entries(o)]: the index-like keys in ascending order, then
    the other keys in order of creation. *)
Definition Object_entries {V : Type} (props : list (string * V))
  : list (string * V) :=
  List.map snd (indexed_entries props) ++ named_entries props.

(** The keys of an object, and whether a property has an index-like
    key. *)
Definition keys {V : Type} (g : list (string * V)) : list string :=
  List.map fst g.

Definition is_indexed {V : Type} (e : string * V) : bool :=
  match array_index (fst e) with Some _ => true | None => false end.

(** [o.value || 0] *)
Definition value_or_zero (v : option float) : float :=
  match v with Some x => Num.or_zero x | None => 0%float end.

(** [opps.reduce((sum, o) => sum + (o.value || 0), 0)] *)
Definition total_value (items : list opp_item) : float :=
  List.fold_left (fun sum o => (sum + value_or_zero (oi_value o))%float)
    items 0%float.

Definition bottleneck_of (p : pipeline) (entry : string * list opp_item)
  : bottleneck :=
  let (stage, opps) := entry in
  mkBottleneck (pipeline_name p) stage (List.length opps)
    (total_value opps) (List.firstn 5 opps).

(** The bottlenecks that one iteration of the loop over the pipelines
    pushes. *)
Definition pipeline_bottlenecks (now : Z) (cutoff : option Z) (p : pipeline)
  (opps : list opportunity) : result (list bottleneck) :=
  do stageGroups <- group_stuck now cutoff p opps [];
  Ok (List.map (bottleneck_of p)
        (List.filter (fun e => Nat.ltb 0 (List.length (snd e)))
           (Object_entries stageGroups))).

(** The opportunities of [opps] that the loop files under the key [s]. *)
Definition stuck_in (cutoff : option Z) (p : pipeline) (s : string)
  (opps : list opportunity) : list opportunity :=
  List.filter (fun o => is_stuck cutoff o && String.eqb (stage_key p o) s) opps.

(** The loop over the pipelines; [search i p] is what
    [actions.searchOpportunities({ pipelineId: p.id })] settles to in
    iteration [i], decoded by [parseContent]. *)
Fixpoint for_pipelines (now : Z) (cutoff : option Z)
  (search : nat -> pipeline -> result (option (list opportunity)))
  (i : nat) (ps : list pipeline) (bottlenecks : list bottleneck)
  : result (list bottleneck) :=
  match ps with
  | [] => Ok bottlenecks
  | p :: rest =>
      do payload <- search i p;
      let opps := match payload with Some l => l | None => [] end in
      do pushed <- pipeline_bottlenecks now cutoff p opps;
      for_pipelines now cutoff search (S i) rest (bottlenecks ++ pushed)
  end.

(** [checkPipelineBottlenecks(actions, config)].  [now] is the clock at
    entry, [now_items] the clock when the items are rendered,
    [fetched] what [actions.getPipelines()] settles to. *)
Definition checkPipelineBottlenecks (now now_items : Z) (config : locationConfig)
  (fetched : result (option (list pipeline)))
  (search : nat -> pipeline -> result (option (list opportunity)))
  : result bottleneck_finding :=
  let stuckDays := threshold_or (loc_thresholds config) stuck_opportunity_days 7 in
  let cutoff := new_Date (now - stuckDays * 86400000) in
  do payload <- fetched;
  let pipelines := match payload with Some l => l | None => [] end in
  do bottlenecks <- for_pipelines now_items cutoff search 0 (List.firstn 3 pipelines) [];
  Ok (mkBottleneckFinding
        (List.fold_left (fun sum b => (sum + b_count b)%nat) bottlenecks 0%nat)
        (show_Z stuckDays ++ "d")
        bottlenecks).

(** *** [formatSummary] *)

(** [new Date(timestamp).toLocaleString()] *)
Variable toLocaleString : option Z -> string.

(** The property [checks] of a Report. *)
Record checks : Type := mkChecks {
  staleLeads : finding;
  missedFollowups : finding;
  pipelineBottlenecks : finding;
  slowResponses : finding
}.

Record report : Type := mkReport {
  timestamp : string;
  location : option string;
  checks_of : checks;
  summary : string
}.

(** A template literal's rendering of an optional string. *)
Definition show_opt (o : option string) : string :=
  match o with Some s => s | None => "undefined" end.

Definition show_count (o : option nat) : string :=
  match o with Some n => show_Z (Z.of_nat n) | None => "undefined" end.

(** The local function [add] of [formatSummary]: the line it pushes. *)
Definition summary_line (emoji label : string) (check : finding) : string :=
  if truthy_opt (error_of check) then
    emoji ++ " " ++ label ++ ": ⚠️ Error — " ++ show_opt (error_of check)
  else
    match count_of check with
    | Some O => emoji ++ " " ++ label ++ ": ✅ None"
    | c => emoji ++ " " ++ label ++ ": ⚠️ " ++ show_count c ++ " found"
    end.

(** [Object.values(checks).reduce((sum, c) => sum + (c.count || 0), 0)] *)
Definition total_issues (c : checks) : nat :=
  List.fold_left
    (fun sum f => (sum + match count_of f with Some n => n | None => 0 end)%nat)
    [staleLeads c; missedFollowups c; pipelineBottlenecks c; slowResponses c]
    0%nat.

(** [formatSummary(results)], from the three properties it reads. *)
Definition formatSummary (ts : string) (loc : option string) (c : checks)
  : string :=
  String.concat nl
    [ "📊 GHL Monitor — " ++ show_opt loc;
      "🕐 " ++ toLocaleString (Date_parse ts);
      "";
      summary_line "👤" "Stale Leads" (staleLeads c);
      summary_line "📋" "Missed Follow-ups" (missedFollowups c);
      summary_line "🔴" "Pipeline Bottlenecks" (pipelineBottlenecks c);
      summary_line "⏱️" "Slow Responses" (slowResponses c);
      "";
      if Nat.eqb (total_issues c) 0 then "✅ All clear — no issues detected."
      else "⚠️ " ++ show_Z (Z.of_nat (total_issues c)) ++ " total issues need attention." ].

(** *** [runAllChecks] *)

(** [config.locations]: the locations by alias. *)
Record config : Type := mkConfig {
  locations : option (list (string * locationConfig))
}.

(** An element of the array [Promise.allSettled] resolves to. *)
Inductive settled (A : Type) : Type :=
| Fulfilled (v : A)
| RejectedWith (reason : jserror).
Arguments Fulfilled {A} v.
Arguments RejectedWith {A} reason.

(** [s.status === 'fulfilled' ? s.value : { check, error: s.reason?.message }] *)
Definition finding_of {A : Type} (wrap : A -> finding) (check : string)
  (s : settled A) : finding :=
  match s with
  | Fulfilled v => wrap v
  | RejectedWith reason => CheckError check (emessage reason)
  end.

(** [createActions(locationConfig)] as far as it can throw: the two
    credentials are resolved, and [createMcpClient] requires both. *)
Definition createActions (env : string -> option string) (lc : locationConfig)
  : result (option string * option string) :=
  do token <- Utils.resolveEnvValue env (loc_token lc);
  do locationId <- Utils.resolveEnvValue env (loc_locationId lc);
  if negb (truthy_opt token) then Throw (Error "GHL token is required")
  else if negb (truthy_opt locationId) then Throw (Error "GHL locationId is required")
  else Ok (token, locationId).

(** [runAllChecks(config, locationAlias)].  [stale], [followups],
    [bottlenecks] and [responses] are what the four promises handed to
    [Promise.allSettled] settle to; [iso_now] is
    [new Date().toISOString()].  [actions.close()] in the [finally]
    block resets the client and does not throw. *)
Definition runAllChecks (env : string -> option string) (iso_now : string)
  (cfg : config) (locationAlias : string)
  (stale : settled stale_finding) (followups : settled followup_finding)
  (bottlenecks : settled bottleneck_finding) (responses : settled slow_finding)
  : result report :=
  match match locations cfg with Some l => assoc locationAlias l | None => None end with
  | None => Throw (Error ("Location '" ++ locationAlias ++ "' not found in config"))
  | Some locationConfig =>
      do actions <- createActions env locationConfig;
      let c := mkChecks
                 (finding_of StaleLeads "stale_leads" stale)
                 (finding_of MissedFollowups "missed_followups" followups)
                 (finding_of PipelineBottlenecks "pipeline_bottlenecks" bottlenecks)
                 (finding_of SlowResponses "slow_responses" responses) in
      Ok (mkReport iso_now (loc_name locationConfig) c
            (formatSummary iso_now (loc_name locationConfig) c))
  end.

End Checks.

Arguments Fulfilled {A} v.
Arguments RejectedWith {A} reason.

End Monitor.

(* --------------------------------------------------------------------- *)
(** ** Text as bytes: the encoding [utf8] of a [Buffer] *)

(** Where a string is turned into bytes and back, a string is the
    sequence of its UTF-16 code units, each below [2^16]; a byte is a
    number below 256.  [encode] is what [Buffer.from(s, 'utf8')] and
    [cipher.update(s, 'utf8')] write for [s], [decode] what
    [buf.toString('utf8')] reads: the UTF-8 encoder and decoder of the
    Encoding Standard, without a byte order mark. *)
Module Utf8.

Definition jsstring : Type := list Z.

Definition is_unit (u : Z) : bool := (0 <=? u) && (u <? 65536).

(** The two halves of a surrogate pair. *)
Definition is_high (u : Z) : bool := (0xD800 <=? u) && (u <=? 0xDBFF).
Definition is_low (u : Z) : bool := (0xDC00 <=? u) && (u <=? 0xDFFF).

(** A well-formed string: code units, every surrogate part of a
    pair. *)
Fixpoint well_formed (units : jsstring) : bool :=
  match units with
  | [] => true
  | u :: rest =>
      is_unit u &&
      (if is_high u then
         match rest with
         | l :: rest' => is_low l && well_formed rest'
         | [] => false
         end
       else negb (is_low u) && well_formed rest)
  end.

(** The code points that the encoder reads: a surrogate pair is one code
    point, and a surrogate outside a pair is read as U+FFFD. *)
Fixpoint scalars (units : jsstring) : list Z :=
  match units with
  | [] => []
  | u :: rest =>
      if is_high u then
        match rest with
        | l :: rest' =>
            if is_low l
            then (0x10000 + (u - 0xD800) * 1024 + (l - 0xDC00)) :: scalars rest'
            else 0xFFFD :: scalars rest
        | [] => [0xFFFD]
        end
      else if is_low u then 0xFFFD :: scalars rest
      else u :: scalars rest
  end.

(** The bytes of one code point. *)
Definition encode_scalar (c : Z) : list Z :=
  if c <? 0x80 then [c]
  else if c <? 0x800 then [0xC0 + c / 64; 0x80 + c mod 64]
  else if c <? 0x10000 then
    [0xE0 + c / 4096; 0x80 + (c / 64) mod 64; 0x80 + c mod 64]
  else
    [0xF0 + c / 262144; 0x80 + (c / 4096) mod 64; 0x80 + (c / 64) mod 64;
     0x80 + c mod 64].

Definition encode (s : jsstring) : list Z :=
  List.flat_map encode_scalar (scalars s).

(** The decoder between two bytes of a sequence: the code point read
    so far, the continuation bytes still needed, and the bounds of the
    next byte. *)
Record pending : Type := mkPending {
  code_point : Z;
  needed : nat;
  lower : Z;
  upper : Z
}.

(** The code units of a code point. *)
Definition utf16 (c : Z) : jsstring :=
  if c <? 0x10000 then [c]
  else [0xD800 + (c - 0x10000) / 1024; 0xDC00 + (c - 0x10000) mod 1024].

(** A byte read when no sequence is open: what is emitted, and the
    sequence it opens. *)
Definition start (b : Z) : jsstring * option pending :=
  if b <=? 0x7F then ([b], None)
  else if (0xC2 <=? b) && (b <=? 0xDF) then
    ([], Some (mkPending (b mod 32) 1 0x80 0xBF))
  else if (0xE0 <=? b) && (b <=? 0xEF) then
    ([], Some (mkPending (b mod 16) 2
                 (if b =? 0xE0 then 0xA0 else 0x80)
                 (if b =? 0xED then 0x9F else 0xBF)))
  else if (0xF0 <=? b) && (b <=? 0xF4) then
    ([], Some (mkPending (b mod 8) 3
                 (if b =? 0xF0 then 0x90 else 0x80)
                 (if b =? 0xF4 then 0x8F else 0xBF)))
  else ([0xFFFD], None).

(** The decoder.  A byte outside the bounds ends the open sequence with
    U+FFFD and is read again with no sequence open; so does the end of
    the bytes. *)
Fixpoint decode_from (st : option pending) (bytes : list Z) : jsstring :=
  match bytes with
  | [] => match st with Some _ => [0xFFFD] | None => [] end
  | b :: rest =>
      match st with
      | None => let (out, st') := start b in (out ++ decode_from st' rest)%list
      | Some p =>
          if (lower p <=? b) && (b <=? upper p) then
            let c := code_point p * 64 + b mod 64 in
            match needed p with
            | S (S n) => decode_from (Some (mkPending c (S n) 0x80 0xBF)) rest
            | _ => (utf16 c ++ decode_from None rest)%list
            end
          else
            0xFFFD :: (let (out, st') := start b in out ++ decode_from st' rest)%list
      end
  end.

Definition decode (bytes : list Z) : jsstring := decode_from None bytes.

(** A scalar value: a code point that is not a surrogate. *)
Definition is_scalar (c : Z) : bool :=
  (0 <=? c) && (c <? 0x110000) && negb ((0xD800 <=? c) && (c <=? 0xDFFF)).

(** The byte of a number below 256, and the number of a byte. *)
Definition byte_of (z : Z) : byte :=
  match Byte.of_N (Z.to_N z) with Some b => b | None => x00 end.

Definition number_of (b : byte) : Z := Z.of_N (Byte.to_N b).

(** The code units of a text of ASCII characters. *)
Definition of_ascii (s : string) : jsstring :=
  List.map (fun a => Z.of_N (N_of_ascii a)) (list_ascii_of_string s).

End Utf8.

(* --------------------------------------------------------------------- *)
(** ** Credential store: cli/encryption.js *)

Module Encryption.

Definition KEY_LENGTH : nat := 32.
Definition IV_LENGTH : nat := 16.
Definition SALT_LENGTH : nat := 32.
Definition TAG_LENGTH : nat := 16.
Definition PBKDF2_ITERATIONS : Z := 100000.

(** A [Buffer]. *)
Definition buffer : Type := list byte.

(** [buf.subarray(start, end)] for [start <= end]. *)
Definition subarray (start end_ : nat) (b : buffer) : buffer :=
  List.firstn (end_ - start) (List.skipn start b).

Section Crypto.

(** [pbkdf2Sync(password, salt, iterations, keylen, 'sha512')] *)
Variable pbkdf2Sync : string -> buffer -> Z -> nat -> buffer.

(** AES-256-GCM of node:crypto.  [gcm_encrypt key iv data] is the
    ciphertext that [update] and [final] produce and the tag that
    [getAuthTag] returns; [gcm_decrypt key iv tag data] is what [update]
    and [final] of the decipher produce, [final] throwing when the tag
    does not authenticate the data. *)
Variable gcm_encrypt : buffer -> buffer -> buffer -> buffer * buffer.
Variable gcm_decrypt : buffer -> buffer -> buffer -> buffer -> result buffer.

(** [buf.toString('base64')] and [Buffer.from(s, 'base64')] *)
Variable toBase64 : buffer -> string.
Variable fromBase64 : string -> buffer.

Definition deriveKey (password : string) (salt : buffer) : buffer :=
  pbkdf2Sync password salt PBKDF2_ITERATIONS KEY_LENGTH.

(** [encrypt(plaintext, password)]; [salt] and [iv] are what the two
    calls of [randomBytes] return. *)
Definition encrypt (salt iv : buffer) (plaintext : Utf8.jsstring)
  (password : string) : string :=
  let key := deriveKey password salt in
  let (encrypted, tag) :=
    gcm_encrypt key iv (List.map Utf8.byte_of (Utf8.encode plaintext)) in
  toBase64 (salt ++ iv ++ tag ++ encrypted)%list.

(** [decrypt(data, password)] *)
Definition decrypt (data password : string) : result Utf8.jsstring :=
  let packed := fromBase64 data in
  let salt := subarray 0 SALT_LENGTH packed in
  let iv := subarray SALT_LENGTH (SALT_LENGTH + IV_LENGTH) packed in
  let tag := subarray (SALT_LENGTH + IV_LENGTH) (SALT_LENGTH + IV_LENGTH + TAG_LENGTH) packed in
  let ciphertext := List.skipn (SALT_LENGTH + IV_LENGTH + TAG_LENGTH) packed in
  let key := deriveKey password salt in
  do decrypted <- gcm_decrypt key iv tag ciphertext;
  Ok (Utf8.decode (List.map Utf8.number_of decrypted)).

End Crypto.

(** *** Stand-ins for the primitives

    Functions with the interface of the primitives, on which the
    contracts assumed of node:crypto and of the base64 codec can be
    checked: a key derivation that cuts the password and the salt to the
    length asked for, a cipher that reverses the data and authenticates
    it with a tag cut from the key, and a codec that reads the bytes as
    characters. *)

Definition zeros (n : nat) : buffer := List.repeat x00 n.

Definition standin_pbkdf2 (password : string) (salt : buffer) (iterations : Z)
  (keylen : nat) : buffer :=
  List.firstn keylen (list_byte_of_string password ++ salt ++ zeros keylen)%list.

Definition standin_tag (key iv : buffer) : buffer :=
  List.firstn TAG_LENGTH (key ++ iv ++ zeros TAG_LENGTH)%list.

Definition standin_encrypt (key iv data : buffer) : buffer * buffer :=
  (List.rev data, standin_tag key iv).

Definition standin_decrypt (key iv tag data : buffer) : result buffer :=
  if List.list_eq_dec Byte.byte_eq_dec tag (standin_tag key iv)
  then Ok (List.rev data)
  else Throw (Error "Unsupported state or unable to authenticate data").

End Encryption.

(* --------------------------------------------------------------------- *)
(** ** A date reader for running the checks on concrete data *)

(** [iso_read] reads the UTC date-time form [YYYY-MM-DDTHH:mm:ssZ], with
    an optional [.sss], into milliseconds since the epoch, and answers
    [None] elsewhere.  The checks are parametric in the parsing done by
    [new Date(s)]; this reader instantiates it where a property is
    evaluated on concrete dates. *)
Module IsoDate.

(** The value of [n] decimal digits at the head of [s], and the rest. *)
Definition fixed_digits (n : nat) (s : string) : option (Z * string) :=
  let ds := String.substring 0 n s in
  if (String.length ds =? n)%nat && String.eqb (take_digits ds) ds
  then Some (digits_value 0 ds, slice n s) else None.

(** The rest of [s] after the character [c]. *)
Definition expect (c : ascii) (s : string) : option string :=
  match s with
  | String c' t => if Ascii.eqb c c' then Some t else None
  | EmptyString => None
  end.

Definition leap_year (y : Z) : bool :=
  ((y mod 4 =? 0) && negb (y mod 100 =? 0)) || (y mod 400 =? 0).

Definition days_in_month (y m : Z) : Z :=
  if m =? 2 then (if leap_year y then 29 else 28)
  else if (m =? 4) || (m =? 6) || (m =? 9) || (m =? 11) then 30
  else 31.

(** Days from 1970-01-01 to the civil date [y]-[m]-[d]. *)
Definition days_from_civil (y m d : Z) : Z :=
  let y' := if m <=? 2 then y - 1 else y in
  let era := y' / 400 in
  let yoe := y' - era * 400 in
  let doy := (153 * (if 2 <? m then m - 3 else m + 9) + 2) / 5 + d - 1 in
  let doe := yoe * 365 + yoe / 4 - yoe / 100 + doy in
  era * 146097 + doe - 719468.

Definition opt_bind {A B : Type} (o : option A) (k : A -> option B) : option B :=
  match o with Some a => k a | None => None end.

Definition iso_read (s : string) : option Z :=
  opt_bind (fixed_digits 4 s) (fun '(y, s) =>
  opt_bind (expect "-"%char s) (fun s =>
  opt_bind (fixed_digits 2 s) (fun '(m, s) =>
  opt_bind (expect "-"%char s) (fun s =>
  opt_bind (fixed_digits 2 s) (fun '(d, s) =>
  opt_bind (expect "T"%char s) (fun s =>
  opt_bind (fixed_digits 2 s) (fun '(hh, s) =>
  opt_bind (expect ":"%char s) (fun s =>
  opt_bind (fixed_digits 2 s) (fun '(mi, s) =>
  opt_bind (expect ":"%char s) (fun s =>
  opt_bind (fixed_digits 2 s) (fun '(ss, s) =>
  opt_bind (match expect "."%char s with
            | Some s' => fixed_digits 3 s'
            | None => Some (0, s)
            end) (fun '(ms, s) =>
  if String.eqb s "Z" && (1 <=? m) && (m <=? 12) && (1 <=? d)
     && (d <=? days_in_month y m) && (hh <=? 23) && (mi <=? 59) && (ss <=? 59)
  then Some ((((days_from_civil y m d * 24 + hh) * 60 + mi) * 60 + ss) * 1000 + ms)
  else None)))))))))))).

End IsoDate.

(** [trim_ascii] removes the ASCII white space at both ends, which is
    what [trim] does on text without other white space. *)
Fixpoint string_rev (s : string) : string :=
  match s with
  | EmptyString => EmptyString
  | String c t => string_rev t ++ String c EmptyString
  end.

Definition trim_ascii (s : string) : string :=
  string_rev (JsonReader.skip_ws (string_rev (JsonReader.skip_ws s))).

(* --------------------------------------------------------------------- *)
(** ** Sample data *)

(** The data on which properties are evaluated: a stream, a location,
    contacts and opportunities in the shape of the mock server's. *)
Module Samples.

Import Monitor.

(** A stream in which a notification precedes the response to request 7. *)
Definition notification_then_response : list string :=
  [("data: " ++ JsonReader.dq "{'jsonrpc':'2.0','method':'notifications/progress'}"
    ++ nl ++ nl ++ "data: " ++ JsonReader.dq "{'jsonrpc':'2.0','id':7,'result':{}}"
    ++ nl ++ nl)%string].

Definition response_7 : json :=
  JObj [("jsonrpc", JStr "2.0"); ("id", JNum 7); ("result", JObj [])].

Definition hour : Z := 3600000.

(** The location of the examples: threshold of 48 hours. *)
Definition location_48h : locationConfig :=
  mkLocation (Some "Main") (Some "main") (Some "pit-token") (Some "loc-1")
    (Some (mkThresholds (Some 48) None None)).

(** A contact last active 50 hours before 2025-01-20T12:00:00Z, whose
    record was updated one hour before it. *)
Definition contact_updated_recently : contact :=
  mkContact (Some "c1") (Some "John") (Some "Doe") None None None
    (Some "2025-01-18T10:00:00Z") (Some "2025-01-20T11:00:00Z")
    (Some "2025-01-15T10:00:00Z").

Definition noon_jan_20 : Z := 1737374400000.

(** A contact whose only date is a [lastActivity] 50 hours before
    2025-01-20T12:00:00Z, and one last active 40 hours before it. *)
Definition contact_50h (id : string) : contact :=
  mkContact (Some id) (Some "Jane") (Some "Smith") None None None
    (Some "2025-01-18T10:00:00Z") None None.

Definition contact_40h (id : string) : contact :=
  mkContact (Some id) (Some "Ann") (Some "Lee") None None None
    (Some "2025-01-18T20:00:00Z") None None.

(** Eleven contacts last active 50 hours before. *)
Definition eleven_stale : list contact :=
  (List.repeat (contact_50h "c0") 10 ++ [contact_50h "c11"])%list.

(** The pipeline of the examples, and three opportunities: two in the
    stage [stage2] whose stage changed more than seven days before
    2025-01-20T12:00:00Z, one of them without a monetary value, and one
    in [stage4] whose stage changed the day before. *)
Definition audit_pipeline : pipeline :=
  mkPipeline (Some "pipe1") (Some "Strategic AI Audit Pipeline")
    (Some [mkStage (Some "stage1") (Some "Audit Requested");
           mkStage (Some "stage2") (Some "Audit In Progress");
           mkStage (Some "stage4") (Some "Proposal Sent")]).

Definition opp_audit : opportunity :=
  mkOpportunity (Some "opp1") (Some "John Doe - AI Audit") None (Some "stage2")
    (Some 2500%float) (Some "2025-01-10T00:00:00Z") None None.

Definition opp_no_value : opportunity :=
  mkOpportunity (Some "opp3") (Some "Ann Lee - AI Audit") None (Some "stage2")
    None (Some "2025-01-05T00:00:00Z") None None.

Definition opp_recent : opportunity :=
  mkOpportunity (Some "opp2") (Some "Jane Smith - Implementation") None
    (Some "stage4") (Some 15000%float) (Some "2025-01-19T12:00:00Z") None None.

Definition main_config : config :=
  mkConfig (Some [("main", location_48h)]).

Definition connection_refused : jserror := Error "Connection refused".

End Samples.


(* --------------------------------------------------------------------- *)
(** ** Resilience layer: ghl-utils.js, [createToolCache] *)

Module Cache.

Section ToolCache.

(** The type of the cached values. *)
Variable V : Type.

(** An entry [{ value, ts }] of the [Map]. *)
Record entry : Type := mkEntry {
  value_of : V;
  ts : Z
}.

(** The [Map] [store]: its entries by key. *)
Definition store : Type := list (string * entry).

(** [store.set(k, e)] *)
Fixpoint Map_set (k : string) (e : entry) (s : store) : store :=
  match s with
  | [] => [(k, e)]
  | (k', e') :: rest =>
      if String.eqb k' k then (k', e) :: rest else (k', e') :: Map_set k e rest
  end.

(** [store.delete(k)] *)
Definition Map_delete (k : string) (s : store) : store :=
  List.filter (fun p => negb (String.eqb (fst p) k)) s.

(** [get(key)] at the clock reading [now]: what it returns ([None] is
    [undefined]) and the store it leaves. *)
Definition get (ttlMs now : Z) (key : string) (s : store) : option V * store :=
  match assoc key s with
  | None => (None, s)
  | Some e =>
      if ttlMs <? now - ts e then (None, Map_delete key s)
      else (Some (value_of e), s)
  end.

(** [set(key, value)] at the clock reading [now]. *)
Definition set (now : Z) (key : string) (value : V) (s : store) : store :=
  Map_set key (mkEntry value now) s.

Definition invalidate (key : string) (s : store) : store := Map_delete key s.

Definition clear (s : store) : store := [].

End ToolCache.

End Cache.

(* --------------------------------------------------------------------- *)
(** ** Runs of the rate limiter *)

Module LimiterRuns.

Import Limiter.

Definition rejected (out : outcome) : bool :=
  match out with Rejected _ => true | _ => false end.

(** The calls of a run that were let through. *)
Definition let_through (outs : list outcome) : nat :=
  List.length (List.filter (fun out => negb (rejected out)) outs).

(** The timer of one call does not fire early: when the call waits,
    the clock read on waking is at least the wait later than the clock
    read when the wait was computed. *)
Definition timer_sound (o : options) (r : readings) (s : state) : Prop :=
  forall w s1,
    acquire_begin o (at_day r) (at_window r) (at_wait r) s = Suspended w s1 ->
    at_wait r + w <= at_wake r.

(** No timer of a sequence of awaited calls fires early. *)
Fixpoint timers_sound (o : options) (calls : list readings) (s : state) : Prop :=
  match calls with
  | [] => True
  | r :: rest => timer_sound o r s /\ timers_sound o rest (snd (acquire o r s))
  end.

(** Callers that were suspended on the same window resume one after
    the other, at the clock readings [wakes]. *)
Definition resume_all (o : options) (wakes : list Z) (s : state) : state :=
  List.fold_left (fun s t => acquire_resume o t s) wakes s.

End LimiterRuns.

(* --------------------------------------------------------------------- *)
(** ** Protocol client: ghl-mcp-client.js, [createMcpClient] *)

Module Session.

(** The four variables of the closure of [createMcpClient]; [None] is
    [null]. *)
Record client : Type := mkClient {
  sessionId : option string;
  initialized : bool;
  serverCapabilities : option json;
  serverInfo : option json
}.

(** The client that [createMcpClient] returns. *)
Definition new_client : client := mkClient None false None None.

(** A JSON-RPC request; a notification has no [id]. *)
Record request : Type := mkRequest {
  id : option Z;
  method : string;
  params : json
}.

(** What goes on the wire for one call of [sendJsonRpc]: the request
    body and the [Mcp-Session-Id] header, when one is set. *)
Record sent : Type := mkSent {
  request_of : request;
  session_header : option string
}.

(** The module-level counter [_requestId], and the requests sent so
    far. *)
Record net : Type := mkNet {
  requestId : Z;
  wire : list sent
}.

(** An operation of the client: from the client and the network before
    to its outcome and the client and the network after. *)
Definition op (A : Type) : Type := client * net -> result A * (client * net).

Definition MCP_PROTOCOL_VERSION : string := "2025-06-18".

Definition initialize_params : json :=
  JObj [("protocolVersion", JStr MCP_PROTOCOL_VERSION);
        ("capabilities", JObj []);
        ("clientInfo", JObj [("name", JStr "ghl-mcp-client");
                             ("version", JStr "1.0.0")])].

(** [v?.k] *)
Definition chain (v : value) (k : string) : value :=
  match v with
  | None => None
  | Some JNull => None
  | Some m => match get k m with Ok x => x | Throw _ => None end
  end.

(** [v || dflt] *)
Definition or_json (v : value) (dflt : json) : json :=
  if truthy v then match v with Some m => m | None => dflt end else dflt.

Section Operations.

Variable JSON_parse : string -> option json.

(** [JSON.stringify] *)
Variable JSON_stringify : json -> string.

(** [server k s] is what [fetch] settles to for the [k]-th request sent,
    which is [s]. *)
Variable server : nat -> sent -> Client.fetched.

(** [sendJsonRpc(url, headers, request, sessionId, timeoutMs)]: the
    header is set when [sessionId] is truthy. *)
Definition send (req : request) (session : option string) (w : net)
  : result Client.reply * net :=
  let s := mkSent req (if truthy_opt session then session else None) in
  (Client.sendJsonRpc JSON_parse
     (match id req with Some n => Some (JNum n) | None => None end)
     session (server (List.length (wire w)) s),
   mkNet (requestId w) (wire w ++ [s])).

(** [nextId()] *)
Definition nextId (w : net) : Z * net :=
  (requestId w + 1, mkNet (requestId w + 1) (wire w)).

(** [if (resp.result.error) throw new Error(prefix + JSON.stringify(...))];
    reading [error] of a [null] result throws. *)
Definition check_error (prefix : string) (res : json) : result unit :=
  do err <- get "error" res;
  if truthy err
  then Throw (Error (prefix ++ JSON_stringify
                       (match err with Some e => e | None => JNull end)))
  else Ok tt.

(** [resp.result.result] once [resp.result.error] has been read. *)
Definition inner_result (res : json) : value :=
  match get "result" res with Ok v => v | Throw _ => None end.

(** [initialize()] *)
Definition initialize : op (json * json) :=
  fun '(c, w) =>
    let (n, w) := nextId w in
    let request := mkRequest (Some n) "initialize" initialize_params in
    let (r, w) := send request None w in
    match r with
    | Throw e => (Throw e, (c, w))
    | Ok resp =>
        let c := mkClient (Client.sessionId resp) (initialized c)
                   (serverCapabilities c) (serverInfo c) in
        match check_error "MCP initialize error: " (Client.result_of resp) with
        | Throw e => (Throw e, (c, w))
        | Ok _ =>
            let inner := inner_result (Client.result_of resp) in
            let caps := or_json (chain inner "capabilities") (JObj []) in
            let info := or_json (chain inner "serverInfo") (JObj []) in
            let c := mkClient (sessionId c) true (Some caps) (Some info) in
            let notification :=
              mkRequest None "notifications/initialized" (JObj []) in
            let (_, w) := send notification (sessionId c) w in
            (Ok (caps, info), (c, w))
        end
    end.

(** [if (!initialized) await initialize()] *)
Definition ensure_initialized : op unit :=
  fun '(c, w) =>
    if initialized c then (Ok tt, (c, w))
    else match initialize (c, w) with
         | (Ok _, st) => (Ok tt, st)
         | (Throw e, st) => (Throw e, st)
         end.

(** The part that [listTools] and [callTool] share: the request is sent
    with the session, the session is updated, the error is checked, and
    [resp.result.result || dflt] is returned. *)
Definition roundtrip (method_ : string) (params_ : json) (prefix : string)
  (dflt : json) : op json :=
  fun st =>
    match ensure_initialized st with
    | (Throw e, st) => (Throw e, st)
    | (Ok _, (c, w)) =>
        let (n, w) := nextId w in
        let request := mkRequest (Some n) method_ params_ in
        let (r, w) := send request (sessionId c) w in
        match r with
        | Throw e => (Throw e, (c, w))
        | Ok resp =>
            let c := mkClient (or_else (Client.sessionId resp) (sessionId c))
                       (initialized c) (serverCapabilities c) (serverInfo c) in
            match check_error prefix (Client.result_of resp) with
            | Throw e => (Throw e, (c, w))
            | Ok _ =>
                (Ok (or_json (inner_result (Client.result_of resp)) dflt), (c, w))
            end
        end
    end.

(** [listTools(cursor)] *)
Definition listTools (cursor : option string) : op json :=
  roundtrip "tools/list"
    (match cursor with
     | Some c => if truthy_string c then JObj [("cursor", JStr c)] else JObj []
     | None => JObj []
     end)
    "MCP tools/list error: "
    (JObj [("tools", JArr [])]).

Definition call_params (name : string) (args : json) : json :=
  JObj [("name", JStr name); ("arguments", args)].

(** [callTool(name, args)] *)
Definition callTool (name : string) (args : json) : op json :=
  roundtrip "tools/call" (call_params name args)
    ("MCP tools/call error (" ++ name ++ "): ")
    (JObj []).

(** [close()] *)
Definition close : op unit :=
  fun '(_, w) => (Ok tt, (new_client, w)).

End Operations.

(** The header that a session gives. *)
Definition header_of (session : option string) : option string :=
  if truthy_opt session then session else None.

Definition initialize_request (n : Z) : request :=
  mkRequest (Some n) "initialize" initialize_params.

Definition initialized_notification : request :=
  mkRequest None "notifications/initialized" (JObj []).

Definition call_request (n : Z) (name : string) (args : json) : request :=
  mkRequest (Some n) "tools/call" (call_params name args).

End Session.

(* --------------------------------------------------------------------- *)
(** ** A writer of JSON texts *)

(** An instance of [JSON.stringify] without indentation, on the values
    that [JSON.parse] returns: the properties in order, strings quoted
    with the two-character escapes. *)
Module JsonWriter.

Import JsonReader.

Fixpoint write_chars (s : string) : string :=
  match s with
  | EmptyString => EmptyString
  | String c t =>
      if Ascii.eqb c DQ then String "\"%char (String DQ (write_chars t))
      else if Ascii.eqb c "\"%char then String "\"%char (String "\"%char (write_chars t))
      else if Ascii.eqb c LF then String "\"%char (String "n"%char (write_chars t))
      else if Ascii.eqb c "009"%char then String "\"%char (String "t"%char (write_chars t))
      else if Ascii.eqb c "013"%char then String "\"%char (String "r"%char (write_chars t))
      else if Ascii.eqb c "008"%char then String "\"%char (String "b"%char (write_chars t))
      else if Ascii.eqb c "012"%char then String "\"%char (String "f"%char (write_chars t))
      else String c (write_chars t)
  end.

Definition quote (s : string) : string :=
  String DQ (write_chars s ++ String DQ EmptyString).

Fixpoint json_write (v : json) : string :=
  match v with
  | JNull => "null"
  | JBool true => "true"
  | JBool false => "false"
  | JNum n => show_Z n
  | JStr s => quote s
  | JArr items => "[" ++ String.concat "," (List.map json_write items) ++ "]"
  | JObj props =>
      "{" ++ String.concat ","
               (List.map (fun p => match p with
                                   | (k, x) => quote k ++ ":" ++ json_write x
                                   end) props) ++ "}"
  end.

End JsonWriter.

(* --------------------------------------------------------------------- *)
(** ** Servers of the examples *)

Module Servers.

Import Session.

Definition json_response (session : option string) (text : string)
  : Client.response :=
  Client.mkResponse true 200 (Ok text) session (Some "application/json") [text].

Definition id_text (r : request) : string :=
  match id r with Some n => show_Z n | None => "null" end.

(** A server that answers the handshake with the session [sess-1], the
    notification with an empty body, and every tool call with the
    payload [answer]. *)
Definition answering (answer : string) (k : nat) (s : sent) : Client.fetched :=
  let r := request_of s in
  if String.eqb (method r) "initialize" then
    Client.Resolved
      (json_response (Some "sess-1")
         (JsonReader.dq ("{'jsonrpc':'2.0','id':" ++ id_text r
            ++ ",'result':{'capabilities':{'tools':{}},'serverInfo':{'name':'ghl'}}}")))
  else if String.eqb (method r) "notifications/initialized" then
    Client.Resolved (Client.mkResponse true 202 (Ok "") None None [])
  else
    Client.Resolved
      (json_response None
         (JsonReader.dq ("{'jsonrpc':'2.0','id':" ++ id_text r ++ "," ++ answer ++ "}"))).

(** The tool calls succeed with an empty content. *)
Definition healthy : nat -> sent -> Client.fetched :=
  answering "'result':{'content':[]}".

(** The tool calls are answered with a protocol error. *)
Definition unknown_tool : nat -> sent -> Client.fetched :=
  answering "'error':{'code':-32602,'message':'Unknown tool'}".

(** As [healthy], but the notification is refused. *)
Definition refusing_notification (k : nat) (s : sent) : Client.fetched :=
  if String.eqb (method (request_of s)) "notifications/initialized"
  then Client.Rejected (Error "fetch failed")
  else healthy k s.

(** Every request is answered with the status 401. *)
Definition unauthorized (k : nat) (s : sent) : Client.fetched :=
  Client.Resolved
    (Client.mkResponse false 401 (Ok "Unauthorized") None (Some "text/plain")
       ["Unauthorized"]).

(** The handshake is answered with a protocol error and a session. *)
Definition refusing_handshake (k : nat) (s : sent) : Client.fetched :=
  Client.Resolved
    (json_response (Some "sess-9")
       (JsonReader.dq ("{'jsonrpc':'2.0','id':" ++ id_text (request_of s)
          ++ ",'error':{'code':-32600,'message':'Unsupported protocol version'}}"))).

(** An initialized client that holds the session [sess-1], after two
    requests. *)
Definition connected : client * net :=
  (mkClient (Some "sess-1") true (Some (JObj [])) (Some (JObj [])),
   mkNet 2 [mkSent (initialize_request 1) None;
            mkSent initialized_notification (Some "sess-1")]).

Definition fresh : client * net := (new_client, mkNet 0 []).

End Servers.

(* --------------------------------------------------------------------- *)
(** ** Monitoring checks: ghl_monitor.js, [parseContent] *)

Module Content.

(** [v?.[0]]: the first element of an array, the first character of a
    string, the property [0] of an object. *)
Definition first (v : value) : value :=
  match v with
  | Some (JArr (x :: _)) => Some x
  | Some (JStr (String c _)) => Some (JStr (String c EmptyString))
  | Some (JObj props) => assoc "0" props
  | _ => None
  end.

(** [result.content?.[0]?.text], for a [result] that is not [null] or
    [undefined]. *)
Definition text_of (result : json) : value :=
  Session.chain (first (Session.chain (Some result) "content")) "text".

(** The content of a tool result in the format of the protocol: one
    item of type [text]. *)
Definition envelope (text : string) : json :=
  JObj [("content", JArr [JObj [("type", JStr "text"); ("text", JStr text)]])].

Section ParseContent.

Variable JSON_parse : string -> option json.

(** [String(v)] for a value that is not a string: what [JSON.parse]
    reads when it is handed such a value. *)
Variable ToString : json -> string.

Definition parse_text (text : json) : option json :=
  JSON_parse (match text with JStr s => s | v => ToString v end).

(** [parseContent(result)] *)
Definition parseContent (result : value) : json :=
  match result with
  | None => JObj []
  | Some r =>
      if negb (truthy result) then JObj []
      else if truthy (text_of r) then
        match text_of r with
        | Some text =>
            match parse_text text with
            | Some v => v
            | None => r
            end
        | None => r
        end
      else r
  end.

End ParseContent.

End Content.

(* --------------------------------------------------------------------- *)
(** ** Monitoring checks: ghl_monitor.js, the checks that ask per contact *)

Module Loops.

Import Monitor.

(** A task of a contact; [completed] is the truthiness of the
    property. *)
Record task : Type := mkTask {
  dueDate : option string;
  completed : bool;
  title : option string;
  task_body : option string
}.

(** A message of a conversation. *)
Record message : Type := mkMessage {
  direction : option string;
  sent : option string
}.

(** The opportunities that the searches of [checkPipelineBottlenecks]
    return for the pipelines [ps], the first of them searched in
    iteration [i]. *)
Fixpoint searched (search : nat -> pipeline -> result (option (list opportunity)))
  (i : nat) (ps : list pipeline) : list opportunity :=
  match ps with
  | [] => []
  | p :: rest =>
      (match search i p with Ok (Some l) => l | _ => [] end
       ++ searched search (S i) rest)%list
  end.

(** The tasks that [checkMissedFollowups] is given for the contacts
    [cs], the first of them asked in iteration [i]. *)
Fixpoint asked_tasks (getTasks : nat -> contact -> result (option (list task)))
  (i : nat) (cs : list contact) : list task :=
  match cs with
  | [] => []
  | c :: rest =>
      (match getTasks i c with Ok (Some l) => l | _ => [] end
       ++ asked_tasks getTasks (S i) rest)%list
  end.

Section Checks.

Variable Date_parse : string -> option Z.
Variable trim : string -> string.

(** [new Date(v)] for an optional string property: an Invalid Date when
    the property is absent. *)
Definition date_of (v : option string) : option Z :=
  match v with Some d => Date_parse d | None => None end.

(** *** [checkMissedFollowups] *)

(** [task.dueDate && new Date(task.dueDate) < now && !task.completed] *)
Definition is_overdue (now : Z) (t : task) : bool :=
  match dueDate t with
  | Some d => truthy_string d && date_lt (Date_parse d) (Some now) && negb (completed t)
  | None => false
  end.

(** The object pushed for an overdue task; [clock] is the reading of
    the clock in [timeAgo]. *)
Definition overdue_item_of (clock : Z) (c : contact) (t : task) : overdue_item :=
  mkOverdue (c_id c)
    (full_name trim (firstName c) (lastName c))
    (or_else (title t) (task_body t))
    (match dueDate t with
     | Some d => Utils.timeAgo Date_parse clock d
     | None => "NaNd ago"
     end).

(** The loop over the tasks of one contact.  [clock k] is the reading of
    the clock when [k] items have been pushed. *)
Fixpoint for_tasks (now : Z) (clock : nat -> Z) (c : contact)
  (tasks : list task) (overdue : list overdue_item) : list overdue_item :=
  match tasks with
  | [] => overdue
  | t :: rest =>
      for_tasks now clock c rest
        (if is_overdue now t
         then (overdue ++ [overdue_item_of (clock (List.length overdue)) c t])%list
         else overdue)
  end.

(** The loop over the contacts.  [getTasks i c] is what
    [actions.getContactTasks(contact.id)] settles to in iteration [i],
    decoded by [parseContent]: the [tasks] array, [None] when the
    payload has none.  The [catch] block is empty. *)
Fixpoint for_contacts (now : Z) (clock : nat -> Z)
  (getTasks : nat -> contact -> result (option (list task)))
  (i : nat) (cs : list contact) (overdue : list overdue_item)
  : list overdue_item :=
  match cs with
  | [] => overdue
  | c :: rest =>
      for_contacts now clock getTasks (S i) rest
        (match getTasks i c with
         | Ok payload =>
             for_tasks now clock c
               (match payload with Some l => l | None => [] end) overdue
         | Throw _ => overdue
         end)
  end.

(** [checkMissedFollowups(actions, config)].  [fetched] is what
    [actions.searchContacts('', { limit: 50 })] settles to, decoded by
    [parseContent]; [now] is the clock read after it. *)
Definition checkMissedFollowups (now : Z) (clock : nat -> Z)
  (fetched : result (option (list contact)))
  (getTasks : nat -> contact -> result (option (list task)))
  : result followup_finding :=
  do payload <- fetched;
  let contacts := match payload with Some l => l | None => [] end in
  let overdue := for_contacts now clock getTasks 0 (List.firstn 20 contacts) [] in
  Ok (mkFollowupFinding (List.length overdue) (List.firstn 10 overdue)
        (Nat.ltb 10 (List.length overdue))).

(** *** [checkSlowResponses] *)

(** [m.direction === 'inbound'] *)
Definition is_inbound (m : message) : bool :=
  opt_eqb (direction m) (Some "inbound").

(** [m.direction === 'outbound' && firstInbound &&
     new Date(m.dateAdded) > new Date(firstInbound.dateAdded)] *)
Definition replies_to (firstInbound : option message) (m : message) : bool :=
  opt_eqb (direction m) (Some "outbound") &&
  match firstInbound with
  | Some i => date_lt (date_of (sent i)) (date_of (sent m))
  | None => false
  end.

(** [new Date(firstOutbound.dateAdded) - new Date(firstInbound.dateAdded)]
    for the two messages found, a subtraction of Numbers; [None] when
    one of them is not found. *)
Definition response_ms (msgList : list message) : option float :=
  let firstInbound := List.find is_inbound msgList in
  let firstOutbound := List.find (replies_to firstInbound) msgList in
  match firstInbound, firstOutbound with
  | Some i, Some o =>
      match date_of (sent o), date_of (sent i) with
      | Some a, Some b => Some (Num.of_Z a - Num.of_Z b)%float
      | _, _ => None
      end
  | _, _ => None
  end.

(** One iteration of the loop: the item pushed for a contact, if
    any. *)
Definition slow_item_of (thresholdMin : Z) (c : contact)
  (msgList : list message) : option slow_item :=
  if Nat.ltb (List.length msgList) 2 then None
  else
    match response_ms msgList with
    | Some responseMs =>
        let responseMin := (responseMs / 60000)%float in
        if PrimFloat.ltb (Num.of_Z thresholdMin) responseMin then
          Some (mkSlow (c_id c)
                  (full_name trim (firstName c) (lastName c))
                  (Num.show_rounded responseMin ++ "m")
                  (show_Z thresholdMin ++ "m"))
        else None
    | None => None
    end.

(** The loop over the contacts.  [getHistory i c] is what
    [actions.getConversationHistory(contact.id, { limit: 5 })] settles
    to in iteration [i], decoded by [parseContent]: the [messages]
    array, [None] when the payload has none. *)
Fixpoint for_histories (thresholdMin : Z)
  (getHistory : nat -> contact -> result (option (list message)))
  (i : nat) (cs : list contact) (slow : list slow_item) : list slow_item :=
  match cs with
  | [] => slow
  | c :: rest =>
      for_histories thresholdMin getHistory (S i) rest
        (match getHistory i c with
         | Ok payload =>
             match slow_item_of thresholdMin c
                     (match payload with Some l => l | None => [] end) with
             | Some item => (slow ++ [item])%list
             | None => slow
             end
         | Throw _ => slow
         end)
  end.

(** [checkSlowResponses(actions, config)]; [fetched] is what
    [actions.searchContacts('', { limit: 30 })] settles to. *)
Definition checkSlowResponses (config : locationConfig)
  (fetched : result (option (list contact)))
  (getHistory : nat -> contact -> result (option (list message)))
  : result slow_finding :=
  let thresholdMin := threshold_or (loc_thresholds config) slow_response_minutes 30 in
  do payload <- fetched;
  let contacts := match payload with Some l => l | None => [] end in
  let slow := for_histories thresholdMin getHistory 0 (List.firstn 15 contacts) [] in
  Ok (mkSlowFinding (List.length slow) (show_Z thresholdMin ++ "m")
        (List.firstn 10 slow)).

End Checks.

End Loops.

(* --------------------------------------------------------------------- *)
(** ** Actions: openclaw-skill/ghl_actions.js, [createActions] *)

(** The functions that [createActions] returns share a client, a rate
    limiter made with the default options, and through the client the
    network.  A function is modelled running alone: no other function
    of the same object runs between its steps.  The calls of [log] write
    to the standard error stream and are left out. *)

Module Actions.

Import Session.

(** The state behind the functions: the limiter, the client, the
    requests sent, and the number of calls of [limiter.acquire()] made
    so far. *)
Record world : Type := mkWorld {
  limiter : Limiter.state;
  client_of : client;
  net_of : net;
  acquired : nat
}.

(** An asynchronous function over that state. *)
Definition op (A : Type) : Type := world -> result A * world.

Definition ret {A : Type} (a : A) : op A := fun w => (Ok a, w).

(** A synchronous step that can throw. *)
Definition lift {A : Type} (r : result A) : op A := fun w => (r, w).

(** [const x = await m; k] *)
Definition and_then {A B : Type} (m : op A) (k : A -> op B) : op B :=
  fun w =>
    match m w with
    | (Ok a, w') => k a w'
    | (Throw e, w') => (Throw e, w')
    end.

Notation "'await' x <- m ; k" := (and_then m (fun x => k))
  (at level 10, x name, m at level 100, k at level 200) : js_scope.

(** [withRetry(fn, opts)] for an operation that changes a state: the
    [for] loop from [attempt], with [fuel] iterations left. *)
Section Retry.

Variables (St A : Type).
Variable fn : St -> result A * St.
Variable o : Utils.options.

Fixpoint attempts (fuel attempt : nat) (lastError : option jserror) (s : St)
  : result A * St :=
  match fuel with
  | O => (Throw (match lastError with
                 | Some e => e
                 | None => Utils.thrown_undefined
                 end), s)
  | S fuel' =>
      match fn s with
      | (Ok v, s') => (Ok v, s')
      | (Throw err, s') =>
          if Nat.eqb attempt (Utils.maxRetries o) || negb (Utils.shouldRetry o err)
          then (Throw err, s')
          else attempts fuel' (S attempt) (Some err) s'
      end
  end.

Definition withRetry (s : St) : result A * St :=
  attempts (S (Utils.maxRetries o)) 0 None s.

(** The state in which attempt [k] starts, when every attempt before it
    was made. *)
Fixpoint state_before (k : nat) (s : St) : St :=
  match k with
  | O => s
  | S k' => snd (fn (state_before k' s))
  end.

End Retry.

(** [Array.isArray(v) ? v : [v]] *)
Definition as_array (v : json) : list json :=
  match v with JArr l => l | _ => [v] end.

(** The assignment of a property in an object literal or a spread: a
    later value for a key replaces the earlier one in its place. *)
Fixpoint assign {V : Type} (k : string) (v : V) (props : list (string * V))
  : list (string * V) :=
  match props with
  | [] => [(k, v)]
  | (k', v') :: rest =>
      if String.eqb k k' then (k', v) :: rest else (k', v') :: assign k v rest
  end.

(** [{ ...props, ...options }] *)
Definition spread {V : Type} (props options : list (string * V))
  : list (string * V) :=
  List.fold_left (fun acc kv => assign (fst kv) (snd kv) acc) options props.

(** An object as [JSON.stringify] writes it into the body of a request:
    the properties whose value is [undefined] are left out. *)
Fixpoint written (props : list (string * value)) : list (string * json) :=
  match props with
  | [] => []
  | (k, Some v) :: rest => (k, v) :: written rest
  | (_, None) :: rest => written rest
  end.

Definition defined (props : list (string * json)) : list (string * value) :=
  List.map (fun kv => (fst kv, Some (snd kv))) props.

(** [list[0].id]: reading [id] of [undefined] or [null] throws. *)
Definition first_id (list : value) : result value :=
  match Content.first list with
  | Some x => get "id" x
  | None => Throw (TypeError "Cannot read properties of undefined (reading 'id')")
  end.

Section Operations.

Variable JSON_parse : string -> option json.
Variable JSON_stringify : json -> string.
Variable ToString : json -> string.

(** [x > 0] for a value [x] that is not a number. *)
Variable gt_zero : json -> bool.

Variable server : nat -> sent -> Client.fetched.

(** [clock k] holds the readings of the clock during the call of
    [limiter.acquire()] that [k] calls precede. *)
Variable clock : nat -> Limiter.readings.

(** [call(toolName, args)] *)
Definition call (toolName : string) (args : json) : op json :=
  fun w =>
    let (out, l) :=
      Limiter.acquire Limiter.default_options (clock (acquired w)) (limiter w) in
    match out with
    | Limiter.Rejected e =>
        (Throw e, mkWorld l (client_of w) (net_of w) (S (acquired w)))
    | _ =>
        let (r, st) :=
          withRetry (callTool JSON_parse JSON_stringify server toolName args)
            Utils.default_options (client_of w, net_of w) in
        (r, mkWorld l (fst st) (snd st) (S (acquired w)))
    end.

(** [ensureInitialized()] *)
Definition ensureInitialized : op unit :=
  fun w =>
    if initialized (client_of w) then (Ok tt, w)
    else
      let (r, st) :=
        initialize JSON_parse JSON_stringify server (client_of w, net_of w) in
      (match r with Ok _ => Ok tt | Throw e => Throw e end,
       mkWorld (limiter w) (fst st) (snd st) (acquired w)).

(** The loop of [tagContacts] and [removeContactTags]. *)
Fixpoint for_ids (tool : string) (tagList ids results : list json)
  : op (list json) :=
  match ids with
  | [] => ret results
  | contactId :: rest =>
      await result <-
        call tool (JObj [("contactId", contactId); ("tags", JArr tagList)]);
      for_ids tool tagList rest
        (results ++ [JObj [("contactId", contactId); ("result", result)]])%list
  end.

(** [tagContacts(contactIds, tags)] *)
Definition tagContacts (contactIds tags : json) : op (list json) :=
  await _ <- ensureInitialized;
  for_ids "add-tags" (as_array tags) (as_array contactIds) [].

(** [removeContactTags(contactIds, tags)] *)
Definition removeContactTags (contactIds tags : json) : op (list json) :=
  await _ <- ensureInitialized;
  for_ids "remove-tags" (as_array tags) (as_array contactIds) [].

(** [getContactTasks(contactId)] *)
Definition getContactTasks (contactId : json) : op json :=
  await _ <- ensureInitialized;
  call "get-all-tasks" (JObj [("contactId", contactId)]).

(** [r?.content?.[0]?.text ? JSON.parse(r.content[0].text) : r] *)
Definition decoded (r : json) : result json :=
  if truthy (Content.text_of r) then
    match Content.text_of r with
    | Some text =>
        match Content.parse_text JSON_parse ToString text with
        | Some v => Ok v
        | None => Throw (SyntaxError "Unexpected token in JSON")
        end
    | None => Ok r
    end
  else Ok r.

(** [v?.length > 0] *)
Definition has_elements (v : value) : bool :=
  match v with
  | Some (JArr l) => negb (Nat.eqb (List.length l) 0)
  | Some (JStr s) => truthy_string s
  | Some (JObj props) =>
      match assoc "length" props with
      | Some (JNum n) => 0 <? n
      | Some x => gt_zero x
      | None => false
      end
  | _ => false
  end.

(** [getConversationHistory(contactId, options)] *)
Definition getConversationHistory (contactId : json)
  (options : list (string * json)) : op json :=
  await _ <- ensureInitialized;
  await convResult <- call "search-conversation" (JObj [("contactId", contactId)]);
  await conversations <- lift (decoded convResult);
  let list := chain (Some conversations) "conversations" in
  if has_elements list then
    await conversationId <- lift (first_id list);
    call "get-messages"
      (JObj (written (spread [("conversationId", conversationId)] (defined options))))
  else ret (JObj [("messages", JArr [])]).

(** [close()] *)
Definition close : op unit :=
  fun w => (Ok tt, mkWorld (limiter w) new_client (net_of w) (acquired w)).

End Operations.

(** [createActions(locationConfig)] once the client is made: a new
    client and a limiter whose window and day start at the two readings
    of the clock. *)
Definition createActions (t_window t_day : Z) (w : net) : world :=
  mkWorld (Limiter.createRateLimiter t_window t_day) new_client w 0.

End Actions.

(* --------------------------------------------------------------------- *)
(** ** Worlds of the examples *)

Module Worlds.

Import Session Actions.

(** [String(v)] on the values that [JSON.parse] returns, for integers
    that are written without an exponent. *)
Fixpoint js_String (v : json) : string :=
  match v with
  | JNull => "null"
  | JBool true => "true"
  | JBool false => "false"
  | JNum n => show_Z n
  | JStr s => s
  | JArr items =>
      String.concat ","
        (List.map (fun x => match x with JNull => "" | _ => js_String x end) items)
  | JObj _ => "[object Object]"
  end.

(** No object of the examples has a property [length]: the comparison
    of such a property with zero is not reached. *)
Definition no_length (x : json) : bool := false.

(** Every call of [acquire()] reads the clock one second after the
    limiter was made. *)
Definition one_second_in (k : nat) : Limiter.readings :=
  Limiter.mkReadings 1000 1000 1000 1000.

(** Actions on a connected client, the limiter made at time 0. *)
Definition connected : world :=
  mkWorld (Limiter.createRateLimiter 0 0) (fst Servers.connected)
    (snd Servers.connected) 0.

(** The same, the cap of the day reached. *)
Definition exhausted : world :=
  mkWorld (Limiter.mkState 0 0 0 200000) (fst Servers.connected)
    (snd Servers.connected) 0.

(** Every request is answered with the status 503. *)
Definition unavailable (k : nat) (s : sent) : Client.fetched :=
  Client.Resolved
    (Client.mkResponse false 503 (Ok "Service Unavailable") None
       (Some "text/plain") ["Service Unavailable"]).

(** The tool calls are answered with a text content that holds no
    conversation. *)
Definition no_conversation : nat -> sent -> Client.fetched :=
  Servers.answering
    "'result':{'content':[{'type':'text','text':'{\'conversations\':[]}'}]}".

End Worlds.
(* ===================================================================== *)
(** * Part II: properties                                                 *)
(* ===================================================================== *)

Unset Implicit Arguments.

Example iso_read_mock_contact :
  IsoDate.iso_read "2025-01-15T10:00:00Z" = Some 1736935200000.
Proof. vm_compute. reflexivity. Qed.

Example iso_read_epoch :
  IsoDate.iso_read "1970-01-01T00:00:00.000Z" = Some 0.
Proof. vm_compute. reflexivity. Qed.

Example iso_read_rejects_day :
  IsoDate.iso_read "2025-02-30T10:00:00Z" = None.
Proof. vm_compute. reflexivity. Qed.

Example json_read_frame :
  JsonReader.json_read (JsonReader.dq "{'jsonrpc':'2.0','id':1,'result':{}}")
  = Some (JObj [("jsonrpc", JStr "2.0"); ("id", JNum 1); ("result", JObj [])]).
Proof. vm_compute. reflexivity. Qed.

(* --------------------------------------------------------------------- *)
(** ** The rate limiter *)

Module LimiterSpec.

Import Limiter.

Lemma resetDay_not_elapsed (now : Z) (s : state) :
  now - dayStart s < 86400000 -> resetDayIfNeeded now s = s.
Proof.
  intros H. unfold resetDayIfNeeded.
  destruct (Z.leb_spec 86400000 (now - dayStart s)); [lia | reflexivity].
Qed.

Lemma resetWindow_not_elapsed (o : options) (now : Z) (s : state) :
  now - windowStart s < windowMs o -> resetWindowIfNeeded o now s = s.
Proof.
  intros H. unfold resetWindowIfNeeded.
  destruct (Z.leb_spec (windowMs o) (now - windowStart s)); [lia | reflexivity].
Qed.

Lemma resetWindow_elapsed (o : options) (now : Z) (s : state) :
  windowMs o <= now - windowStart s ->
  resetWindowIfNeeded o now s = mkState now 0 (dayStart s) (dayCount s).
Proof.
  intros H. unfold resetWindowIfNeeded.
  destruct (Z.leb_spec (windowMs o) (now - windowStart s)); [reflexivity | lia].
Qed.

(** A reset of the day leaves the window alone, and the day count it
    leaves is the old one or zero. *)
Lemma resetDay_window (now : Z) (s : state) :
  windowStart (resetDayIfNeeded now s) = windowStart s /\
  windowCount (resetDayIfNeeded now s) = windowCount s /\
  (dayCount (resetDayIfNeeded now s) = dayCount s \/
   dayCount (resetDayIfNeeded now s) = 0).
Proof.
  unfold resetDayIfNeeded.
  destruct (86400000 <=? now - dayStart s); simpl; auto.
Qed.

(** C2.  When the daily counter is at or above the daily cap and the day
    has not elapsed, [acquire()] throws the daily-limit error (the
    QuotaExceededError of the specification) in its synchronous part: it
    does not reach the timer, and the limiter's state, hence both
    counters, is what it was. *)
Theorem acquire_fails_at_daily_cap (o : options) (r : readings) (s : state) :
  maxPerDay o <= dayCount s ->
  at_day r - dayStart s < 86400000 ->
  acquire_begin o (at_day r) (at_window r) (at_wait r) s
    = Failed (daily_limit_error o) s /\
  acquire o r s = (Rejected (daily_limit_error o), s) /\
  suspends (fst (acquire o r s)) = false /\
  windowCount (snd (acquire o r s)) = windowCount s /\
  dayCount (snd (acquire o r s)) = dayCount s.
Proof.
  intros Hcap Hday.
  assert (E : acquire_begin o (at_day r) (at_window r) (at_wait r) s
              = Failed (daily_limit_error o) s).
  { unfold acquire_begin. rewrite (resetDay_not_elapsed _ _ Hday).
    destruct (Z.leb_spec (maxPerDay o) (dayCount s)); [reflexivity | lia]. }
  unfold acquire. rewrite E. simpl. repeat split; reflexivity.
Qed.

Lemma acquire_fails_at_daily_cap_witness :
  acquire default_options (mkReadings 1000 1000 1000 1000)
    (mkState 0 3 0 200000)
  = (Rejected (daily_limit_error default_options), mkState 0 3 0 200000).
Proof.
  apply (acquire_fails_at_daily_cap default_options
           (mkReadings 1000 1000 1000 1000) (mkState 0 3 0 200000)).
  - simpl. lia.
  - simpl. lia.
Defined.

(** *** Sequences of calls *)

(** One call on a window below its cap does not reach the timer, and
    counts at most one request in the window. *)
Lemma acquire_below_cap (o : options) (r : readings) (s : state) :
  0 <= windowCount s -> windowCount s < maxPerWindow o ->
  suspends (fst (acquire o r s)) = false /\
  0 <= windowCount (snd (acquire o r s)) <= windowCount s + 1.
Proof.
  intros H0 Hlt. unfold acquire, acquire_begin.
  destruct (resetDay_window (at_day r) s) as (Hws & Hwc & _).
  set (sd := resetDayIfNeeded (at_day r) s) in *.
  destruct (maxPerDay o <=? dayCount sd); simpl.
  - split; [reflexivity | lia].
  - unfold resetWindowIfNeeded.
    destruct (windowMs o <=? at_window r - windowStart sd); simpl.
    + destruct (Z.leb_spec (maxPerWindow o) 0); simpl; [lia |].
      split; [reflexivity | lia].
    + destruct (Z.leb_spec (maxPerWindow o) (windowCount sd)); simpl; [lia |].
      split; [reflexivity | lia].
Qed.

Lemma acquire_all_cons (o : options) (r : readings) (rest : list readings)
  (s : state) :
  acquire_all o (r :: rest) s
  = (fst (acquire o r s) :: fst (acquire_all o rest (snd (acquire o r s))),
     snd (acquire_all o rest (snd (acquire o r s)))).
Proof.
  simpl. destruct (acquire o r s) as [out s']. simpl.
  destruct (acquire_all o rest s'). reflexivity.
Qed.

Lemma acquire_all_below_cap (o : options) (calls : list readings) :
  forall s : state,
  0 <= windowCount s ->
  windowCount s + Z.of_nat (List.length calls) <= maxPerWindow o ->
  Forall (fun out => suspends out = false) (fst (acquire_all o calls s)).
Proof.
  induction calls as [| r rest IH]; intros s H0 Hlen.
  - constructor.
  - rewrite acquire_all_cons. simpl fst.
    cbn [List.length] in Hlen. rewrite Nat2Z.inj_succ in Hlen.
    destruct (acquire_below_cap o r s H0) as [Hn Hc]; [lia |].
    constructor; [exact Hn |].
    apply IH; lia.
Qed.

(** Inside one window, with daily quota left, a call below the window
    cap is granted at once and counts one request in each counter. *)
Lemma acquire_granted (o : options) (r : readings) (s : state) :
  at_window r - windowStart s < windowMs o ->
  windowCount s < maxPerWindow o ->
  0 <= dayCount s < maxPerDay o ->
  fst (acquire o r s) = Immediate /\
  windowStart (snd (acquire o r s)) = windowStart s /\
  windowCount (snd (acquire o r s)) = windowCount s + 1 /\
  0 <= dayCount (snd (acquire o r s)) <= dayCount s + 1.
Proof.
  intros Hin Hlt Hday. unfold acquire, acquire_begin.
  destruct (resetDay_window (at_day r) s) as (Hws & Hwc & Hdc).
  set (sd := resetDayIfNeeded (at_day r) s) in *.
  destruct (Z.leb_spec (maxPerDay o) (dayCount sd)); [lia |].
  rewrite resetWindow_not_elapsed by lia.
  destruct (Z.leb_spec (maxPerWindow o) (windowCount sd)); [lia |].
  simpl. repeat split; lia.
Qed.

Lemma acquire_all_granted (o : options) (t0 : Z) (calls : list readings) :
  forall s : state,
  windowStart s = t0 ->
  Forall (fun r => at_window r - t0 < windowMs o) calls ->
  windowCount s + Z.of_nat (List.length calls) <= maxPerWindow o ->
  0 <= dayCount s ->
  dayCount s + Z.of_nat (List.length calls) <= maxPerDay o ->
  Forall (fun out => out = Immediate) (fst (acquire_all o calls s)) /\
  windowStart (snd (acquire_all o calls s)) = t0 /\
  windowCount (snd (acquire_all o calls s))
    = windowCount s + Z.of_nat (List.length calls) /\
  0 <= dayCount (snd (acquire_all o calls s))
    <= dayCount s + Z.of_nat (List.length calls).
Proof.
  induction calls as [| r rest IH]; intros s Hstart Hin Hwin Hd0 Hday.
  - simpl. repeat split; try constructor; lia.
  - rewrite acquire_all_cons. simpl fst. simpl snd.
    cbn [List.length] in *. rewrite Nat2Z.inj_succ in *.
    inversion Hin as [| r' rest' Hr Hrest]; subst r' rest'.
    destruct (acquire_granted o r s) as (Ho & Hs & Hc & Hd); try lia.
    destruct (IH (snd (acquire o r s))) as (Ho' & Hs' & Hc' & Hd');
      try lia; try assumption.
    repeat split; try lia.
    constructor; assumption.
Qed.

(** C3.  From the start of a window ([windowCount] is zero), a sequence
    of at most [maxPerWindow] awaited calls never reaches the timer.
    When exactly [maxPerWindow] calls were made inside the window and
    the daily quota is not the limit, the next call inside the window
    is suspended for the rest of the window plus 50 ms; once the timer
    has run its time, the call checks the window again, which starts a
    new window at the time of waking, and counts itself in both
    counters. *)
Theorem acquire_window_sequence (o : options) (s0 : state)
  (calls : list readings) :
  windowCount s0 = 0 ->
  (Z.of_nat (List.length calls) <= maxPerWindow o ->
   Forall (fun out => suspends out = false) (fst (acquire_all o calls s0)))
  /\
  (forall r : readings,
   Z.of_nat (List.length calls) = maxPerWindow o ->
   Forall (fun c => at_window c - windowStart s0 < windowMs o) (calls ++ [r]) ->
   0 <= dayCount s0 ->
   dayCount s0 + maxPerWindow o < maxPerDay o ->
   at_wait r + (windowMs o - (at_wait r - windowStart s0) + 50) <= at_wake r ->
   let s := snd (acquire_all o calls s0) in
   let sd := resetDayIfNeeded (at_day r) s in
   Forall (fun out => out = Immediate) (fst (acquire_all o calls s0)) /\
   acquire_begin o (at_day r) (at_window r) (at_wait r) s
     = Suspended (windowMs o - (at_wait r - windowStart s0) + 50) sd /\
   acquire o r s
     = (Waited (windowMs o - (at_wait r - windowStart s0) + 50),
        mkState (at_wake r) 1 (dayStart sd) (dayCount sd + 1))).
Proof.
  intros Hfresh. split.
  - intros Hlen. apply acquire_all_below_cap; lia.
  - intros r Hlen Hin Hd0 Hquota Hwake s sd.
    apply Forall_app in Hin. destruct Hin as [Hcalls Hr].
    inversion Hr as [| r' l' Hr' _]; subst r' l'.
    destruct (acquire_all_granted o (windowStart s0) calls s0)
      as (Hout & Hs & Hc & Hd); try lia; try assumption; try reflexivity.
    fold s in Hs, Hc, Hd.
    destruct (resetDay_window (at_day r) s) as (Hws & Hwc & Hdc).
    fold sd in Hws, Hwc, Hdc.
    assert (E : acquire_begin o (at_day r) (at_window r) (at_wait r) s
                = Suspended (windowMs o - (at_wait r - windowStart s0) + 50) sd).
    { unfold acquire_begin. fold sd.
      destruct (Z.leb_spec (maxPerDay o) (dayCount sd)); [lia |].
      rewrite resetWindow_not_elapsed by lia.
      destruct (Z.leb_spec (maxPerWindow o) (windowCount sd)); [| lia].
      rewrite Hws, Hs. reflexivity. }
    split; [exact Hout |]. split; [exact E |].
    unfold acquire. rewrite E. unfold acquire_resume.
    rewrite resetWindow_elapsed by lia. reflexivity.
Qed.

Lemma acquire_window_sequence_witness :
  let o := mkOptions 2 10000 200000 in
  let calls := [mkReadings 100 100 100 0; mkReadings 200 200 200 0] in
  let r := mkReadings 300 300 301 10051 in
  fst (acquire_all o calls (createRateLimiter 0 0)) = [Immediate; Immediate] /\
  acquire o r (snd (acquire_all o calls (createRateLimiter 0 0)))
    = (Waited 9749, mkState 10051 1 0 3).
Proof.
  intros o calls r.
  destruct (acquire_window_sequence o (createRateLimiter 0 0) calls eq_refl)
    as [_ H].
  destruct (H r) as (Hout & _ & Hacq).
  - reflexivity.
  - repeat constructor.
  - simpl. lia.
  - simpl. lia.
  - simpl. lia.
  - split; [reflexivity | exact Hacq].
Defined.

(** *** Introspection *)

(** C8 as stated fails: [stats()] starts with the two resets, so on a
    limiter whose window has elapsed it zeroes the window counter and
    moves the window start. *)
Lemma stats_mutates_elapsed_window :
  snd (stats default_options 10000 10000 (mkState 0 5 0 7)) = mkState 10000 0 0 7
  /\ snd (stats default_options 10000 10000 (mkState 0 5 0 7)) <> mkState 0 5 0 7.
Proof.
  split; [reflexivity | discriminate].
Qed.

(** C8, amended.  [stats()] returns the remaining capacity of the short
    window, the remaining capacity of the day and the day's count, all
    read after the two resets.  It leaves the state as it was when
    neither the window nor the day has elapsed; otherwise the only
    change is the reset of what has elapsed (counter to zero, start to
    the reading of the clock).  It never counts a request. *)
Theorem stats_resets_only (o : options) (t_window t_day : Z) (s : state) :
  let v := fst (stats o t_window t_day s) in
  let s' := snd (stats o t_window t_day s) in
  windowRemaining v = maxPerWindow o - windowCount s' /\
  dayRemaining v = maxPerDay o - dayCount s' /\
  stat_dayCount v = dayCount s' /\
  (windowStart s', windowCount s')
    = (if windowMs o <=? t_window - windowStart s then (t_window, 0)
       else (windowStart s, windowCount s)) /\
  (dayStart s', dayCount s')
    = (if 86400000 <=? t_day - dayStart s then (t_day, 0)
       else (dayStart s, dayCount s)) /\
  (t_window - windowStart s < windowMs o ->
   t_day - dayStart s < 86400000 ->
   s' = s /\
   v = mkStats (maxPerWindow o - windowCount s) (maxPerDay o - dayCount s)
         (dayCount s)).
Proof.
  unfold stats. cbn zeta. simpl fst. simpl snd.
  split; [reflexivity |]. split; [reflexivity |]. split; [reflexivity |].
  split; [| split].
  - unfold resetDayIfNeeded, resetWindowIfNeeded.
    destruct (windowMs o <=? t_window - windowStart s); simpl;
      destruct (86400000 <=? _); reflexivity.
  - unfold resetDayIfNeeded, resetWindowIfNeeded.
    destruct (windowMs o <=? t_window - windowStart s); simpl;
      destruct (86400000 <=? _); reflexivity.
  - intros Hw Hd.
    rewrite (resetWindow_not_elapsed o _ _ Hw).
    rewrite (resetDay_not_elapsed _ _ Hd). split; reflexivity.
Qed.

Lemma stats_resets_only_witness :
  snd (stats default_options 9999 9999 (mkState 0 5 0 7)) = mkState 0 5 0 7 /\
  fst (stats default_options 9999 9999 (mkState 0 5 0 7)) = mkStats 95 199993 7.
Proof.
  apply (stats_resets_only default_options 9999 9999 (mkState 0 5 0 7)).
  - simpl. lia.
  - simpl. lia.
Defined.

End LimiterSpec.

(* --------------------------------------------------------------------- *)
(** ** The retry policy *)

Module RetrySpec.

Import Utils.

Section Loop.

Variable A : Type.
Variable fn : nat -> result A.
Variable random : nat -> float.
Variable o : options.



End Loop.

(** *** The status in the message of a transport error *)

Import Stdlib.Init.Decimal.

(** The code of a digit character, computed. *)
Ltac digit_code :=
  match goal with
  | |- context [Z.of_N (N_of_ascii ?c)] =>
      let v := eval vm_compute in (Z.of_N (N_of_ascii c)) in
      change (Z.of_N (N_of_ascii c)) with v
  end.

Lemma digits_value_acc (d : uint) :
  forall acc : positive,
  digits_value (Zpos acc) (NilEmpty.string_of_uint d)
  = Zpos (Pos.of_uint_acc d acc).
Proof.
  induction d; intros acc;
    cbn [NilEmpty.string_of_uint digits_value Pos.of_uint_acc];
    [reflexivity | rewrite <- IHd; f_equal; digit_code; lia ..].
Qed.

Lemma digits_value_uint (d : uint) :
  digits_value 0 (NilEmpty.string_of_uint d) = Z.of_N (Pos.of_uint d).
Proof.
  induction d; cbn [NilEmpty.string_of_uint digits_value Pos.of_uint Z.of_N];
    [reflexivity | exact IHd | rewrite <- digits_value_acc; f_equal ..].
Qed.

(** The decimal rendering of a non-negative integer is a non-empty run
    of digits. *)
Lemma show_Z_uint (s : Z) :
  0 <= s ->
  exists d, d <> Nil /\ show_Z s = NilEmpty.string_of_uint d /\
            Z.of_N (Pos.of_uint d) = s.
Proof.
  intros Hs. destruct s as [| p | p]; [| | lia].
  - exists (D0 Nil). repeat split. discriminate.
  - exists (Pos.to_uint p). split; [apply Unsigned.to_uint_nonnil |].
    split.
    + unfold show_Z. simpl. unfold NilZero.string_of_uint.
      pose proof (Unsigned.to_uint_nonnil p) as Hn.
      destruct (Pos.to_uint p); [contradiction | reflexivity ..].
    + rewrite Unsigned.of_to. reflexivity.
Qed.

Lemma take_digits_uint (d : uint) (rest : string) :
  take_digits rest = EmptyString ->
  take_digits (NilEmpty.string_of_uint d ++ rest) = NilEmpty.string_of_uint d.
Proof.
  intros Hrest. induction d; simpl; [exact Hrest | rewrite IHd; reflexivity ..].
Qed.

Lemma truthy_uint (d : uint) :
  d <> Nil -> truthy_string (NilEmpty.string_of_uint d) = true.
Proof. destruct d; [contradiction | reflexivity ..]. Qed.

Lemma includes_after_uint (d : uint) (rest : string) :
  includes "fetch failed" (NilEmpty.string_of_uint d ++ rest)
  = includes "fetch failed" rest.
Proof. induction d; simpl; [reflexivity | exact IHd ..]. Qed.

Lemma prefix_empty (s : string) : String.prefix EmptyString s = true.
Proof. destruct s; reflexivity. Qed.

(** [sendJsonRpc] reports a response that is not OK by an error whose
    message starts with [MCP HTTP] and the status; the default predicate
    reads the status back from it. *)
Lemma http_status_of_transport_error (s : Z) (t : string) :
  0 <= s ->
  http_status (Error ("MCP HTTP " ++ show_Z s ++ ": " ++ t)) = Some s.
Proof.
  intros Hs. destruct (show_Z_uint s Hs) as (d & Hnil & Hshow & Hval).
  unfold http_status, Error. cbn [emessage]. rewrite Hshow.
  cbn -[take_digits digits_value truthy_string NilEmpty.string_of_uint].
  rewrite (take_digits_uint d (String ":" (String " " t))) by reflexivity.
  rewrite (truthy_uint d Hnil), prefix_empty. cbn [andb].
  rewrite digits_value_uint, Hval. reflexivity.
Qed.

Lemma shouldRetry_transport_error (s : Z) (t : string) :
  0 <= s ->
  shouldRetry_default (Error ("MCP HTTP " ++ show_Z s ++ ": " ++ t))
  = includes "fetch failed" t
    || ((s =? 429) || ((500 <=? s) && (s <? 600))).
Proof.
  intros Hs. unfold shouldRetry_default.
  rewrite (http_status_of_transport_error s t Hs).
  destruct (show_Z_uint s Hs) as (d & _ & Hshow & _).
  unfold Error. cbn [emessage]. rewrite Hshow.
  replace (includes "fetch failed"
             ("MCP HTTP " ++ NilEmpty.string_of_uint d ++ ": " ++ t))
    with (includes "fetch failed" t).
  - destruct (includes "fetch failed" t); reflexivity.
  - cbn -[NilEmpty.string_of_uint]. rewrite includes_after_uint.
    reflexivity.
Qed.





End RetrySpec.

(* --------------------------------------------------------------------- *)
(** ** The transport codec *)

Module CodecSpec.

Import Codec.

Lemma split_lf_nonempty (s : string) : split_lf s <> [].
Proof.
  destruct s as [| c t]; simpl; [discriminate |].
  destruct (Ascii.eqb c LF); [discriminate |].
  destruct (split_lf t); discriminate.
Qed.

(** Splitting stops a line at the first line feed. *)
Lemma split_lf_line (p rest : string) :
  one_line p = true ->
  split_lf (p ++ String LF rest) = p :: split_lf rest.
Proof.
  induction p as [| c t IH]; simpl; intros H.
  - reflexivity.
  - apply andb_prop in H. destruct H as [Hc Ht].
    destruct (Ascii.eqb c LF); [discriminate |].
    rewrite (IH Ht). reflexivity.
Qed.

Lemma pop_snoc {A : Type} (l : list A) (x : A) : pop (l ++ [x]) = (l, Some x).
Proof.
  induction l as [| y l IH]; simpl; [reflexivity |].
  rewrite IH. destruct (l ++ [x])%list eqn:E; [| reflexivity].
  destruct l; discriminate.
Qed.

Lemma append_assoc (a b c : string) : ((a ++ b) ++ c = a ++ (b ++ c))%string.
Proof.
  induction a as [| x a IH]; simpl; [reflexivity | rewrite IH; reflexivity].
Qed.

Lemma startsWith_data (p : string) : startsWith "data: " ("data: " ++ p) = true.
Proof. destruct p; reflexivity. Qed.

Section Frames.

Variable JSON_parse : string -> option json.

Lemma split_lf_stream (payloads : list string) :
  Forall (fun p => one_line p = true) payloads ->
  split_lf (stream_of payloads) = (lines_of payloads ++ [EmptyString])%list.
Proof.
  induction 1 as [| p rest Hp _ IH]; [reflexivity |].
  cbn [stream_of lines_of]. unfold frame, nl.
  rewrite !append_assoc.
  change (split_lf (("data: " ++ p) ++ String LF (String LF (stream_of rest)))
          = ((("data: " ++ p)%string :: "" :: lines_of rest) ++ [""])%list).
  rewrite (split_lf_line ("data: " ++ p) (String LF (stream_of rest))).
  - change (split_lf (String LF (stream_of rest)))
      with (EmptyString :: split_lf (stream_of rest)).
    rewrite IH. reflexivity.
  - simpl. exact Hp.
Qed.

Lemma for_lines_frames (payloads : list string) :
  Forall (fun p => truthy_string p = true) payloads ->
  forall messages,
  for_lines JSON_parse (lines_of payloads) "" messages
  = (messages ++ parsed JSON_parse payloads)%list.
Proof.
  induction 1 as [| p rest Hp _ IH]; intros messages.
  - simpl. rewrite app_nil_r. reflexivity.
  - cbn [lines_of for_lines].
    rewrite startsWith_data. change (slice 6 ("data: " ++ p)) with p.
    change (startsWith "data: " "") with false.
    change (String.eqb "" "") with true.
    change ("" ++ p)%string with p. rewrite Hp.
    cbn [andb]. rewrite IH. unfold push_parsed. cbn [parsed].
    destruct (JSON_parse p); [| reflexivity].
    rewrite <- app_assoc. reflexivity.
Qed.

(** A body delivered as one chunk of frames, every payload a non-empty
    line, decodes to the parsed payloads in order. *)
Lemma parseSSE_one_chunk (payloads : list string) :
  Forall (fun p => one_line p = true) payloads ->
  Forall (fun p => truthy_string p = true) payloads ->
  parseSSEResponse JSON_parse [stream_of payloads] = parsed JSON_parse payloads.
Proof.
  intros Hl Ht. unfold parseSSEResponse. simpl.
  rewrite (split_lf_stream payloads Hl). rewrite pop_snoc. simpl.
  rewrite (for_lines_frames payloads Ht). reflexivity.
Qed.

Lemma split_lf_data_line (payload : string) :
  one_line payload = true ->
  split_lf ("data: " ++ payload ++ nl) = [("data: " ++ payload)%string; EmptyString].
Proof.
  intros Hl.
  change (split_lf (("data: " ++ payload) ++ String LF "")
          = [("data: " ++ payload)%string; EmptyString]).
  rewrite split_lf_line by exact Hl. reflexivity.
Qed.

(** What the loop does with a chunk that holds one [data: ] line and its
    line feed: the line is read into [currentData], which the end of
    the chunk discards. *)
Lemma read_loop_data_line (payload : string) (more : list string)
  (messages : list json) :
  one_line payload = true ->
  read_loop JSON_parse (("data: " ++ payload ++ nl)%string :: more) "" messages
  = read_loop JSON_parse more "" messages.
Proof.
  intros Hl. cbn [read_loop].
  change ("" ++ ("data: " ++ payload ++ nl))%string
    with ("data: " ++ payload ++ nl)%string.
  rewrite (split_lf_data_line payload Hl).
  cbn [pop or_empty for_lines]. rewrite startsWith_data. reflexivity.
Qed.

(** The same frame with its blank line in the next chunk is lost: the
    chunk that holds the [data: ] line ends with [currentData]
    discarded. *)
Lemma parseSSE_terminator_in_next_chunk (payload : string) :
  one_line payload = true ->
  parseSSEResponse JSON_parse [("data: " ++ payload ++ nl)%string; nl] = [].
Proof.
  intros Hl. unfold parseSSEResponse.
  rewrite (read_loop_data_line payload [nl] [] Hl). reflexivity.
Qed.

(** A last [data: ] line that ends in a line feed, without the blank
    line, is not flushed at the end of the stream. *)
Lemma parseSSE_unterminated_line_dropped (payload : string) :
  one_line payload = true ->
  parseSSEResponse JSON_parse [("data: " ++ payload ++ nl)%string] = [].
Proof.
  intros Hl. unfold parseSSEResponse.
  rewrite (read_loop_data_line payload [] [] Hl). reflexivity.
Qed.

Lemma split_lf_one_line (s : string) : one_line s = true -> split_lf s = [s].
Proof.
  induction s as [| c t IH]; simpl; intros H; [reflexivity |].
  apply andb_prop in H. destruct H as [Hc Ht].
  destruct (Ascii.eqb c LF); [discriminate |].
  rewrite (IH Ht). reflexivity.
Qed.

(** A last [data: ] line that does not end in a line feed is flushed at
    the end of the stream. *)
Lemma parseSSE_flushes_open_line (payload : string) :
  one_line payload = true ->
  parseSSEResponse JSON_parse [("data: " ++ payload)%string]
  = parsed JSON_parse [payload].
Proof.
  intros Hl. unfold parseSSEResponse. cbn [read_loop].
  change ("" ++ ("data: " ++ payload))%string with ("data: " ++ payload)%string.
  rewrite (split_lf_one_line ("data: " ++ payload)) by exact Hl.
  cbn [pop or_empty for_lines]. rewrite startsWith_data.
  change (slice 6 ("data: " ++ payload)) with payload.
  unfold push_parsed. cbn [parsed]. destruct (JSON_parse payload); reflexivity.
Qed.

End Frames.

(** C5 fails on the code.  The frame of the specification's example
    decodes to its one message when it arrives in one chunk, and to
    nothing when the chunk boundary falls between the [data: ] line and
    the blank line that ends the frame. *)
Theorem parseSSE_depends_on_chunking :
  parseSSEResponse JsonReader.json_read [("data: " ++ response_1 ++ nl ++ nl)%string]
    = [message_1] /\
  parseSSEResponse JsonReader.json_read
    [("data: " ++ response_1 ++ nl)%string; nl] = [].
Proof.
  split; vm_compute; reflexivity.
Qed.

End CodecSpec.

(* --------------------------------------------------------------------- *)
(** ** The protocol client *)

Module ClientSpec.

Import Client Samples.

Lemma pop_last {A : Type} (l : list A) (x : A) : snd (pop (l ++ [x])) = Some x.
Proof. rewrite CodecSpec.pop_snoc. reflexivity. Qed.

(** On objects the callback of [filter] does not throw, and keeps the
    messages that carry the id. *)
Lemma filter_by_id_objects (n : Z) (messages : list json) :
  Forall (fun m => is_object m = true) messages ->
  filter_by_id (Some (JNum n)) messages = Ok (List.filter (has_id n) messages).
Proof.
  induction 1 as [| m rest Hm _ IH]; simpl; [reflexivity |].
  destruct m as [| | | | | props]; try discriminate.
  simpl. rewrite IH. simpl.
  destruct (assoc "id" props) as [[| | k | | |] |]; reflexivity.
Qed.

Lemma truthy_object (m : json) : is_object m = true -> truthy (Some m) = true.
Proof. destruct m; simpl; auto; discriminate. Qed.

Lemma filter_none {A : Type} (f : A -> bool) (l : list A) :
  Forall (fun x => f x = false) l -> List.filter f l = [].
Proof.
  induction 1 as [| x l Hx _ IH]; simpl; [reflexivity |].
  rewrite Hx. exact IH.
Qed.

(** What [select_response] returns on objects, in the three cases. *)
Lemma select_response_objects (n : Z) (messages : list json) :
  Forall (fun m => is_object m = true) messages ->
  exists res,
    select_response (Some (JNum n)) messages = Ok res /\
    (forall pre m post,
       messages = (pre ++ m :: post)%list -> has_id n m = true ->
       Forall (fun x => has_id n x = false) post -> res = m) /\
    (Forall (fun x => has_id n x = false) messages ->
     forall pre m, messages = (pre ++ [m])%list -> res = m) /\
    (messages = [] -> res = JObj []).
Proof.
  intros Hobj. unfold select_response.
  rewrite (filter_by_id_objects n messages Hobj). simpl.
  destruct (List.filter (has_id n) messages) as [| a l] eqn:Hf.
  - (* no message carries the id *)
    simpl.
    destruct (snd (pop messages)) as [m |] eqn:Hpop.
    + assert (Hm : is_object m = true /\ exists pre, messages = (pre ++ [m])%list).
      { destruct messages as [| x xs] using rev_ind; [discriminate |].
        rewrite pop_last in Hpop. injection Hpop as ->.
        apply Forall_app in Hobj. destruct Hobj as [_ Hx].
        inversion Hx; subst. split; [assumption | eauto]. }
      destruct Hm as [Hm (pre0 & Hpre0)].
      rewrite (truthy_object m Hm). eexists. split; [reflexivity |].
      split; [| split].
      * intros pre m' post Heq Hid _. exfalso.
        assert (Hin : In m' (List.filter (has_id n) messages)).
        { apply filter_In. split; [| exact Hid].
          rewrite Heq. apply in_or_app. right. left. reflexivity. }
        rewrite Hf in Hin. exact Hin.
      * intros _ pre m' Heq. rewrite Hpre0 in Heq.
        apply app_inj_tail in Heq. destruct Heq as [_ ->]. reflexivity.
      * intros ->. destruct pre0; discriminate.
    + simpl. eexists. split; [reflexivity |].
      split; [| split].
      * intros pre m' post Heq. subst messages.
        rewrite filter_app in Hf. simpl in Hf. intros Hid. rewrite Hid in Hf.
        destruct (List.filter (has_id n) pre); discriminate.
      * intros _ pre m' Heq. subst messages. rewrite pop_last in Hpop.
        discriminate.
      * reflexivity.
  - (* some message carries the id: the last of them is returned *)
    assert (Hlast : exists kept m, (a :: l = kept ++ [m])%list).
    { destruct (@exists_last _ (a :: l)) as (kept & m & E); [discriminate |].
      eauto. }
    destruct Hlast as (kept & m & Hkm). rewrite Hkm. rewrite pop_last.
    assert (Hin : In m (List.filter (has_id n) messages)).
    { rewrite Hf, Hkm. apply in_or_app. right. left. reflexivity. }
    apply filter_In in Hin. destruct Hin as [Hin Hid].
    assert (Hm : is_object m = true).
    { rewrite Forall_forall in Hobj. apply Hobj. exact Hin. }
    rewrite (truthy_object m Hm). eexists. split; [reflexivity |].
    split; [| split].
    + intros pre m' post Heq Hid' Hpost. subst messages.
      rewrite filter_app in Hf. simpl in Hf. rewrite Hid' in Hf.
      rewrite (filter_none (has_id n) post Hpost) in Hf.
      rewrite Hkm in Hf. apply app_inj_tail in Hf. destruct Hf as [_ Hf].
      symmetry. exact Hf.
    + intros Hnone. rewrite (filter_none (has_id n) messages Hnone) in Hf.
      discriminate.
    + intros ->. discriminate.
Qed.

(** C1.  For a [tools/call] request, whose id is a number, answered by a
    body of content type [text/event-stream] whose decoded messages are
    JSON-RPC envelopes (objects): the result is the last decoded message
    whose id is the request's; when no message carries that id, the
    last message of the stream, whatever id it carries; when the stream
    has no message, the empty object. *)
Theorem sendJsonRpc_selects_response (JSON_parse : string -> option json)
  (n : Z) (session : option string) (r : response) (messages : list json) :
  ok r = true ->
  includes "text/event-stream" (or_empty (content_type r)) = true ->
  Codec.parseSSEResponse JSON_parse (body r) = messages ->
  Forall (fun m => is_object m = true) messages ->
  exists res,
    sendJsonRpc JSON_parse (Some (JNum n)) session (Resolved r)
      = Ok (mkReply res (or_else (mcp_session_id r) session)) /\
    (forall pre m post,
       messages = (pre ++ m :: post)%list -> has_id n m = true ->
       Forall (fun x => has_id n x = false) post -> res = m) /\
    (Forall (fun x => has_id n x = false) messages ->
     forall pre m, messages = (pre ++ [m])%list -> res = m) /\
    (messages = [] -> res = JObj []).
Proof.
  intros Hok Hct Hmsgs Hobj.
  destruct (select_response_objects n messages Hobj) as (res & Hsel & Hspec).
  exists res. split; [| exact Hspec].
  unfold sendJsonRpc. rewrite Hok, Hct, Hmsgs. simpl. rewrite Hsel.
  reflexivity.
Qed.

(** Outside the envelopes: a [null] among the messages makes the
    callback of [filter] throw, and a last message that is a falsy value
    gives way to the empty object. *)
Lemma select_response_null (request_id : value) (rest : list json) :
  exists e, select_response request_id (JNull :: rest) = Throw e.
Proof. unfold select_response. simpl. eauto. Qed.

Lemma select_response_falsy_last (n : Z) :
  select_response (Some (JNum n)) [JNum 0] = Ok (JObj []).
Proof. reflexivity. Qed.

Lemma sendJsonRpc_selects_response_witness :
  sendJsonRpc JsonReader.json_read (Some (JNum 7)) None
    (Resolved (mkResponse true 200 (Ok EmptyString) (Some "mock-session-abc123")
                 (Some "text/event-stream") notification_then_response))
  = Ok (mkReply response_7 (Some "mock-session-abc123")).
Proof.
  destruct (sendJsonRpc_selects_response JsonReader.json_read 7 None
              (mkResponse true 200 (Ok EmptyString) (Some "mock-session-abc123")
                 (Some "text/event-stream") notification_then_response)
              [JObj [("jsonrpc", JStr "2.0"); ("method", JStr "notifications/progress")];
               response_7])
    as (res & Hsend & Hlast & _).
  - reflexivity.
  - reflexivity.
  - vm_compute. reflexivity.
  - repeat constructor.
  - rewrite Hsend.
    rewrite (Hlast [JObj [("jsonrpc", JStr "2.0");
                          ("method", JStr "notifications/progress")]]
               response_7 []); [reflexivity | reflexivity | reflexivity | constructor].
Defined.

End ClientSpec.

(* --------------------------------------------------------------------- *)
(** ** The monitoring engine *)

Module MonitorSpec.

Import Monitor Samples.

Example noon_jan_20_reading :
  IsoDate.iso_read "2025-01-20T12:00:00Z" = Some noon_jan_20.
Proof. vm_compute. reflexivity. Qed.

(** C6 as stated fails, twice.  The check reads the first of
    [lastActivity], [dateUpdated], [dateAdded] that is present, not the
    most recent: a contact last active 50 hours ago and updated one hour
    ago is reported, although the most recent of its dates is after the
    cutoff.  And [items] holds the first ten stale contacts only: the
    eleventh contact last active 50 hours ago is counted and is not in
    [items]. *)
Lemma stale_leads_not_most_recent :
  (exists f,
     checkStaleLeads IsoDate.iso_read trim_ascii noon_jan_20 noon_jan_20
       location_48h (Ok (Some [contact_updated_recently])) = Ok f /\
     sf_count f = 1%nat /\
     List.map si_id (sf_items f) = [Some "c1"]) /\
  stale_by_most_recent IsoDate.iso_read (noon_jan_20 - 48 * hour)
    contact_updated_recently = false /\
  (exists f,
     checkStaleLeads IsoDate.iso_read trim_ascii noon_jan_20 noon_jan_20
       location_48h (Ok (Some eleven_stale)) = Ok f /\
     sf_count f = 11%nat /\
     List.map si_id (sf_items f) = List.repeat (Some "c0") 10 /\
     ~ In (Some "c11") (List.map si_id (sf_items f))).
Proof.
  split; [| split].
  - eexists. split; [vm_compute; reflexivity |]. split; reflexivity.
  - vm_compute. reflexivity.
  - eexists. split; [vm_compute; reflexivity |].
    split; [reflexivity |]. split; [reflexivity |].
    simpl. intros H. repeat (destruct H as [H | H]; [discriminate |]).
    exact H.
Qed.

Section StaleLeads.

Variable Date_parse : string -> option Z.
Variable trim : string -> string.

Lemma truthy_string_nonempty (d : string) :
  truthy_string d = true <-> d <> EmptyString.
Proof.
  unfold truthy_string. destruct (String.eqb_spec d ""); simpl; split;
    intros H; try discriminate; try reflexivity; try assumption.
  contradiction.
Qed.

(** The callback of [filter], spelled out. *)
Lemma is_stale_iff (cutoff : Z) (c : contact) :
  is_stale Date_parse cutoff c = true <->
  exists d t, activity_date c = Some d /\ d <> EmptyString /\
              Date_parse d = Some t /\ t < cutoff.
Proof.
  unfold is_stale. split.
  - destruct (activity_date c) as [d |]; [| discriminate].
    intros H. apply andb_prop in H. destruct H as [Hd Hlt].
    destruct (Date_parse d) as [t |] eqn:Hp; [| discriminate].
    simpl in Hlt. exists d, t. rewrite truthy_string_nonempty in Hd.
    apply Z.ltb_lt in Hlt. auto.
  - intros (d & t & Ha & Hd & Hp & Hlt). rewrite Ha, Hp.
    rewrite <- truthy_string_nonempty in Hd. rewrite Hd. simpl.
    apply Z.ltb_lt. exact Hlt.
Qed.

(** The date that is compared: the first of the three that is present
    and not empty, else [dateAdded]. *)
Lemma activity_date_first (c : contact) :
  (truthy_opt (lastActivity c) = true -> activity_date c = lastActivity c) /\
  (truthy_opt (lastActivity c) = false -> truthy_opt (dateUpdated c) = true ->
   activity_date c = dateUpdated c) /\
  (truthy_opt (lastActivity c) = false -> truthy_opt (dateUpdated c) = false ->
   activity_date c = dateAdded c).
Proof.
  unfold activity_date, or_else.
  destruct (truthy_opt (lastActivity c)) eqn:Ha;
    destruct (truthy_opt (dateUpdated c)) eqn:Hu; simpl;
    repeat split; intros; try discriminate;
    rewrite ?Ha, ?Hu; reflexivity.
Qed.

(** C6, amended.  The check compares with the cutoff (the clock at entry
    minus the threshold in hours, 48 by default) the first of
    [lastActivity], [dateUpdated], [dateAdded] that is present and not
    empty.  [count] is the number of contacts of the sample for which
    that date parses and is before the cutoff; [items] lists the first
    ten of them, in the order of the sample.  With a threshold of 48
    hours, a contact whose [lastActivity] is 50 hours before the clock
    is among those contacts, and one whose [lastActivity] is 40 hours
    before it is not. *)
Theorem checkStaleLeads_first_present_date (now now_items : Z)
  (config : locationConfig) (contacts : list contact) :
  let threshold := threshold_or (loc_thresholds config) stale_lead_hours 48 in
  let cutoff := now - threshold * 3600000 in
  valid_time cutoff = true ->
  exists f,
    checkStaleLeads Date_parse trim now now_items config (Ok (Some contacts)) = Ok f /\
    sf_count f = List.length (List.filter (is_stale Date_parse cutoff) contacts) /\
    sf_items f = List.map (stale_item_of Date_parse trim now_items)
                   (List.firstn 10 (List.filter (is_stale Date_parse cutoff) contacts)) /\
    (forall c, is_stale Date_parse cutoff c = true <->
               exists d t, activity_date c = Some d /\ d <> EmptyString /\
                           Date_parse d = Some t /\ t < cutoff) /\
    (forall c, truthy_opt (lastActivity c) = true ->
               activity_date c = lastActivity c) /\
    (forall c, truthy_opt (lastActivity c) = false ->
               truthy_opt (dateUpdated c) = true ->
               activity_date c = dateUpdated c) /\
    (forall c, truthy_opt (lastActivity c) = false ->
               truthy_opt (dateUpdated c) = false ->
               activity_date c = dateAdded c) /\
    (threshold = 48 ->
     forall c d, lastActivity c = Some d -> d <> EmptyString ->
       (Date_parse d = Some (now - 50 * 3600000) ->
        is_stale Date_parse cutoff c = true) /\
       (Date_parse d = Some (now - 40 * 3600000) ->
        is_stale Date_parse cutoff c = false)).
Proof.
  intros threshold cutoff Hvalid.
  eexists. split.
  - unfold checkStaleLeads, iso_cutoff. fold threshold. fold cutoff.
    rewrite Hvalid. simpl. reflexivity.
  - simpl. split; [reflexivity |]. split; [reflexivity |].
    split; [intros c; apply is_stale_iff |].
    split; [intros c; apply activity_date_first |].
    split; [intros c; apply activity_date_first |].
    split; [intros c; apply activity_date_first |].
    intros H48 c d Hla Hd.
    assert (Ha : activity_date c = Some d).
    { destruct (activity_date_first c) as [H _]. rewrite H; [exact Hla |].
      rewrite Hla. simpl. apply truthy_string_nonempty. exact Hd. }
    apply truthy_string_nonempty in Hd.
    unfold is_stale. rewrite Ha, Hd. unfold cutoff. rewrite H48.
    split; intros Hp; rewrite Hp; simpl; lia.
Qed.

End StaleLeads.

Example fifty_hours_before :
  IsoDate.iso_read "2025-01-18T10:00:00Z" = Some (noon_jan_20 - 50 * hour).
Proof. vm_compute. reflexivity. Qed.

Example forty_hours_before :
  IsoDate.iso_read "2025-01-18T20:00:00Z" = Some (noon_jan_20 - 40 * hour).
Proof. vm_compute. reflexivity. Qed.

Lemma checkStaleLeads_first_present_date_witness :
  exists f,
    checkStaleLeads IsoDate.iso_read trim_ascii noon_jan_20 noon_jan_20
      location_48h (Ok (Some [contact_50h "c1"; contact_40h "c2"])) = Ok f /\
    sf_count f
      = List.length
          (List.filter (is_stale IsoDate.iso_read (noon_jan_20 - 48 * 3600000))
             [contact_50h "c1"; contact_40h "c2"]) /\
    is_stale IsoDate.iso_read (noon_jan_20 - 48 * 3600000) (contact_50h "c1") = true /\
    is_stale IsoDate.iso_read (noon_jan_20 - 48 * 3600000) (contact_40h "c2") = false.
Proof.
  destruct (checkStaleLeads_first_present_date IsoDate.iso_read trim_ascii
              noon_jan_20 noon_jan_20 location_48h
              [contact_50h "c1"; contact_40h "c2"])
    as (f & Hf & Hcount & _ & _ & _ & _ & _ & H48).
  - reflexivity.
  - exists f. split; [exact Hf |]. split; [exact Hcount |]. split.
    + destruct (H48 eq_refl (contact_50h "c1") "2025-01-18T10:00:00Z")
        as [H50 _]; [reflexivity | discriminate |].
      apply H50. reflexivity.
    + destruct (H48 eq_refl (contact_40h "c2") "2025-01-18T20:00:00Z")
        as [_ H40]; [reflexivity | discriminate |].
      apply H40. reflexivity.
Defined.

(** *** Grouping by stage *)

Section Grouping.

Variable Date_parse : string -> option Z.

Lemma assoc_not_in {V : Type} (k : string) (g : list (string * V)) :
  ~ In k (keys g) -> assoc k g = None.
Proof.
  induction g as [| [k' v] g IH]; simpl; intros H; [reflexivity |].
  destruct (String.eqb_spec k k') as [-> | Hne]; [tauto |].
  apply IH. tauto.
Qed.

Lemma assoc_in {V : Type} (k : string) (g : list (string * V)) :
  In k (keys g) -> exists v, assoc k g = Some v.
Proof.
  induction g as [| [k' v] g IH]; simpl; intros H; [contradiction |].
  destruct (String.eqb_spec k k') as [-> | Hne]; [eauto |].
  apply IH. destruct H as [H | H]; [congruence | exact H].
Qed.

(** [push_group] appends to the group of its key, creating the group
    when the key is new, and leaves the other groups alone. *)
Lemma assoc_push_group (s k : string) (item : opp_item)
  (g : list (string * list opp_item)) :
  assoc s (push_group k item g)
  = if String.eqb s k
    then Some (match assoc s g with Some l => l | None => [] end ++ [item])%list
    else assoc s g.
Proof.
  induction g as [| [k' l] g IH]; simpl.
  - destruct (String.eqb s k); reflexivity.
  - destruct (String.eqb_spec k' k) as [-> | Hne]; simpl.
    + destruct (String.eqb s k); reflexivity.
    + rewrite IH.
      destruct (String.eqb_spec s k') as [-> | Hne'].
      * destruct (String.eqb_spec k' k); [contradiction | reflexivity].
      * reflexivity.
Qed.

Lemma keys_push_group (k : string) (item : opp_item)
  (g : list (string * list opp_item)) :
  NoDup (keys g) -> NoDup (keys (push_group k item g)) /\
  (forall x, In x (keys (push_group k item g)) <-> x = k \/ In x (keys g)).
Proof.
  induction g as [| [k' l] g IH]; simpl; intros Hnd.
  - split; [repeat constructor; simpl; tauto |].
    intros x. simpl. intuition auto.
  - inversion Hnd as [| ? ? Hnotin Hnd']; subst.
    destruct (String.eqb_spec k' k) as [-> | Hne]; simpl.
    + split; [exact Hnd |]. intros x. intuition auto.
    + destruct (IH Hnd') as [IHnd IHin]. split.
      * constructor; [| exact IHnd].
        intros Hin. apply IHin in Hin. destruct Hin as [-> | Hin]; tauto.
      * intros x. rewrite IHin. intuition auto.
Qed.

(** The loop over the opportunities, when no stuck opportunity is filed
    under an inherited name, returns, and extends the group of every
    key by the items of the stuck opportunities of that key, in
    order. *)
Lemma group_stuck_spec (now : Z) (cutoff : option Z) (p : pipeline)
  (opps : list opportunity) :
  own_keys Date_parse cutoff p opps = true ->
  forall g : list (string * list opp_item),
  NoDup (keys g) ->
  exists g',
    group_stuck Date_parse now cutoff p opps g = Ok g' /\
    NoDup (keys g') /\
    forall s,
      match assoc s g' with
      | Some l =>
          l = (match assoc s g with Some l0 => l0 | None => [] end
               ++ List.map (opp_item_of Date_parse now)
                    (stuck_in Date_parse cutoff p s opps))%list
      | None =>
          assoc s g = None /\ stuck_in Date_parse cutoff p s opps = []
      end.
Proof.
  induction opps as [| o rest IH]; intros Hown g Hnd; cbn [group_stuck].
  - exists g. split; [reflexivity |]. split; [exact Hnd |]. intros s. simpl.
    destruct (assoc s g); [rewrite app_nil_r; reflexivity | auto].
  - cbn [own_keys List.forallb] in Hown. apply andb_prop in Hown.
    destruct Hown as [Ho Hrest]. fold (own_keys Date_parse cutoff p rest) in Hrest.
    destruct (is_stuck Date_parse cutoff o) eqn:Hst.
    + cbn [andb negb] in Ho. apply negb_true_iff in Ho. rewrite Ho.
      destruct (keys_push_group (stage_key p o)
                  (opp_item_of Date_parse now o) g Hnd) as [Hnd' _].
      destruct (IH Hrest _ Hnd') as (g' & Hg & Hres & Hall).
      exists g'. split; [exact Hg |]. split; [exact Hres |].
      intros s. specialize (Hall s). rewrite assoc_push_group in Hall.
      unfold stuck_in in *. cbn [List.filter]. rewrite Hst. cbn [andb].
      rewrite (String.eqb_sym (stage_key p o) s).
      destruct (String.eqb s (stage_key p o)); cbn [List.map].
      * destruct (assoc s g').
        -- rewrite Hall. rewrite <- app_assoc. reflexivity.
        -- destruct Hall; discriminate.
      * exact Hall.
    + destruct (IH Hrest g Hnd) as (g' & Hg & Hres & Hall).
      exists g'. split; [exact Hg |]. split; [exact Hres |].
      intros s. specialize (Hall s). unfold stuck_in in *. cbn [List.filter].
      rewrite Hst. cbn [andb]. exact Hall.
Qed.

(** *** The order of [Object.entries] *)

Lemma insert_by_index_perm {V : Type} (i : Z) (e : string * V)
  (l : list (Z * (string * V))) :
  Permutation (List.map snd (insert_by_index i e l)) (e :: List.map snd l).
Proof.
  induction l as [| [j e'] l IH]; simpl; [apply Permutation_refl |].
  destruct (i <? j); simpl; [apply Permutation_refl |].
  eapply perm_trans; [apply perm_skip; exact IH | apply perm_swap].
Qed.

Lemma indexed_entries_perm {V : Type} (g : list (string * V)) :
  Permutation (List.map snd (indexed_entries g)) (List.filter is_indexed g).
Proof.
  induction g as [| [k v] g IH]; simpl; [constructor |].
  unfold is_indexed at 1. simpl.
  destruct (array_index k) as [i |].
  - eapply perm_trans; [apply insert_by_index_perm |].
    apply perm_skip. exact IH.
  - exact IH.
Qed.

Lemma filter_split_perm {X : Type} (f : X -> bool) (l : list X) :
  Permutation (List.filter f l ++ List.filter (fun x => negb (f x)) l) l.
Proof.
  induction l as [| x l IH]; simpl; [constructor |].
  destruct (f x); simpl.
  - apply perm_skip. exact IH.
  - apply Permutation_sym. apply Permutation_cons_app.
    apply Permutation_sym. exact IH.
Qed.

(** [Object.entries] lists every property once. *)
Lemma Object_entries_perm {V : Type} (g : list (string * V)) :
  Permutation (Object_entries g) g.
Proof.
  unfold Object_entries, named_entries.
  eapply perm_trans; [| apply (filter_split_perm is_indexed g)].
  apply Permutation_app; [apply indexed_entries_perm |].
  erewrite filter_ext; [apply Permutation_refl |].
  intros [k v]. unfold is_indexed. simpl. destruct (array_index k); reflexivity.
Qed.








Lemma pipeline_bottlenecks_returns (now : Z) (cutoff : option Z) (p : pipeline)
  (opps : list opportunity) :
  own_keys Date_parse cutoff p opps = true ->
  exists entries, pipeline_bottlenecks Date_parse now cutoff p opps = Ok entries.
Proof.
  intros Hown. unfold pipeline_bottlenecks.
  destruct (group_stuck_spec now cutoff p opps Hown [] (NoDup_nil _))
    as (g' & Hg & _). rewrite Hg. cbn [Js.bind]. eexists. reflexivity.
Qed.

(** *** The loop over the pipelines *)

(** The searches made for the pipelines [ps], the first of them in
    iteration [i], return, and no stuck opportunity that they return is
    filed under an inherited name. *)
Local Abbreviation sound cutoff search i ps :=
  (forall (j : nat) (q : pipeline),
     nth_error ps j = Some q ->
     exists payload,
       search (i + j)%nat q = Ok payload /\
       own_keys Date_parse cutoff q
         (match payload with Some l => l | None => [] end) = true).

Lemma sound_tail (cutoff : option Z)
  (search : nat -> pipeline -> result (option (list opportunity)))
  (i : nat) (p : pipeline) (ps : list pipeline) :
  sound cutoff search i (p :: ps) -> sound cutoff search (S i) ps.
Proof.
  intros H j q Hq. replace (S i + j)%nat with (i + S j)%nat by lia.
  apply H. exact Hq.
Qed.

Lemma for_pipelines_extends (now : Z) (cutoff : option Z)
  (search : nat -> pipeline -> result (option (list opportunity)))
  (ps : list pipeline) :
  forall (i : nat) (acc : list bottleneck),
  sound cutoff search i ps ->
  exists more,
    for_pipelines Date_parse now cutoff search i ps acc = Ok (acc ++ more)%list.
Proof.
  induction ps as [| p ps IH]; intros i acc Hok; cbn [for_pipelines].
  - exists []. rewrite app_nil_r. reflexivity.
  - destruct (Hok 0%nat p eq_refl) as (payload & Hs & Hown).
    rewrite Nat.add_0_r in Hs. rewrite Hs. cbn [Js.bind].
    destruct (pipeline_bottlenecks_returns now cutoff p _ Hown) as [entries He].
    rewrite He. cbn [Js.bind].
    destruct (IH (S i) (acc ++ entries)%list (sound_tail _ _ _ _ _ Hok))
      as [more Hmore].
    rewrite Hmore. rewrite <- app_assoc. eauto.
Qed.




End Grouping.



(** A stuck opportunity in a stage whose name an object inherits makes
    the check throw. *)
Example bottleneck_inherited_stage_name :
  checkPipelineBottlenecks IsoDate.iso_read noon_jan_20 noon_jan_20
    location_48h
    (Ok (Some [mkPipeline (Some "pipe1") (Some "Sales")
                 (Some [mkStage (Some "stage2") (Some "constructor")])]))
    (fun _ _ => Ok (Some [opp_audit]))
  = Throw not_a_function.
Proof. vm_compute. reflexivity. Qed.

(** *** The report *)

Section Report.

Variable Date_parse : string -> option Z.
Variable toLocaleString : option Z -> string.

(** C7.  For a location that the configuration has and whose credentials
    resolve, and for every way the four checks settle, [runAllChecks]
    returns a Report whose [checks] holds a Finding for each of the
    four: the value of a check that returned, and for a check that
    failed the object [{ check, error }] with the message of the
    failure, which has neither [count] nor [items].  The Finding of one
    check is determined by how that check settled alone. *)
Theorem runAllChecks_reports_every_check (env : string -> option string)
  (iso_now : string) (cfg : config) (locationAlias : string)
  (lc : locationConfig) (actions : option string * option string)
  (stale : settled stale_finding) (followups : settled followup_finding)
  (bottlenecks : settled bottleneck_finding) (responses : settled slow_finding) :
  match locations cfg with Some l => assoc locationAlias l | None => None end
    = Some lc ->
  createActions env lc = Ok actions ->
  exists rep,
    runAllChecks Date_parse toLocaleString env iso_now cfg locationAlias
      stale followups bottlenecks responses = Ok rep /\
    staleLeads (checks_of rep)
      = match stale with
        | Fulfilled v => StaleLeads v
        | RejectedWith e => CheckError "stale_leads" (emessage e)
        end /\
    missedFollowups (checks_of rep)
      = match followups with
        | Fulfilled v => MissedFollowups v
        | RejectedWith e => CheckError "missed_followups" (emessage e)
        end /\
    pipelineBottlenecks (checks_of rep)
      = match bottlenecks with
        | Fulfilled v => PipelineBottlenecks v
        | RejectedWith e => CheckError "pipeline_bottlenecks" (emessage e)
        end /\
    slowResponses (checks_of rep)
      = match responses with
        | Fulfilled v => SlowResponses v
        | RejectedWith e => CheckError "slow_responses" (emessage e)
        end /\
    (forall check e, error_of (CheckError check (emessage e)) = emessage e /\
                     count_of (CheckError check (emessage e)) = None /\
                     has_results (CheckError check (emessage e)) = false).
Proof.
  intros Hloc Hact. unfold runAllChecks. rewrite Hloc, Hact. cbn [Js.bind].
  eexists. split; [reflexivity |]. cbn [checks_of staleLeads missedFollowups
    pipelineBottlenecks slowResponses finding_of].
  destruct stale, followups, bottlenecks, responses; simpl; auto 10.
Qed.

End Report.

Lemma runAllChecks_reports_every_check_witness :
  exists rep,
    runAllChecks IsoDate.iso_read (fun _ => "1/20/2025, 12:00:00 PM")
      (fun _ => None) "2025-01-20T12:00:00.000Z" main_config "main"
      (RejectedWith connection_refused)
      (Fulfilled (mkFollowupFinding 0 [] false))
      (RejectedWith connection_refused)
      (Fulfilled (mkSlowFinding 0 "30m" [])) = Ok rep /\
    staleLeads (checks_of rep) = CheckError "stale_leads" (Some "Connection refused") /\
    missedFollowups (checks_of rep) = MissedFollowups (mkFollowupFinding 0 [] false) /\
    slowResponses (checks_of rep) = SlowResponses (mkSlowFinding 0 "30m" []).
Proof.
  destruct (runAllChecks_reports_every_check IsoDate.iso_read
              (fun _ => "1/20/2025, 12:00:00 PM") (fun _ => None)
              "2025-01-20T12:00:00.000Z" main_config "main" location_48h
              (Some "pit-token", Some "loc-1")
              (RejectedWith connection_refused)
              (Fulfilled (mkFollowupFinding 0 [] false))
              (RejectedWith connection_refused)
              (Fulfilled (mkSlowFinding 0 "30m" [])))
    as (rep & Hrun & Hs & Hf & _ & Hr & _).
  - reflexivity.
  - reflexivity.
  - exists rep. repeat split; assumption.
Defined.

End MonitorSpec.

(* --------------------------------------------------------------------- *)
(** ** The credential store *)

Module EncryptionSpec.

Import Encryption.
Local Open Scope list_scope.

(** *** The encoding of the text *)

Ltac zdm := Z.to_euclidean_division_equations; lia.

Ltac tests :=
  repeat match goal with
  | |- context [?a <=? ?b] =>
      first [ replace (a <=? b) with true by (symmetry; apply Z.leb_le; zdm)
            | replace (a <=? b) with false by (symmetry; apply Z.leb_gt; zdm) ]
  | |- context [?a <? ?b] =>
      first [ replace (a <? b) with true by (symmetry; apply Z.ltb_lt; zdm)
            | replace (a <? b) with false by (symmetry; apply Z.ltb_ge; zdm) ]
  | |- context [?a =? ?b] =>
      first [ replace (a =? b) with true by (symmetry; apply Z.eqb_eq; zdm)
            | replace (a =? b) with false by (symmetry; apply Z.eqb_neq; zdm) ]
  end.

Ltac close_sequence c :=
  match goal with
  | |- context [Utf8.utf16 ?e] => replace e with c by zdm; reflexivity
  end.

Import Utf8.

Lemma is_scalar_bounds (c : Z) :
  is_scalar c = true -> 0 <= c < 0x110000 /\ (c < 0xD800 \/ 0xDFFF < c).
Proof.
  unfold is_scalar. intros H.
  apply andb_prop in H. destruct H as [H Hs]. apply andb_prop in H.
  destruct H as [H0 H1]. apply Z.leb_le in H0. apply Z.ltb_lt in H1.
  apply negb_true_iff, andb_false_iff in Hs.
  split; [lia |].
  destruct Hs as [Hs | Hs]; apply Z.leb_gt in Hs; lia.
Qed.

(** The decoder reads the bytes of a scalar value back as its code
    units. *)
Lemma decode_scalar (c : Z) (rest : list Z) :
  is_scalar c = true ->
  decode_from None (encode_scalar c ++ rest)
  = (utf16 c ++ decode_from None rest)%list.
Proof.
  intros H. apply is_scalar_bounds in H. destruct H as [[H0 H1] Hsur].
  unfold encode_scalar.
  destruct (Z.ltb_spec c 0x80) as [Ha | Ha].
  - cbn [app decode_from]. unfold start, utf16. tests. reflexivity.
  - destruct (Z.ltb_spec c 0x800) as [Hb | Hb];
      [| destruct (Z.ltb_spec c 0x10000) as [Hc | Hc]].
    + cbn [app decode_from]. unfold start. tests.
      cbn [andb app decode_from lower upper needed code_point].
      tests. cbn [andb]. close_sequence c.
    + cbn [app decode_from]. unfold start. tests.
      cbn [andb app decode_from lower upper needed code_point].
      destruct (Z.eqb_spec (0xE0 + c / 4096) 0xE0) as [E0 | E0];
        destruct (Z.eqb_spec (0xE0 + c / 4096) 0xED) as [ED | ED];
        tests; cbn [andb decode_from lower upper needed code_point];
        tests; cbn [andb]; close_sequence c.
    + cbn [app decode_from]. unfold start. tests.
      cbn [andb app decode_from lower upper needed code_point].
      destruct (Z.eqb_spec (0xF0 + c / 262144) 0xF0) as [E0 | E0];
        destruct (Z.eqb_spec (0xF0 + c / 262144) 0xF4) as [E4 | E4];
        tests; cbn [andb decode_from lower upper needed code_point];
        tests; cbn [andb decode_from lower upper needed code_point];
        tests; cbn [andb]; close_sequence c.
Qed.

Lemma encode_scalar_bytes (c : Z) :
  is_scalar c = true -> Forall (fun b => 0 <= b < 256) (encode_scalar c).
Proof.
  intros H. apply is_scalar_bounds in H. destruct H as [[H0 H1] _].
  unfold encode_scalar.
  destruct (Z.ltb_spec c 0x80); [| destruct (Z.ltb_spec c 0x800);
    [| destruct (Z.ltb_spec c 0x10000)]];
    repeat constructor; zdm.
Qed.

Lemma decode_scalars (cs : list Z) :
  Forall (fun c => is_scalar c = true) cs ->
  decode (List.flat_map encode_scalar cs) = List.flat_map utf16 cs.
Proof.
  unfold decode. induction 1 as [| c cs Hc _ IH]; [reflexivity |].
  cbn [List.flat_map]. rewrite (decode_scalar _ _ Hc), IH. reflexivity.
Qed.

(** The encoder reads scalar values from every string of code units. *)
Lemma scalars_valid (n : nat) :
  forall units : jsstring,
  (List.length units <= n)%nat ->
  Forall (fun u => is_unit u = true) units ->
  Forall (fun c => is_scalar c = true) (scalars units).
Proof.
  induction n as [| n IH]; intros units Hlen Hu.
  - destruct units; [constructor | cbn in Hlen; lia].
  - destruct units as [| u rest]; [constructor |].
    cbn [scalars]. cbn [List.length] in Hlen.
    inversion Hu as [| ? ? Hu1 Hrest]; subst.
    unfold is_unit in Hu1. apply andb_prop in Hu1. destruct Hu1 as [Hu0 Hu1].
    apply Z.leb_le in Hu0. apply Z.ltb_lt in Hu1.
    assert (Hfffd : is_scalar 0xFFFD = true) by reflexivity.
    destruct (is_high u) eqn:Hh.
    + destruct rest as [| l rest']; [repeat constructor |].
      destruct (is_low l) eqn:Hl.
      * inversion Hrest as [| ? ? _ Hrest']; subst. cbn [List.length] in Hlen.
        constructor; [| apply IH; [lia | exact Hrest']].
        unfold is_high in Hh. unfold is_low in Hl.
        apply andb_prop in Hh. destruct Hh as [Hh0 Hh1].
        apply andb_prop in Hl. destruct Hl as [Hl0 Hl1].
        apply Z.leb_le in Hh0, Hh1, Hl0, Hl1.
        unfold is_scalar. tests. reflexivity.
      * constructor; [exact Hfffd | apply IH; [lia | exact Hrest]].
    + destruct (is_low u) eqn:Hl.
      * constructor; [exact Hfffd | apply IH; [lia | exact Hrest]].
      * constructor; [| apply IH; [lia | exact Hrest]].
        unfold is_high in Hh. unfold is_low in Hl.
        apply andb_false_iff in Hh, Hl.
        assert (Hns : u < 0xD800 \/ 0xDFFF < u).
        { destruct Hh as [Hh | Hh]; destruct Hl as [Hl | Hl];
            apply Z.leb_gt in Hh; apply Z.leb_gt in Hl; lia. }
        unfold is_scalar. destruct Hns; tests; reflexivity.
Qed.

(** The code units of the code points of a well-formed string are the
    string. *)
Lemma scalars_well_formed (n : nat) :
  forall units : jsstring,
  (List.length units <= n)%nat ->
  well_formed units = true ->
  Forall (fun u => is_unit u = true) units /\
  List.flat_map utf16 (scalars units) = units.
Proof.
  induction n as [| n IH]; intros units Hlen Hwf.
  - destruct units; [split; [constructor | reflexivity] | cbn in Hlen; lia].
  - destruct units as [| u rest]; [split; [constructor | reflexivity] |].
    cbn [well_formed scalars] in *. cbn [List.length] in Hlen.
    apply andb_prop in Hwf. destruct Hwf as [Hu Hwf].
    pose proof Hu as Hunit.
    unfold is_unit in Hu. apply andb_prop in Hu. destruct Hu as [Hu0 Hu1].
    apply Z.leb_le in Hu0. apply Z.ltb_lt in Hu1.
    destruct (is_high u) eqn:Hh.
    + destruct rest as [| l rest']; [discriminate |].
      apply andb_prop in Hwf. destruct Hwf as [Hl Hwf].
      rewrite Hl. cbn [List.length] in Hlen.
      destruct (IH rest' ltac:(lia) Hwf) as [Hsc Hflat].
      unfold is_high in Hh. unfold is_low in Hl.
      apply andb_prop in Hh. destruct Hh as [Hh0 Hh1].
      apply andb_prop in Hl. destruct Hl as [Hl0 Hl1].
      apply Z.leb_le in Hh0, Hh1, Hl0, Hl1.
      split.
      * constructor; [exact Hunit |]. constructor; [| exact Hsc].
        unfold is_unit. tests. reflexivity.
      * cbn [List.flat_map]. rewrite Hflat. unfold utf16. tests. cbn [app].
        f_equal; [zdm | f_equal; zdm].
    + apply andb_prop in Hwf. destruct Hwf as [Hl Hwf].
      apply negb_true_iff in Hl. rewrite Hl.
      destruct (IH rest ltac:(lia) Hwf) as [Hsc Hflat].
      split; [constructor; assumption |].
      cbn [List.flat_map]. rewrite Hflat. unfold utf16. tests. reflexivity.
Qed.

(** The bytes of the encoder are bytes. *)
Lemma encode_bytes (units : jsstring) :
  Forall (fun u => is_unit u = true) units ->
  Forall (fun b => 0 <= b < 256) (encode units).
Proof.
  intros Hu.
  pose proof (scalars_valid (List.length units) units (le_n _) Hu) as Hsc.
  unfold encode. induction Hsc as [| c cs Hc _ IH]; [constructor |].
  cbn [List.flat_map]. apply Forall_app. split; [| exact IH].
  apply encode_scalar_bytes. exact Hc.
Qed.

(** Decoding inverts encoding on the well-formed strings. *)
Lemma decode_encode (units : jsstring) :
  well_formed units = true -> decode (encode units) = units.
Proof.
  intros Hwf.
  destruct (scalars_well_formed (List.length units) units (le_n _) Hwf)
    as [Hu Hflat].
  unfold encode.
  rewrite (decode_scalars _ (scalars_valid (List.length units) units (le_n _) Hu)).
  exact Hflat.
Qed.

Lemma number_of_byte_of (z : Z) : 0 <= z < 256 -> number_of (byte_of z) = z.
Proof.
  intros Hz. unfold number_of, byte_of.
  destruct (Byte.of_N (Z.to_N z)) as [b |] eqn:Hb.
  - apply Byte.to_of_N in Hb. rewrite Hb. lia.
  - apply Byte.of_N_None_iff in Hb. lia.
Qed.

Lemma bytes_back (l : list Z) :
  Forall (fun b => 0 <= b < 256) l ->
  List.map number_of (List.map byte_of l) = l.
Proof.
  induction 1 as [| z l Hz _ IH]; [reflexivity |].
  cbn [List.map]. rewrite (number_of_byte_of z Hz), IH. reflexivity.
Qed.

Section RoundTrip.

Variable pbkdf2Sync : string -> buffer -> Z -> nat -> buffer.
Variable gcm_encrypt : buffer -> buffer -> buffer -> buffer * buffer.
Variable gcm_decrypt : buffer -> buffer -> buffer -> buffer -> result buffer.
Variable toBase64 : buffer -> string.
Variable fromBase64 : string -> buffer.

(** The contracts of the primitives: the derived key has the length
    asked for; the tag of AES-GCM has 16 bytes; deciphering with the key,
    the IV and the tag of the encryption gives the data back; decoding
    inverts encoding. *)
Hypothesis pbkdf2_length :
  forall password salt iterations keylen,
    List.length (pbkdf2Sync password salt iterations keylen) = keylen.
Hypothesis tag_length :
  forall key iv data, List.length (snd (gcm_encrypt key iv data)) = TAG_LENGTH.
Hypothesis gcm_inverse :
  forall key iv data,
    List.length key = KEY_LENGTH ->
    gcm_decrypt key iv (snd (gcm_encrypt key iv data))
      (fst (gcm_encrypt key iv data)) = Ok data.
Hypothesis base64_inverse :
  forall b, fromBase64 (toBase64 b) = b.

Lemma subarray_prefix (a rest : buffer) (n : nat) :
  List.length a = n -> subarray 0 n (a ++ rest) = a.
Proof.
  intros H. unfold subarray. simpl. rewrite Nat.sub_0_r. subst n.
  rewrite firstn_app, Nat.sub_diag, firstn_all. simpl. apply app_nil_r.
Qed.

Lemma subarray_middle (a b rest : buffer) (n m : nat) :
  List.length a = n -> List.length b = m ->
  subarray n (n + m) (a ++ b ++ rest) = b.
Proof.
  intros Ha Hb. unfold subarray.
  replace (n + m - n)%nat with m by lia. subst n.
  rewrite skipn_app, Nat.sub_diag, skipn_all. simpl.
  subst m. rewrite firstn_app, Nat.sub_diag, firstn_all. simpl. apply app_nil_r.
Qed.

Lemma skipn_prefix (a rest : buffer) (n : nat) :
  List.length a = n -> List.skipn n (a ++ rest) = rest.
Proof.
  intros H. subst n. rewrite skipn_app, Nat.sub_diag, skipn_all. reflexivity.
Qed.

(** What comes back is the plaintext as the encoding [utf8] keeps
    it. *)
Lemma decrypt_encrypt_text (salt iv : buffer) (plaintext : jsstring)
  (password : string) :
  Forall (fun u => is_unit u = true) plaintext ->
  List.length salt = SALT_LENGTH ->
  List.length iv = IV_LENGTH ->
  decrypt pbkdf2Sync gcm_decrypt fromBase64
    (encrypt pbkdf2Sync gcm_encrypt toBase64 salt iv plaintext password)
    password
  = Ok (decode (encode plaintext)).
Proof.
  intros Hunits Hsalt Hiv. unfold decrypt, encrypt.
  set (key := deriveKey pbkdf2Sync password salt).
  set (data := List.map byte_of (encode plaintext)).
  destruct (gcm_encrypt key iv data) as [encrypted tag] eqn:Henc.
  assert (Htag : List.length tag = TAG_LENGTH).
  { pose proof (tag_length key iv data) as H. rewrite Henc in H. exact H. }
  rewrite base64_inverse.
  rewrite (subarray_prefix salt _ SALT_LENGTH Hsalt).
  rewrite (subarray_middle salt iv _ SALT_LENGTH IV_LENGTH Hsalt Hiv).
  replace (salt ++ iv ++ tag ++ encrypted)%list
    with ((salt ++ iv) ++ tag ++ encrypted)%list by (rewrite <- app_assoc; reflexivity).
  assert (Hsi : List.length (salt ++ iv)%list = (SALT_LENGTH + IV_LENGTH)%nat).
  { rewrite length_app. lia. }
  rewrite (subarray_middle (salt ++ iv) tag encrypted
             (SALT_LENGTH + IV_LENGTH) TAG_LENGTH Hsi Htag).
  replace ((salt ++ iv) ++ tag ++ encrypted)%list
    with (((salt ++ iv) ++ tag) ++ encrypted)%list by (rewrite <- app_assoc; reflexivity).
  rewrite (skipn_prefix ((salt ++ iv) ++ tag) encrypted
             (SALT_LENGTH + IV_LENGTH + TAG_LENGTH)) by (rewrite length_app; lia).
  fold key.
  pose proof (gcm_inverse key iv data) as Hinv.
  rewrite Henc in Hinv. simpl in Hinv. rewrite Hinv.
  - cbn [Js.bind]. unfold data.
    rewrite (bytes_back _ (encode_bytes plaintext Hunits)). reflexivity.
  - apply pbkdf2_length.
Qed.

(** C10, as the code has it.  For every well-formed plaintext (a string
    in which every surrogate is part of a pair) and every password, and
    whatever 32 bytes of salt and 16 bytes of IV [randomBytes] returned
    during the encryption, [decrypt] of the output of [encrypt] under
    the same password returns the plaintext. *)
Theorem decrypt_encrypt (salt iv : buffer) (plaintext : jsstring)
  (password : string) :
  well_formed plaintext = true ->
  List.length salt = SALT_LENGTH ->
  List.length iv = IV_LENGTH ->
  decrypt pbkdf2Sync gcm_decrypt fromBase64
    (encrypt pbkdf2Sync gcm_encrypt toBase64 salt iv plaintext password)
    password
  = Ok plaintext.
Proof.
  intros Hwf Hsalt Hiv.
  destruct (scalars_well_formed (List.length plaintext) plaintext (le_n _) Hwf)
    as [Hunits _].
  rewrite (decrypt_encrypt_text salt iv plaintext password Hunits Hsalt Hiv).
  rewrite (decode_encode plaintext Hwf). reflexivity.
Qed.

End RoundTrip.

Lemma standin_pbkdf2_length (password : string) (salt : buffer)
  (iterations : Z) (keylen : nat) :
  List.length (standin_pbkdf2 password salt iterations keylen) = keylen.
Proof.
  unfold standin_pbkdf2, zeros. rewrite length_firstn, !length_app, repeat_length.
  lia.
Qed.

Lemma standin_tag_length (key iv data : buffer) :
  List.length (snd (standin_encrypt key iv data)) = TAG_LENGTH.
Proof.
  unfold standin_encrypt. cbn [snd]. unfold standin_tag, zeros.
  rewrite length_firstn, !length_app, repeat_length. lia.
Qed.

Lemma standin_inverse (key iv data : buffer) :
  List.length key = KEY_LENGTH ->
  standin_decrypt key iv (snd (standin_encrypt key iv data))
    (fst (standin_encrypt key iv data)) = Ok data.
Proof.
  intros _. unfold standin_decrypt, standin_encrypt. simpl.
  destruct (list_eq_dec Byte.byte_eq_dec (standin_tag key iv) (standin_tag key iv));
    [rewrite rev_involutive; reflexivity | contradiction].
Qed.

Lemma decrypt_encrypt_witness :
  decrypt standin_pbkdf2 standin_decrypt list_byte_of_string
    (encrypt standin_pbkdf2 standin_encrypt string_of_list_byte
       (zeros 32) (zeros 16) (of_ascii "pit-0123456789") "correct horse")
    "correct horse"
  = Ok (of_ascii "pit-0123456789").
Proof.
  apply (decrypt_encrypt standin_pbkdf2 standin_encrypt standin_decrypt
           string_of_list_byte list_byte_of_string
           standin_pbkdf2_length standin_tag_length standin_inverse
           list_byte_of_string_of_list_byte).
  - reflexivity.
  - reflexivity.
  - reflexivity.
Defined.

(** C10 as stated fails.  The plaintext [a], a high surrogate without
    its pair, [b]: the encoding writes the bytes of U+FFFD for the
    surrogate, and what comes back has U+FFFD in its place, with the
    primitives of the example and with any that keep their contracts. *)
Lemma lone_surrogate_is_replaced :
  let plaintext := [0x61; 0xD800; 0x62] in
  let replaced := [0x61; 0xFFFD; 0x62] in
  encode plaintext = [0x61; 0xEF; 0xBF; 0xBD; 0x62] /\
  decrypt standin_pbkdf2 standin_decrypt list_byte_of_string
    (encrypt standin_pbkdf2 standin_encrypt string_of_list_byte
       (zeros 32) (zeros 16) plaintext "correct horse")
    "correct horse"
  = Ok replaced /\
  replaced <> plaintext /\
  (forall pbkdf2Sync gcm_encrypt gcm_decrypt toBase64 fromBase64,
     (forall password salt iterations keylen,
        List.length (pbkdf2Sync password salt iterations keylen) = keylen) ->
     (forall key iv data,
        List.length (snd (gcm_encrypt key iv data)) = TAG_LENGTH) ->
     (forall key iv data,
        List.length key = KEY_LENGTH ->
        gcm_decrypt key iv (snd (gcm_encrypt key iv data))
          (fst (gcm_encrypt key iv data)) = Ok data) ->
     (forall b, fromBase64 (toBase64 b) = b) ->
     forall salt iv password,
       List.length salt = SALT_LENGTH ->
       List.length iv = IV_LENGTH ->
       decrypt pbkdf2Sync gcm_decrypt fromBase64
         (encrypt pbkdf2Sync gcm_encrypt toBase64 salt iv plaintext password)
         password
       = Ok replaced).
Proof.
  intros plaintext replaced. split; [reflexivity |].
  split; [vm_compute; reflexivity |]. split; [discriminate |].
  intros pbkdf2Sync gcm_encrypt gcm_decrypt toBase64 fromBase64 H1 H2 H3 H4
         salt iv password Hsalt Hiv.
  rewrite (decrypt_encrypt_text pbkdf2Sync gcm_encrypt gcm_decrypt toBase64
             fromBase64 H1 H2 H3 H4 salt iv plaintext password);
    [reflexivity | repeat constructor | exact Hsalt | exact Hiv].
Qed.

End EncryptionSpec.

(* ===================================================================== *)
(** * Part III: further properties of the code                            *)
(* ===================================================================== *)

(* --------------------------------------------------------------------- *)
(** ** The tool cache *)

Module CacheSpec.

Import Cache.

Section ToolCache.

Variable V : Type.

Lemma assoc_Map_set_same (k : string) (e : entry V) (s : store V) :
  assoc k (Map_set k e s) = Some e.
Proof.
  induction s as [| [k' e'] s IH]; simpl.
  - rewrite String.eqb_refl. reflexivity.
  - destruct (String.eqb_spec k' k) as [-> | Hne]; simpl.
    + rewrite String.eqb_refl. reflexivity.
    + destruct (String.eqb_spec k k') as [-> | _]; [contradiction | exact IH].
Qed.

Lemma assoc_Map_set_other (k k' : string) (e : entry V) (s : store V) :
  k <> k' -> assoc k (Map_set k' e s) = assoc k s.
Proof.
  intros Hne. induction s as [| [k0 e0] s IH]; simpl.
  - destruct (String.eqb_spec k k'); [contradiction | reflexivity].
  - destruct (String.eqb_spec k0 k') as [-> | Hne0]; simpl.
    + destruct (String.eqb_spec k k'); [contradiction | reflexivity].
    + rewrite IH. reflexivity.
Qed.

Lemma assoc_Map_delete_same (k : string) (s : store V) :
  assoc k (Map_delete k s) = None.
Proof.
  induction s as [| [k0 e0] s IH]; simpl; [reflexivity |].
  destruct (String.eqb_spec k0 k) as [-> | Hne]; simpl; [exact IH |].
  destruct (String.eqb_spec k k0) as [-> | _]; [contradiction | exact IH].
Qed.

Lemma assoc_Map_delete_other (k k' : string) (s : store V) :
  k <> k' -> assoc k (Map_delete k' s) = assoc k s.
Proof.
  intros Hne. induction s as [| [k0 e0] s IH]; simpl; [reflexivity |].
  destruct (String.eqb_spec k0 k') as [-> | Hne0]; simpl.
  - destruct (String.eqb_spec k k'); [contradiction | exact IH].
  - rewrite IH. reflexivity.
Qed.

(** X1.  A value that was [set] is what [get] returns for its key as
    long as no more than [ttlMs] milliseconds have passed, the bound
    included, and such a [get] leaves the store as it is. *)
Theorem cache_hit_within_ttl (ttlMs t0 now : Z) (key : string) (v : V)
  (s : store V) :
  now - t0 <= ttlMs ->
  get ttlMs now key (set t0 key v s) = (Some v, set t0 key v s).
Proof.
  intros Hfresh. unfold get, set. rewrite assoc_Map_set_same. simpl.
  destruct (Z.ltb_spec ttlMs (now - t0)); [lia | reflexivity].
Qed.

(** X2.  Once more than [ttlMs] milliseconds have passed, [get] returns
    [undefined] and removes the entry: whatever the clock reads
    afterwards, [get] returns [undefined] for that key until it is set
    again, and the entries of the other keys are untouched. *)
Theorem cache_expired_entry_is_removed (ttlMs t0 now : Z) (key : string)
  (v : V) (s : store V) :
  ttlMs < now - t0 ->
  fst (get ttlMs now key (set t0 key v s)) = None /\
  (forall later,
     fst (get ttlMs later key (snd (get ttlMs now key (set t0 key v s)))) = None) /\
  (forall k', k' <> key ->
     assoc k' (snd (get ttlMs now key (set t0 key v s))) = assoc k' s).
Proof.
  intros Hold.
  assert (E : get ttlMs now key (set t0 key v s)
              = (None, Map_delete key (set t0 key v s))).
  { unfold get, set. rewrite assoc_Map_set_same. simpl.
    destruct (Z.ltb_spec ttlMs (now - t0)); [reflexivity | lia]. }
  rewrite E. simpl. split; [reflexivity |]. split.
  - intros later. unfold get. rewrite assoc_Map_delete_same. reflexivity.
  - intros k' Hne. rewrite assoc_Map_delete_other by exact Hne.
    apply assoc_Map_set_other. exact Hne.
Qed.

(** X3.  The keys are independent: setting or invalidating one key never
    changes what [get] returns for another; [invalidate] makes [get]
    return [undefined] for its key, and [clear] for every key. *)
Theorem cache_keys_independent (ttlMs t now : Z) (key other : string) (v : V)
  (s : store V) :
  key <> other ->
  fst (get ttlMs now key (set t other v s)) = fst (get ttlMs now key s) /\
  fst (get ttlMs now key (invalidate other s)) = fst (get ttlMs now key s) /\
  fst (get ttlMs now key (invalidate key s)) = None /\
  fst (get ttlMs now key (clear s)) = None.
Proof.
  intros Hne. unfold get, set, invalidate, clear.
  rewrite assoc_Map_set_other by exact Hne.
  rewrite assoc_Map_delete_other by exact Hne.
  rewrite assoc_Map_delete_same. simpl.
  repeat split;
    destruct (assoc key s) as [e |]; try reflexivity;
    destruct (ttlMs <? now - ts e); reflexivity.
Qed.

End ToolCache.

Lemma cache_hit_within_ttl_witness :
  get 3600000 3600000 "tools/list" (set 0 "tools/list" 12%nat [])
  = (Some 12%nat, set 0 "tools/list" 12%nat []).
Proof.
  apply (cache_hit_within_ttl nat 3600000 0 3600000 "tools/list" 12%nat []).
  simpl. lia.
Defined.

Lemma cache_expired_entry_is_removed_witness :
  fst (get 3600000 3600001 "tools/list" (set 0 "tools/list" 12%nat [])) = None.
Proof.
  apply (cache_expired_entry_is_removed nat 3600000 0 3600001 "tools/list"
           12%nat []).
  simpl. lia.
Defined.

Lemma cache_keys_independent_witness :
  fst (get 3600000 5 "tools/list" (set 1 "other" 7%nat (set 0 "tools/list" 12%nat [])))
  = fst (get 3600000 5 "tools/list" (set 0 "tools/list" 12%nat [])).
Proof.
  apply (cache_keys_independent nat 3600000 1 5 "tools/list" "other" 7%nat
           (set 0 "tools/list" 12%nat [])).
  discriminate.
Defined.

End CacheSpec.

(* --------------------------------------------------------------------- *)
(** ** Runs of the rate limiter *)

Module LimiterRunsSpec.

Import Limiter LimiterRuns.

(** Within one day a call moves the day counter by one when it is let
    through and not at all when it is rejected; it is let through only
    below the daily cap. *)
Lemma acquire_day_count (o : options) (r : readings) (s : state) :
  at_day r - dayStart s < 86400000 ->
  dayStart (snd (acquire o r s)) = dayStart s /\
  dayCount (snd (acquire o r s))
    = dayCount s + (if rejected (fst (acquire o r s)) then 0 else 1) /\
  (rejected (fst (acquire o r s)) = false -> dayCount s < maxPerDay o).
Proof.
  intros Hday. unfold acquire, acquire_begin.
  rewrite (LimiterSpec.resetDay_not_elapsed _ _ Hday).
  destruct (Z.leb_spec (maxPerDay o) (dayCount s)) as [Hcap | Hcap]; simpl.
  - repeat split; try lia; try discriminate.
  - unfold acquire_resume, resetWindowIfNeeded.
    destruct (windowMs o <=? at_window r - windowStart s); simpl.
    + destruct (maxPerWindow o <=? 0); simpl;
        [destruct (windowMs o <=? at_wake r - at_window r) |]; simpl;
        repeat split; lia.
    + destruct (maxPerWindow o <=? windowCount s); simpl;
        [destruct (windowMs o <=? at_wake r - windowStart s) |]; simpl;
        repeat split; lia.
Qed.

Lemma let_through_cons (out : outcome) (outs : list outcome) :
  Z.of_nat (let_through (out :: outs))
  = (if rejected out then 0 else 1) + Z.of_nat (let_through outs).
Proof.
  unfold let_through. cbn [List.filter].
  destruct (rejected out); cbn [negb List.length];
    rewrite ?Nat2Z.inj_succ; lia.
Qed.

(** X4.  The daily cap is kept: in a run of awaited calls that lies
    within one day, the day counter grows by exactly the number of calls
    let through and never passes [maxPerDay]; so from a counter at zero
    at most [maxPerDay] calls are let through, and every further call is
    rejected. *)
Theorem daily_cap_is_kept (o : options) (calls : list readings) :
  forall s : state,
  Forall (fun r => at_day r - dayStart s < 86400000) calls ->
  dayCount s <= maxPerDay o ->
  dayCount (snd (acquire_all o calls s))
    = dayCount s + Z.of_nat (let_through (fst (acquire_all o calls s))) /\
  dayCount (snd (acquire_all o calls s)) <= maxPerDay o /\
  dayStart (snd (acquire_all o calls s)) = dayStart s.
Proof.
  induction calls as [| r rest IH]; intros s Hin Hcap.
  - simpl. unfold let_through. simpl. repeat split; lia.
  - rewrite LimiterSpec.acquire_all_cons. simpl fst. simpl snd.
    inversion Hin as [| r' rest' Hr Hrest]; subst r' rest'.
    destruct (acquire_day_count o r s Hr) as (Hstart & Hcount & Hadm).
    destruct (IH (snd (acquire o r s))) as (Hc & Hb & Hs).
    + rewrite Hstart. exact Hrest.
    + rewrite Hcount. destruct (rejected (fst (acquire o r s)));
        [lia | specialize (Hadm eq_refl); lia].
    + rewrite let_through_cons. repeat split; try lia; try congruence.
Qed.

Lemma daily_cap_is_kept_witness :
  let o := mkOptions 100 10000 2 in
  let calls := [mkReadings 1 1 1 1; mkReadings 2 2 2 2; mkReadings 3 3 3 3] in
  dayCount (snd (acquire_all o calls (createRateLimiter 0 0)))
    = 0 + Z.of_nat (let_through (fst (acquire_all o calls (createRateLimiter 0 0)))) /\
  dayCount (snd (acquire_all o calls (createRateLimiter 0 0))) <= 2.
Proof.
  intros o calls.
  destruct (daily_cap_is_kept o calls (createRateLimiter 0 0))
    as (H1 & H2 & _).
  - repeat constructor.
  - simpl. lia.
  - split; [exact H1 | exact H2].
Defined.

(** One call keeps both counters within their caps when its timer does
    not fire early. *)
Lemma acquire_within_caps (o : options) (r : readings) (s : state) :
  1 <= maxPerWindow o -> 0 <= maxPerDay o ->
  timer_sound o r s ->
  0 <= windowCount s <= maxPerWindow o ->
  0 <= dayCount s <= maxPerDay o ->
  0 <= windowCount (snd (acquire o r s)) <= maxPerWindow o /\
  0 <= dayCount (snd (acquire o r s)) <= maxPerDay o.
Proof.
  intros Hcap Hday Htimer Hw Hd. unfold timer_sound in Htimer.
  unfold acquire. unfold acquire_begin in *.
  destruct (LimiterSpec.resetDay_window (at_day r) s) as (Hws & Hwc & Hdc).
  set (sd := resetDayIfNeeded (at_day r) s) in *.
  destruct (Z.leb_spec (maxPerDay o) (dayCount sd)); simpl.
  - lia.
  - unfold resetWindowIfNeeded in *.
    destruct (Z.leb_spec (windowMs o) (at_window r - windowStart sd)); simpl in *.
    + destruct (Z.leb_spec (maxPerWindow o) 0); [lia |]. simpl. lia.
    + destruct (Z.leb_spec (maxPerWindow o) (windowCount sd)); simpl.
      * specialize (Htimer _ _ eq_refl). unfold acquire_resume.
        rewrite LimiterSpec.resetWindow_elapsed by lia. simpl. lia.
      * lia.
Qed.

(** X5.  In a run of awaited calls whose timers do not fire early, a
    limiter with a window cap of at least one keeps the window counter
    within [maxPerWindow] and the day counter within [maxPerDay]. *)
Theorem caps_are_kept (o : options) (calls : list readings) :
  forall s : state,
  1 <= maxPerWindow o -> 0 <= maxPerDay o ->
  timers_sound o calls s ->
  0 <= windowCount s <= maxPerWindow o ->
  0 <= dayCount s <= maxPerDay o ->
  0 <= windowCount (snd (acquire_all o calls s)) <= maxPerWindow o /\
  0 <= dayCount (snd (acquire_all o calls s)) <= maxPerDay o.
Proof.
  induction calls as [| r rest IH]; intros s Hcap Hday Htimers Hw Hd.
  - simpl. split; assumption.
  - rewrite LimiterSpec.acquire_all_cons. simpl snd.
    destruct Htimers as [Hr Hrest].
    destruct (acquire_within_caps o r s Hcap Hday Hr Hw Hd) as [Hw' Hd'].
    apply IH; assumption.
Qed.

Lemma caps_are_kept_witness :
  let o := mkOptions 1 10000 200000 in
  let calls := [mkReadings 1 1 1 1; mkReadings 2 2 2 10051] in
  0 <= windowCount (snd (acquire_all o calls (createRateLimiter 0 0))) <= 1 /\
  0 <= dayCount (snd (acquire_all o calls (createRateLimiter 0 0))) <= 200000.
Proof.
  intros o calls.
  apply (caps_are_kept o calls (createRateLimiter 0 0)).
  - simpl. lia.
  - simpl. lia.
  - simpl. split; [| split; [| exact I]].
    + intros w s1 H. discriminate H.
    + intros w s1 H. injection H as <- _. simpl. lia.
  - simpl. lia.
  - simpl. lia.
Defined.

Lemma resume_all_same_window (o : options) (t1 : Z) (wakes : list Z) :
  forall s : state,
  windowStart s = t1 ->
  Forall (fun t => t - t1 < windowMs o) wakes ->
  windowStart (resume_all o wakes s) = t1 /\
  windowCount (resume_all o wakes s)
    = windowCount s + Z.of_nat (List.length wakes) /\
  dayCount (resume_all o wakes s) = dayCount s + Z.of_nat (List.length wakes).
Proof.
  induction wakes as [| t rest IH]; intros s Hs Hin.
  - simpl. repeat split; lia.
  - inversion Hin as [| t' rest' Ht Hrest]; subst t' rest'.
    unfold resume_all in *. cbn [List.fold_left List.length].
    rewrite Nat2Z.inj_succ.
    destruct (IH (acquire_resume o t s)) as (H1 & H2 & H3).
    + unfold acquire_resume. rewrite LimiterSpec.resetWindow_not_elapsed by lia.
      exact Hs.
    + exact Hrest.
    + rewrite H1, H2, H3. unfold acquire_resume.
      rewrite LimiterSpec.resetWindow_not_elapsed by lia. simpl.
      repeat split; lia.
Qed.

(** X6.  The window cap is not checked again after the wait.  On a full
    window every caller is suspended and leaves the state as it is, so
    any number of callers can be waiting at once; when they wake after
    the window has run out, the first starts a new window and each of
    them counts itself, whatever the cap: the window counter ends at the
    number of callers. *)
Theorem waiters_are_not_rechecked (o : options) (s : state) (t1 : Z)
  (later : list Z) :
  maxPerWindow o <= windowCount s ->
  dayCount s < maxPerDay o ->
  windowMs o <= t1 - windowStart s ->
  Forall (fun t => t - t1 < windowMs o) later ->
  0 < windowMs o ->
  (forall r, at_day r - dayStart s < 86400000 ->
             at_window r - windowStart s < windowMs o ->
             acquire_begin o (at_day r) (at_window r) (at_wait r) s
             = Suspended (windowMs o - (at_wait r - windowStart s) + 50) s) /\
  windowStart (resume_all o (t1 :: later) s) = t1 /\
  windowCount (resume_all o (t1 :: later) s) = Z.of_nat (List.length (t1 :: later)) /\
  dayCount (resume_all o (t1 :: later) s)
    = dayCount s + Z.of_nat (List.length (t1 :: later)).
Proof.
  intros Hfull Hquota Helapsed Hlater Hpos. split.
  - intros r Hday Hwin. unfold acquire_begin.
    rewrite (LimiterSpec.resetDay_not_elapsed _ _ Hday).
    destruct (Z.leb_spec (maxPerDay o) (dayCount s)); [lia |].
    rewrite LimiterSpec.resetWindow_not_elapsed by exact Hwin.
    destruct (Z.leb_spec (maxPerWindow o) (windowCount s)); [reflexivity | lia].
  - change (resume_all o (t1 :: later) s)
      with (resume_all o later (acquire_resume o t1 s)).
    destruct (resume_all_same_window o t1 later (acquire_resume o t1 s))
      as (H1 & H2 & H3).
    + unfold acquire_resume. rewrite LimiterSpec.resetWindow_elapsed by exact Helapsed.
      reflexivity.
    + exact Hlater.
    + rewrite H1, H2, H3. unfold acquire_resume.
      rewrite LimiterSpec.resetWindow_elapsed by exact Helapsed.
      cbn [List.length]. rewrite Nat2Z.inj_succ.
      cbn [count_request windowCount dayCount windowStart dayStart].
      repeat split; lia.
Qed.

Lemma waiters_are_not_rechecked_witness :
  windowCount (resume_all (mkOptions 1 10000 200000) [10050; 10051; 10052]
                 (mkState 0 1 0 1)) = 3.
Proof.
  apply (waiters_are_not_rechecked (mkOptions 1 10000 200000)
           (mkState 0 1 0 1) 10050 [10051; 10052]).
  - simpl. lia.
  - simpl. lia.
  - simpl. lia.
  - repeat constructor.
  - simpl. lia.
Defined.

Lemma acquire_all_length (o : options) (calls : list readings) :
  forall s, List.length (fst (acquire_all o calls s)) = List.length calls.
Proof.
  induction calls as [| c cs IH]; intros s; [reflexivity |].
  rewrite LimiterSpec.acquire_all_cons. cbn [fst List.length].
  rewrite IH. reflexivity.
Qed.

Lemma let_through_all (outs : list outcome) :
  Forall (fun out => out = Immediate) outs -> let_through outs = List.length outs.
Proof.
  unfold let_through. induction 1 as [| out outs Hx _ IH]; [reflexivity |].
  subst out. cbn [List.filter rejected negb List.length]. rewrite IH.
  reflexivity.
Qed.

(** The day counter after a run within one day. *)
Lemma acquire_all_day (o : options) (calls : list readings) :
  forall s : state,
  Forall (fun r => at_day r - dayStart s < 86400000) calls ->
  dayCount (snd (acquire_all o calls s))
    = dayCount s + Z.of_nat (let_through (fst (acquire_all o calls s))) /\
  dayStart (snd (acquire_all o calls s)) = dayStart s.
Proof.
  induction calls as [| r rest IH]; intros s Hin.
  - simpl. unfold let_through. simpl. split; lia.
  - rewrite LimiterSpec.acquire_all_cons. simpl fst. simpl snd.
    inversion Hin as [| r' rest' Hr Hrest]; subst r' rest'.
    destruct (acquire_day_count o r s Hr) as (Hstart & Hcount & _).
    destruct (IH (snd (acquire o r s))) as (Hc & Hs).
    + rewrite Hstart. exact Hrest.
    + rewrite let_through_cons. split; [| congruence].
      rewrite Hc, Hcount. destruct (rejected (fst (acquire o r s))); lia.
Qed.

(** X7.  [stats()] after [n] calls made from a new limiter inside its
    first window and day, [n] within both caps: [n] slots less remain in
    the window and in the day, and the day's count is [n]. *)
Theorem stats_after_acquires (o : options) (t0 t_window t_day : Z)
  (calls : list readings) :
  Forall (fun r => at_window r - t0 < windowMs o) calls ->
  Forall (fun r => at_day r - t0 < 86400000) calls ->
  Z.of_nat (List.length calls) <= maxPerWindow o ->
  Z.of_nat (List.length calls) <= maxPerDay o ->
  t_window - t0 < windowMs o ->
  t_day - t0 < 86400000 ->
  fst (stats o t_window t_day
         (snd (acquire_all o calls (createRateLimiter t0 t0))))
  = mkStats (maxPerWindow o - Z.of_nat (List.length calls))
      (maxPerDay o - Z.of_nat (List.length calls))
      (Z.of_nat (List.length calls)).
Proof.
  intros Hwin Hday Hn Hm Htw Htd.
  set (s0 := createRateLimiter t0 t0).
  destruct (LimiterSpec.acquire_all_granted o t0 calls s0)
    as (Hout & Hws & Hwc & _); try reflexivity; try assumption;
    try (simpl; lia).
  destruct (acquire_all_day o calls s0 Hday) as (Hdc & Hds).
  assert (Hadm : let_through (fst (acquire_all o calls s0)) = List.length calls).
  { rewrite <- (acquire_all_length o calls s0). apply let_through_all. exact Hout. }
  set (s := snd (acquire_all o calls s0)) in *.
  unfold stats. rewrite LimiterSpec.resetWindow_not_elapsed by (rewrite Hws; exact Htw).
  rewrite LimiterSpec.resetDay_not_elapsed by (rewrite Hds; exact Htd).
  simpl. rewrite Hwc, Hdc, Hadm. simpl. f_equal; lia.
Qed.

Lemma stats_after_acquires_witness :
  fst (stats default_options 500 500
         (snd (acquire_all default_options
                 [mkReadings 100 100 100 100; mkReadings 200 200 200 200]
                 (createRateLimiter 0 0))))
  = mkStats (100 - 2) (200000 - 2) 2.
Proof.
  apply (stats_after_acquires default_options 0 500 500
           [mkReadings 100 100 100 100; mkReadings 200 200 200 200]).
  - repeat constructor.
  - repeat constructor.
  - simpl. lia.
  - simpl. lia.
  - simpl. lia.
  - simpl. lia.
Defined.

End LimiterRunsSpec.

(* --------------------------------------------------------------------- *)
(** ** Recovery and delays of the retry policy *)

Module RetryRunsSpec.

Import Utils.

Section Recovery.

Variable A : Type.
Variable fn : nat -> result A.
Variable random : nat -> float.
Variable o : options.

Lemma attempts_recover (n : nat) :
  forall (fuel attempt : nat) (lastError : option jserror) (v : A),
  (n < fuel)%nat ->
  (attempt + n <= maxRetries o)%nat ->
  (forall k, (attempt <= k < attempt + n)%nat ->
             exists e, fn k = Throw e /\ shouldRetry o e = true) ->
  fn (attempt + n)%nat = Ok v ->
  fst (attempts fn random o fuel attempt lastError) = Ok v /\
  List.map (fun r => (attempt_of r, delay_of r))
    (snd (attempts fn random o fuel attempt lastError))
  = List.map (fun k => (k, backoff random o k)) (List.seq attempt n).
Proof.
  induction n as [| n IH]; intros fuel attempt lastError v Hfuel Hmax Hfail Hok.
  - destruct fuel as [| fuel]; [lia |]. simpl.
    rewrite Nat.add_0_r in Hok. rewrite Hok. split; reflexivity.
  - destruct fuel as [| fuel]; [lia |]. simpl.
    destruct (Hfail attempt) as (e & Hfn & Hs); [lia |].
    rewrite Hfn, Hs.
    destruct (Nat.eqb_spec attempt (maxRetries o)) as [He | _]; [lia |].
    simpl.
    destruct (IH fuel (S attempt) (Some e) v) as [Hres Hlog];
      [lia | lia | intros k Hk; apply Hfail; lia
       | rewrite <- Hok; f_equal; lia |].
    destruct (attempts fn random o fuel (S attempt) (Some e)) as [res log].
    simpl in *. split; [exact Hres |]. rewrite Hlog. reflexivity.
Qed.

End Recovery.

(** X8.  When the operation fails [n] times with errors the predicate
    accepts and then returns, [n] within [maxRetries], [withRetry]
    returns that value after [n + 1] calls; it has waited once after
    each of the attempts 0 to [n - 1], each time the delay of that
    attempt. *)
Theorem withRetry_recovers (A : Type) (fn : nat -> result A)
  (random : nat -> float) (o : options) (n : nat) (v : A) :
  (n <= maxRetries o)%nat ->
  (forall k, (k < n)%nat -> exists e, fn k = Throw e /\ shouldRetry o e = true) ->
  fn n = Ok v ->
  fst (withRetry fn random o) = Ok v /\
  List.map (fun r => (attempt_of r, delay_of r)) (snd (withRetry fn random o))
    = List.map (fun k => (k, backoff random o k)) (List.seq 0 n) /\
  calls_made fn random o = S n.
Proof.
  intros Hn Hfail Hok.
  destruct (attempts_recover A fn random o n (S (maxRetries o)) 0%nat None v)
    as [Hres Hlog]; [lia | lia | intros k Hk; apply Hfail; lia | exact Hok |].
  split; [exact Hres |]. split; [exact Hlog |].
  unfold calls_made, withRetry. f_equal.
  apply (f_equal (@List.length _)) in Hlog.
  rewrite !length_map, length_seq in Hlog. exact Hlog.
Qed.

Lemma withRetry_recovers_witness :
  let unavailable := Error "MCP HTTP 503: Service Unavailable" in
  let fn := fun k : nat => if (k <? 2)%nat then Throw unavailable else Ok 7%nat in
  fst (withRetry fn (fun _ => 0%float) default_options) = Ok 7%nat /\
  calls_made fn (fun _ => 0%float) default_options = 3%nat.
Proof.
  intros unavailable fn.
  destruct (withRetry_recovers nat fn (fun _ => 0%float) default_options 2 7%nat)
    as (Hres & _ & Hcalls).
  - simpl. lia.
  - intros k Hk. exists unavailable.
    destruct k as [| [| k]]; [split; reflexivity | split; reflexivity | lia].
  - reflexivity.
  - split; [exact Hres | exact Hcalls].
Defined.

Section Ago.

Variable Date_parse : string -> option Z.

(** X10.  [timeAgo] counts whole units of the elapsed time: a date less
    than a minute ago, or in the future, is [just now]; otherwise the
    number shown is the elapsed time divided by the minute, the hour or
    the day, rounded down, in the largest of these units that fits; a
    date that does not parse is rendered [NaNd ago]. *)
Theorem timeAgo_units (now : Z) (date : string) :
  match Date_parse date with
  | None => timeAgo Date_parse now date = "NaNd ago"
  | Some t =>
      (now - t < 60000 -> timeAgo Date_parse now date = "just now") /\
      (60000 <= now - t < 3600000 ->
       timeAgo Date_parse now date = show_Z ((now - t) / 60000) ++ "m ago") /\
      (3600000 <= now - t < 86400000 ->
       timeAgo Date_parse now date = show_Z ((now - t) / 3600000) ++ "h ago") /\
      (86400000 <= now - t ->
       timeAgo Date_parse now date = show_Z ((now - t) / 86400000) ++ "d ago")
  end.
Proof.
  unfold timeAgo. destruct (Date_parse date) as [t |]; [| reflexivity].
  set (d := now - t). cbn zeta.
  assert (Hh : d / 60000 / 60 = d / 3600000)
    by (rewrite Z.div_div by lia; reflexivity).
  assert (Hd : d / 60000 / 60 / 24 = d / 86400000)
    by (rewrite !Z.div_div by lia; reflexivity).
  rewrite Hd, Hh.
  repeat split; intros H.
  - destruct (Z.ltb_spec (d / 60000) 1) as [_ | Hc]; [reflexivity |].
    exfalso. assert (d / 60000 < 1) by (apply Z.div_lt_upper_bound; lia). lia.
  - destruct (Z.ltb_spec (d / 60000) 1) as [Hc | _].
    + exfalso. assert (1 <= d / 60000) by (apply Z.div_le_lower_bound; lia). lia.
    + destruct (Z.ltb_spec (d / 60000) 60) as [_ | Hc]; [reflexivity |].
      exfalso. assert (d / 60000 < 60) by (apply Z.div_lt_upper_bound; lia). lia.
  - destruct (Z.ltb_spec (d / 60000) 1) as [Hc | _].
    + exfalso. assert (1 <= d / 60000) by (apply Z.div_le_lower_bound; lia). lia.
    + destruct (Z.ltb_spec (d / 60000) 60) as [Hc | _].
      * exfalso. assert (60 <= d / 60000) by (apply Z.div_le_lower_bound; lia). lia.
      * destruct (Z.ltb_spec (d / 3600000) 24) as [_ | Hc]; [reflexivity |].
        exfalso. assert (d / 3600000 < 24) by (apply Z.div_lt_upper_bound; lia). lia.
  - destruct (Z.ltb_spec (d / 60000) 1) as [Hc | _].
    + exfalso. assert (1 <= d / 60000) by (apply Z.div_le_lower_bound; lia). lia.
    + destruct (Z.ltb_spec (d / 60000) 60) as [Hc | _].
      * exfalso. assert (60 <= d / 60000) by (apply Z.div_le_lower_bound; lia). lia.
      * destruct (Z.ltb_spec (d / 3600000) 24) as [Hc | _]; [| reflexivity].
        exfalso. assert (24 <= d / 3600000) by (apply Z.div_le_lower_bound; lia). lia.
Qed.

End Ago.

Lemma timeAgo_units_witness :
  timeAgo IsoDate.iso_read 1737374400000 "2025-01-18T10:00:00Z" = "2d ago".
Proof.
  pose proof (timeAgo_units IsoDate.iso_read 1737374400000 "2025-01-18T10:00:00Z")
    as H.
  change (IsoDate.iso_read "2025-01-18T10:00:00Z") with (Some 1737194400000) in H.
  destruct H as (_ & _ & _ & Hd). apply Hd. lia.
Defined.



End RetryRunsSpec.

(* --------------------------------------------------------------------- *)
(** ** The client's session *)

Module SessionSpec.

Import Session.

Lemma includes_prefix (p s : string) : includes p (p ++ s) = true.
Proof.
  assert (H : String.prefix p (p ++ s) = true).
  { induction p as [| c p IH]; simpl; [destruct s; reflexivity |].
    destruct (ascii_dec c c); [exact IH | contradiction]. }
  destruct p as [| c p]; [destruct s; reflexivity |].
  change (String c p ++ s)%string with (String c (p ++ s)%string) in *.
  cbn [includes]. rewrite H. reflexivity.
Qed.

Lemma includes_append (p a s : string) :
  includes p s = true -> includes p (a ++ s) = true.
Proof.
  intros H. induction a as [| c a IH]; simpl; [exact H |].
  rewrite IH. apply orb_true_r.
Qed.

Section Operations.

Variable JSON_parse : string -> option json.
Variable JSON_stringify : json -> string.

Section OneServer.

Variable server : nat -> sent -> Client.fetched.

Local Abbreviation initialize := (initialize JSON_parse JSON_stringify server).
Local Abbreviation callTool := (callTool JSON_parse JSON_stringify server).
Local Abbreviation roundtrip := (roundtrip JSON_parse JSON_stringify server).

(** What a handshake puts on the wire: the [initialize] request without
    a session header, and after a successful answer the notification. *)
Lemma initialize_wire (c : client) (w : net) :
  match initialize (c, w) with
  | (Throw _, (_, w1)) =>
      List.map request_of (wire w1)
      = (List.map request_of (wire w) ++ [initialize_request (requestId w + 1)])%list
      /\ requestId w1 = requestId w + 1
  | (Ok _, (c1, w1)) =>
      List.map request_of (wire w1)
      = (List.map request_of (wire w)
         ++ [initialize_request (requestId w + 1); initialized_notification])%list
      /\ requestId w1 = requestId w + 1 /\ initialized c1 = true
  end.
Proof.
  unfold Session.initialize, nextId, send. cbn [requestId wire id].
  destruct (Client.sendJsonRpc JSON_parse _ None _) as [resp | e]; cbn [wire requestId].
  - destruct (check_error JSON_stringify "MCP initialize error: " (Client.result_of resp)).
    + cbn [wire requestId initialized]. rewrite !map_app. cbn [List.map request_of].
      rewrite <- app_assoc. repeat split; reflexivity.
    + cbn [wire requestId]. rewrite map_app. split; reflexivity.
  - rewrite map_app. split; reflexivity.
Qed.

(** What [listTools] and [callTool] put on the wire for an initialized
    client: one request, with the next id and the session. *)
Lemma roundtrip_wire (method_ : string) (params_ : json) (prefix : string)
  (dflt : json) (c : client) (w : net) :
  initialized c = true ->
  wire (snd (snd (roundtrip method_ params_ prefix dflt (c, w))))
  = (wire w ++ [mkSent (mkRequest (Some (requestId w + 1)) method_ params_)
                  (header_of (sessionId c))])%list.
Proof.
  intros Hi. unfold Session.roundtrip, ensure_initialized, nextId, send.
  rewrite Hi. cbn [requestId wire id].
  destruct (Client.sendJsonRpc JSON_parse _ (sessionId c) _) as [resp | e];
    [destruct (check_error JSON_stringify prefix (Client.result_of resp)) |];
    reflexivity.
Qed.

(** X12.  [callTool] on a client that is not initialized performs the
    handshake exactly once before the tool call: the requests sent are
    [initialize], then [notifications/initialized], then [tools/call],
    the two requests with an id carrying consecutive ids; when the
    handshake fails, [callTool] fails with its error and no [tools/call]
    is sent.  On an initialized client [tools/call] is the only request
    sent. *)
Theorem callTool_handshake_once (name : string) (args : json) (c : client)
  (w : net) :
  (initialized c = true ->
   List.map request_of (wire (snd (snd (callTool name args (c, w)))))
   = (List.map request_of (wire w)
      ++ [call_request (requestId w + 1) name args])%list) /\
  (initialized c = false ->
   match initialize (c, w) with
   | (Throw e, st1) =>
       callTool name args (c, w) = (Throw e, st1) /\
       List.map request_of (wire (snd st1))
       = (List.map request_of (wire w)
          ++ [initialize_request (requestId w + 1)])%list
   | (Ok _, _) =>
       List.map request_of (wire (snd (snd (callTool name args (c, w)))))
       = (List.map request_of (wire w)
          ++ [initialize_request (requestId w + 1);
              initialized_notification;
              call_request (requestId w + 2) name args])%list /\
       initialized (fst (snd (callTool name args (c, w)))) = true
   end).
Proof.
  split.
  - intros Hi. unfold Session.callTool.
    rewrite (roundtrip_wire _ _ _ _ c w Hi), map_app. reflexivity.
  - intros Hi. pose proof (initialize_wire c w) as Hw.
    unfold Session.callTool, Session.roundtrip, ensure_initialized.
    rewrite Hi.
    destruct (initialize (c, w)) as [[v | e] [c1 w1]].
    + destruct Hw as (Hwire & Hid & Hinit).
      unfold nextId, send. cbn [requestId wire id].
      destruct (Client.sendJsonRpc JSON_parse _ (sessionId c1) _) as [resp | e];
        [destruct (check_error JSON_stringify _ (Client.result_of resp)) |];
        cbn [snd fst wire initialized]; rewrite map_app, Hwire, Hid;
        cbn [List.map request_of]; rewrite <- app_assoc;
        (split; [| exact Hinit]); unfold call_request;
        replace (requestId w + 1 + 1) with (requestId w + 2) by lia;
        reflexivity.
    + destruct Hw as [Hwire _]. split; [reflexivity | exact Hwire].
Qed.

(** X13.  On an initialized client with a session, [callTool] and
    [listTools] send the session in the header of their request and
    never lose it: afterwards the client has the session that the
    response announced, or the one it had when the response announced
    none or the call failed before a response was read. *)
Theorem session_is_kept (method_ : string) (params_ : json) (prefix : string)
  (dflt : json) (c : client) (w : net) (s : string) :
  initialized c = true ->
  sessionId c = Some s -> s <> EmptyString ->
  let after := fst (snd (roundtrip method_ params_ prefix dflt (c, w))) in
  let request := mkSent (mkRequest (Some (requestId w + 1)) method_ params_) (Some s) in
  List.last (wire (snd (snd (roundtrip method_ params_ prefix dflt (c, w))))) request
    = request /\
  truthy_opt (sessionId after) = true /\
  (forall r, server (List.length (wire w)) request = Client.Resolved r ->
             Client.mcp_session_id r = None -> sessionId after = Some s) /\
  (forall e, server (List.length (wire w)) request = Client.Rejected e ->
             sessionId after = Some s).
Proof.
  intros Hi Hs Hne after request.
  assert (Ht : truthy_opt (Some s) = true).
  { simpl. apply MonitorSpec.truthy_string_nonempty. exact Hne. }
  split.
  - rewrite (roundtrip_wire _ _ _ _ c w Hi). rewrite last_last.
    unfold header_of. rewrite Hs, Ht. reflexivity.
  - subst after. unfold Session.roundtrip, ensure_initialized, nextId, send.
    rewrite Hi. cbn [requestId wire id]. rewrite Hs, Ht.
    fold request.
    destruct (server (List.length (wire w)) request) as [e | r] eqn:Hsrv;
      cbn [Client.sendJsonRpc].
    + cbn [fst snd sessionId]. rewrite Hs. split; [exact Ht |].
      split; [discriminate | reflexivity].
    + destruct (Client.ok r); cbn [negb].
      * destruct (if includes "text/event-stream" (or_empty (Client.content_type r))
                  then _ else _) as [res | e]; cbn [Js.bind].
        -- cbn [Client.sessionId Client.result_of].
           assert (Hkeep : truthy_opt
                     (or_else (or_else (Client.mcp_session_id r) (Some s)) (Some s)) = true
                   /\ (Client.mcp_session_id r = None ->
                       or_else (or_else (Client.mcp_session_id r) (Some s)) (Some s) = Some s)).
           { unfold or_else.
             destruct (truthy_opt (Client.mcp_session_id r)) eqn:Hh.
             - rewrite Hh. split; [exact Hh |].
               intros Hn. rewrite Hn in Hh. discriminate Hh.
             - rewrite Ht. split; [exact Ht | reflexivity]. }
           destruct Hkeep as [Hk1 Hk2].
           destruct (check_error JSON_stringify prefix res);
             cbn [fst snd sessionId]; (split; [exact Hk1 |]);
             (split; [intros r' [= <-] Hnone; exact (Hk2 Hnone) | discriminate]).
        -- cbn [fst snd sessionId]. rewrite Hs. split; [exact Ht |].
           split; [reflexivity | discriminate].
      * cbn [fst snd sessionId]. rewrite Hs. split; [exact Ht |].
        split; [reflexivity | discriminate].
Qed.

(** X14.  When the response to [tools/call] carries a protocol error,
    [callTool] throws an error whose message is [MCP tools/call error],
    the name of the tool in parentheses, and the serialized error
    object; so the message includes the name of the failing tool. *)
Theorem callTool_error_names_tool (name : string) (args : json) (c : client)
  (w : net) (resp : Client.reply) (props : list (string * json)) (e : json) :
  initialized c = true ->
  Client.sendJsonRpc JSON_parse (Some (JNum (requestId w + 1))) (sessionId c)
    (server (List.length (wire w))
       (mkSent (call_request (requestId w + 1) name args)
          (header_of (sessionId c)))) = Ok resp ->
  Client.result_of resp = JObj props ->
  assoc "error" props = Some e ->
  truthy (Some e) = true ->
  exists msg,
    fst (callTool name args (c, w)) = Throw (Error msg) /\
    msg = ("MCP tools/call error (" ++ name ++ "): " ++ JSON_stringify e)%string /\
    includes name msg = true.
Proof.
  intros Hi Hsend Hres Herr He.
  exists ("MCP tools/call error (" ++ name ++ "): " ++ JSON_stringify e)%string.
  split; [| split; [reflexivity |]].
  - unfold Session.callTool, Session.roundtrip, ensure_initialized, nextId, send.
    rewrite Hi. cbn [requestId wire id].
    unfold call_request, header_of in Hsend. rewrite Hsend.
    unfold check_error. rewrite Hres. cbn [get Js.bind]. rewrite Herr, He.
    cbn [fst]. do 2 f_equal. cbn [append].
    rewrite (CodecSpec.append_assoc name "): " (JSON_stringify e)). reflexivity.
  - apply (includes_append name "MCP tools/call error (").
    apply includes_prefix.
Qed.

(** X15.  A handshake that fails leaves the client uninitialized and
    sends no notification.  A response that is not OK is reported with
    its status and body, and the client is as before.  A response that
    carries a protocol error is reported with the serialized error; the
    session announced by that response has been stored all the same. *)
Theorem initialize_failure (c : client) (w : net) (r : Client.response) :
  initialized c = false ->
  server (List.length (wire w))
    (mkSent (initialize_request (requestId w + 1)) None) = Client.Resolved r ->
  (Client.ok r = false ->
   initialize (c, w)
   = (Throw (Error ("MCP HTTP " ++ show_Z (Client.status r) ++ ": "
                    ++ match Client.text r with Ok t => t | Throw _ => "" end)),
      (c, mkNet (requestId w + 1)
            (wire w ++ [mkSent (initialize_request (requestId w + 1)) None])))) /\
  (forall resp props e,
     Client.sendJsonRpc JSON_parse (Some (JNum (requestId w + 1))) None
       (Client.Resolved r) = Ok resp ->
     Client.result_of resp = JObj props ->
     assoc "error" props = Some e -> truthy (Some e) = true ->
     initialize (c, w)
     = (Throw (Error ("MCP initialize error: " ++ JSON_stringify e)),
        (mkClient (Client.sessionId resp) false (serverCapabilities c) (serverInfo c),
         mkNet (requestId w + 1)
           (wire w ++ [mkSent (initialize_request (requestId w + 1)) None])))).
Proof.
  intros Hi Hsrv. unfold initialize_request in *. split.
  - intros Hok. unfold Session.initialize, nextId, send.
    cbn [requestId wire id truthy_opt]. rewrite Hsrv.
    cbn [Client.sendJsonRpc]. rewrite Hok. reflexivity.
  - intros resp props e Hsend Hres Herr He.
    unfold Session.initialize, nextId, send.
    cbn [requestId wire id truthy_opt]. rewrite Hsrv, Hsend.
    unfold check_error. rewrite Hres. cbn [get Js.bind]. rewrite Herr, He.
    rewrite Hi. reflexivity.
Qed.

End OneServer.

(** X16.  The outcome of the [notifications/initialized] request is
    discarded: two servers that answer the [initialize] request alike
    give the same result of [initialize], the same client and the same
    requests sent, whatever they do with the notification. *)
Theorem initialize_ignores_notification (server1 server2 : nat -> sent -> Client.fetched)
  (c : client) (w : net) :
  server1 (List.length (wire w))
    (mkSent (initialize_request (requestId w + 1)) None)
  = server2 (List.length (wire w))
      (mkSent (initialize_request (requestId w + 1)) None) ->
  Session.initialize JSON_parse JSON_stringify server1 (c, w)
  = Session.initialize JSON_parse JSON_stringify server2 (c, w).
Proof.
  intros H. unfold Session.initialize, nextId, send, initialize_request in *.
  cbn [requestId wire id truthy_opt]. rewrite H.
  destruct (Client.sendJsonRpc JSON_parse _ None _) as [resp | e]; [| reflexivity].
  destruct (check_error JSON_stringify _ (Client.result_of resp)); reflexivity.
Qed.

End Operations.

Lemma callTool_handshake_once_witness :
  List.map request_of
    (wire (snd (snd (Session.callTool JsonReader.json_read JsonWriter.json_write
                       Servers.healthy "get-contacts" (JObj []) Servers.fresh))))
  = [initialize_request 1; initialized_notification;
     call_request 2 "get-contacts" (JObj [])].
Proof.
  destruct (callTool_handshake_once JsonReader.json_read JsonWriter.json_write
              Servers.healthy "get-contacts" (JObj []) new_client (mkNet 0 []))
    as [_ H].
  specialize (H eq_refl). vm_compute in H. destruct H as [H _].
  vm_compute. exact H.
Defined.

Lemma session_is_kept_witness :
  sessionId (fst (snd (Session.callTool JsonReader.json_read JsonWriter.json_write
                         Servers.healthy "get-contacts" (JObj []) Servers.connected)))
  = Some "sess-1".
Proof.
  pose proof (session_is_kept JsonReader.json_read JsonWriter.json_write
                Servers.healthy "tools/call" (call_params "get-contacts" (JObj []))
                "MCP tools/call error (get-contacts): " (JObj [])
                (fst Servers.connected) (snd Servers.connected) "sess-1"
                eq_refl eq_refl ltac:(discriminate)) as H.
  cbv zeta in H. destruct H as (_ & _ & H & _).
  eapply H; reflexivity.
Defined.

Lemma callTool_error_names_tool_witness :
  exists msg,
    fst (Session.callTool JsonReader.json_read JsonWriter.json_write
           Servers.unknown_tool "no-such-tool" (JObj []) Servers.connected)
    = Throw (Error msg)
    /\ includes "no-such-tool" msg = true.
Proof.
  edestruct (callTool_error_names_tool JsonReader.json_read JsonWriter.json_write
               Servers.unknown_tool "no-such-tool" (JObj [])
               (fst Servers.connected) (snd Servers.connected))
    as (msg & H1 & _ & H3);
    [reflexivity | vm_compute; reflexivity | reflexivity | reflexivity | reflexivity |].
  exists msg. split; assumption.
Defined.

Lemma initialize_failure_witness :
  Session.initialize JsonReader.json_read JsonWriter.json_write Servers.unauthorized
    Servers.fresh
  = (Throw (Error "MCP HTTP 401: Unauthorized"),
     (new_client, mkNet 1 [mkSent (initialize_request 1) None])).
Proof.
  destruct (initialize_failure JsonReader.json_read JsonWriter.json_write
              Servers.unauthorized new_client (mkNet 0 [])
              (Client.mkResponse false 401 (Ok "Unauthorized") None
                 (Some "text/plain") ["Unauthorized"]) eq_refl eq_refl) as [H _].
  exact (H eq_refl).
Defined.

Lemma initialize_ignores_notification_witness :
  Session.initialize JsonReader.json_read JsonWriter.json_write Servers.healthy
    Servers.fresh
  = Session.initialize JsonReader.json_read JsonWriter.json_write
      Servers.refusing_notification Servers.fresh.
Proof.
  apply (initialize_ignores_notification JsonReader.json_read JsonWriter.json_write
           Servers.healthy Servers.refusing_notification new_client (mkNet 0 [])).
  reflexivity.
Defined.

End SessionSpec.

(* --------------------------------------------------------------------- *)
(** ** The decoder and the chunk boundaries *)

Module CodecRunsSpec.

Import Codec.

Section Chunks.

Variable JSON_parse : string -> option json.

Lemma parsed_app (a b : list string) :
  parsed JSON_parse (a ++ b) = (parsed JSON_parse a ++ parsed JSON_parse b)%list.
Proof.
  induction a as [| p a IH]; [reflexivity |].
  cbn [parsed app]. destruct (JSON_parse p); rewrite IH; reflexivity.
Qed.

Lemma one_line_app (a b : string) :
  one_line (a ++ b) = one_line a && one_line b.
Proof.
  induction a as [| c a IH]; [reflexivity |].
  cbn [append one_line]. rewrite IH. apply andb_assoc.
Qed.

(** A chunk of whole frames read on an empty buffer leaves the buffer
    empty and adds the parsed payloads. *)
Lemma read_loop_frames (payloads : list string) (more : list string)
  (messages : list json) :
  Forall (fun p => one_line p = true) payloads ->
  Forall (fun p => truthy_string p = true) payloads ->
  read_loop JSON_parse (stream_of payloads :: more) "" messages
  = read_loop JSON_parse more "" (messages ++ parsed JSON_parse payloads)%list.
Proof.
  intros Hl Ht. cbn [read_loop].
  change ("" ++ stream_of payloads)%string with (stream_of payloads).
  rewrite (CodecSpec.split_lf_stream payloads Hl), CodecSpec.pop_snoc.
  cbn [or_empty]. rewrite (CodecSpec.for_lines_frames JSON_parse payloads Ht).
  reflexivity.
Qed.

Lemma read_loop_groups (groups : list (list string)) :
  Forall (Forall (fun p => one_line p = true)) groups ->
  Forall (Forall (fun p => truthy_string p = true)) groups ->
  forall messages,
  read_loop JSON_parse (List.map stream_of groups) "" messages
  = (EmptyString, (messages ++ parsed JSON_parse (List.concat groups))%list).
Proof.
  induction groups as [| g groups IH]; intros Hl Ht messages.
  - cbn. rewrite app_nil_r. reflexivity.
  - inversion Hl as [| ? ? Hg Hgs]; subst. inversion Ht as [| ? ? Tg Tgs]; subst.
    cbn [List.map List.concat]. rewrite (read_loop_frames g _ _ Hg Tg).
    rewrite (IH Hgs Tgs), parsed_app, app_assoc. reflexivity.
Qed.

(** X17.  Chunk boundaries that fall between frames are harmless: when
    every chunk holds whole frames, each payload a non-empty line, the
    body decodes to the parsed payloads of all the chunks in order, as
    if it had come in one chunk. *)
Theorem parseSSE_chunks_of_frames (groups : list (list string)) :
  Forall (Forall (fun p => one_line p = true)) groups ->
  Forall (Forall (fun p => truthy_string p = true)) groups ->
  parseSSEResponse JSON_parse (List.map stream_of groups)
  = parsed JSON_parse (List.concat groups) /\
  parseSSEResponse JSON_parse (List.map stream_of groups)
  = parseSSEResponse JSON_parse [stream_of (List.concat groups)].
Proof.
  intros Hl Ht.
  assert (H : parseSSEResponse JSON_parse (List.map stream_of groups)
              = parsed JSON_parse (List.concat groups)).
  { unfold parseSSEResponse. rewrite (read_loop_groups groups Hl Ht []).
    reflexivity. }
  split; [exact H |]. rewrite H. symmetry.
  apply CodecSpec.parseSSE_one_chunk.
  - clear -Hl. induction Hl as [| g groups Hg _ IH]; [constructor |].
    cbn [List.concat]. apply Forall_app. split; assumption.
  - clear -Ht. induction Ht as [| g groups Hg _ IH]; [constructor |].
    cbn [List.concat]. apply Forall_app. split; assumption.
Qed.

(** X18.  A chunk boundary inside a line is harmless: the text before
    it waits in the buffer.  A frame cut anywhere in its [data: ] line
    decodes to its payload. *)
Theorem parseSSE_boundary_inside_line (s1 s2 payload : string) :
  (s1 ++ s2)%string = ("data: " ++ payload)%string ->
  one_line payload = true ->
  truthy_string payload = true ->
  parseSSEResponse JSON_parse [s1; (s2 ++ nl ++ nl)%string]
  = parsed JSON_parse [payload].
Proof.
  intros Hcut Hl Ht.
  assert (H1 : one_line s1 = true).
  { assert (H : one_line (s1 ++ s2) = true)
      by (rewrite Hcut, one_line_app, Hl; reflexivity).
    rewrite one_line_app in H. apply andb_prop in H. tauto. }
  unfold parseSSEResponse. cbn [read_loop].
  change ("" ++ s1)%string with s1.
  rewrite (CodecSpec.split_lf_one_line s1 H1). cbn [pop or_empty for_lines].
  rewrite <- CodecSpec.append_assoc, Hcut.
  assert (E : (("data: " ++ payload) ++ nl ++ nl)%string = stream_of [payload]).
  { cbn [stream_of]. unfold frame.
    rewrite (CodecSpec.append_assoc "data: " payload (nl ++ nl)).
    generalize ("data: " ++ payload ++ nl ++ nl)%string. intros s.
    induction s as [| c s IH]; cbn; [reflexivity | rewrite <- IH; reflexivity]. }
  rewrite E.
  rewrite (CodecSpec.split_lf_stream [payload]) by (constructor; [exact Hl | constructor]).
  rewrite CodecSpec.pop_snoc. cbn [or_empty].
  rewrite (CodecSpec.for_lines_frames JSON_parse [payload])
    by (constructor; [exact Ht | constructor]).
  reflexivity.
Qed.

End Chunks.

Lemma parseSSE_chunks_of_frames_witness :
  parseSSEResponse JsonReader.json_read
    (List.map stream_of
       [[JsonReader.dq "{'jsonrpc':'2.0','method':'notifications/progress'}"];
        [JsonReader.dq "{'jsonrpc':'2.0','id':7,'result':{}}"]])
  = [JObj [("jsonrpc", JStr "2.0"); ("method", JStr "notifications/progress")];
     Samples.response_7].
Proof.
  destruct (parseSSE_chunks_of_frames JsonReader.json_read
              [[JsonReader.dq "{'jsonrpc':'2.0','method':'notifications/progress'}"];
               [JsonReader.dq "{'jsonrpc':'2.0','id':7,'result':{}}"]]) as [H _].
  - repeat constructor.
  - repeat constructor.
  - rewrite H. reflexivity.
Defined.

Lemma parseSSE_boundary_inside_line_witness :
  parseSSEResponse JsonReader.json_read
    [JsonReader.dq "data: {'jsonrpc':'2.0',";
     (JsonReader.dq "'id':7,'result':{}}" ++ nl ++ nl)%string]
  = [Samples.response_7].
Proof.
  rewrite (parseSSE_boundary_inside_line JsonReader.json_read
             (JsonReader.dq "data: {'jsonrpc':'2.0',")
             (JsonReader.dq "'id':7,'result':{}}")
             (JsonReader.dq "{'jsonrpc':'2.0','id':7,'result':{}}")
             eq_refl eq_refl eq_refl).
  reflexivity.
Defined.

End CodecRunsSpec.

(* --------------------------------------------------------------------- *)
(** ** Decoding the payload of a tool result *)

Module ContentSpec.

Import Content.

Section ParseContent.

Variable JSON_parse : string -> option json.
Variable ToString : json -> string.

Local Abbreviation parseContent := (parseContent JSON_parse ToString).

Lemma text_of_envelope (text : string) : text_of (envelope text) = Some (JStr text).
Proof. reflexivity. Qed.

(** X19.  [parseContent] undoes the text envelope of the protocol: a
    payload serialized into the text of the first content item is read
    back as it was, whenever [JSON.parse] reads that text back.  When
    the text is not JSON, the result itself is returned, and so is a
    result that has no [content]; nothing is thrown. *)
Theorem parseContent_envelope (JSON_stringify : json -> string) (payload : json)
  (text : string) (props : list (string * json)) :
  JSON_parse (JSON_stringify payload) = Some payload ->
  JSON_stringify payload <> EmptyString ->
  JSON_parse text = None ->
  assoc "content" props = None ->
  parseContent (Some (envelope (JSON_stringify payload))) = payload /\
  parseContent (Some (envelope text)) = envelope text /\
  parseContent (Some (JObj props)) = JObj props /\
  parseContent None = JObj [] /\
  parseContent (Some JNull) = JObj [].
Proof.
  intros Hround Hne Hbad Hnone. repeat split.
  - unfold Content.parseContent. rewrite text_of_envelope.
    cbn [truthy negb envelope].
    rewrite (proj2 (MonitorSpec.truthy_string_nonempty _) Hne).
    unfold parse_text. rewrite Hround. reflexivity.
  - unfold Content.parseContent. rewrite text_of_envelope.
    cbn [truthy negb envelope]. unfold parse_text. rewrite Hbad.
    destruct (truthy_string text); reflexivity.
  - unfold Content.parseContent, text_of, Session.chain.
    cbn [truthy negb get]. rewrite Hnone. reflexivity.
Qed.

End ParseContent.

Lemma parseContent_envelope_witness :
  Content.parseContent JsonReader.json_read JsonWriter.json_write
    (Some (envelope (JsonReader.dq "{'contacts':[{'id':'c1'}],'total':1}")))
  = JObj [("contacts", JArr [JObj [("id", JStr "c1")]]); ("total", JNum 1)].
Proof.
  destruct (parseContent_envelope JsonReader.json_read JsonWriter.json_write
              JsonWriter.json_write
              (JObj [("contacts", JArr [JObj [("id", JStr "c1")]]); ("total", JNum 1)])
              "not json" [("success", JBool true)]
              eq_refl ltac:(discriminate) eq_refl eq_refl) as [H _].
  exact H.
Defined.

End ContentSpec.

(* --------------------------------------------------------------------- *)
(** ** The checks of the monitor over their loops *)

Module MonitorRunsSpec.

Import Monitor Loops.

Section Bottlenecks.

Variable Date_parse : string -> option Z.

(** The number of items that a set of groups holds. *)
Local Abbreviation size g :=
  (list_sum (List.map (fun e : string * list opp_item => List.length (snd e)) g)).

Lemma list_sum_cons (x : nat) (l : list nat) :
  list_sum (x :: l) = (x + list_sum l)%nat.
Proof. reflexivity. Qed.

Lemma size_push_group (k : string) (item : opp_item)
  (g : list (string * list opp_item)) :
  size (push_group k item g) = S (size g).
Proof.
  induction g as [| [k' l] g IH]; cbn [push_group]; [reflexivity |].
  destruct (String.eqb k' k); cbn [List.map snd]; rewrite ?list_sum_cons.
  - rewrite length_app. cbn [List.length]. lia.
  - rewrite IH. lia.
Qed.

Lemma size_group_stuck (now : Z) (cutoff : option Z) (p : pipeline)
  (opps : list opportunity) :
  forall g g',
  group_stuck Date_parse now cutoff p opps g = Ok g' ->
  size g'
  = (size g + List.length (List.filter (is_stuck Date_parse cutoff) opps))%nat.
Proof.
  induction opps as [| o opps IH]; intros g g' H;
    cbn [group_stuck List.filter] in *.
  - injection H as <-. cbn [List.length]. lia.
  - destruct (is_stuck Date_parse cutoff o); cbn [List.length].
    + destruct (is_inherited (stage_key p o)); [discriminate |].
      rewrite (IH _ _ H), size_push_group. lia.
    + exact (IH _ _ H).
Qed.

Lemma size_nonempty (g : list (string * list opp_item)) :
  size (List.filter (fun e => Nat.ltb 0 (List.length (snd e))) g) = size g.
Proof.
  induction g as [| [k l] g IH]; [reflexivity |].
  cbn [List.filter]. destruct l as [| x l].
  - change (Nat.ltb 0 (List.length (snd (k, @nil opp_item)))) with false.
    cbv iota. rewrite IH. reflexivity.
  - change (Nat.ltb 0 (List.length (snd (k, x :: l)))) with true.
    cbv iota. cbn [List.map]. rewrite !list_sum_cons, IH. reflexivity.
Qed.

Lemma fold_counts (bs : list bottleneck) :
  forall acc : nat,
  List.fold_left (fun sum b => (sum + b_count b)%nat) bs acc
  = (acc + list_sum (List.map b_count bs))%nat.
Proof.
  induction bs as [| b bs IH]; intros acc; cbn [List.fold_left List.map]; rewrite ?list_sum_cons.
  - change (list_sum []) with 0%nat. lia.
  - rewrite IH. lia.
Qed.

(** The counts of the bottlenecks of one pipeline add up to the number
    of its stuck opportunities. *)
Lemma pipeline_bottlenecks_total (now : Z) (cutoff : option Z) (p : pipeline)
  (opps : list opportunity) (entries : list bottleneck) :
  pipeline_bottlenecks Date_parse now cutoff p opps = Ok entries ->
  list_sum (List.map b_count entries)
  = List.length (List.filter (is_stuck Date_parse cutoff) opps).
Proof.
  unfold pipeline_bottlenecks.
  destruct (group_stuck Date_parse now cutoff p opps []) as [g' | e] eqn:Hg;
    [| discriminate].
  cbn [Js.bind]. intros [= <-]. rewrite List.map_map.
  erewrite List.map_ext
    with (g := fun e : string * list opp_item => List.length (snd e))
    by (intros [k l]; reflexivity).
  rewrite size_nonempty.
  rewrite (Permutation_list_sum
             (Permutation_map _ (MonitorSpec.Object_entries_perm _))).
  rewrite (size_group_stuck _ _ _ _ _ _ Hg). reflexivity.
Qed.

Lemma for_pipelines_total (now : Z) (cutoff : option Z)
  (search : nat -> pipeline -> result (option (list opportunity)))
  (ps : list pipeline) :
  forall (i : nat) (acc bs : list bottleneck),
  for_pipelines Date_parse now cutoff search i ps acc = Ok bs ->
  list_sum (List.map b_count bs)
  = (list_sum (List.map b_count acc)
     + List.length (List.filter (is_stuck Date_parse cutoff) (searched search i ps)))%nat.
Proof.
  induction ps as [| p ps IH]; intros i acc bs H; cbn [for_pipelines searched] in *.
  - injection H as <-. cbn [List.filter List.length]. lia.
  - destruct (search i p) as [payload | e]; [| discriminate].
    cbn [Js.bind] in H.
    destruct (pipeline_bottlenecks Date_parse now cutoff p _) as [entries | e] eqn:He;
      [| discriminate].
    cbn [Js.bind] in H. rewrite (IH _ _ _ H).
    rewrite List.map_app, list_sum_app, (pipeline_bottlenecks_total _ _ _ _ _ He).
    rewrite List.filter_app, length_app.
    destruct payload; reflexivity || lia.
Qed.

(** The loop over the pipelines throws when a search does. *)
Lemma for_pipelines_throws (now : Z) (cutoff : option Z)
  (search : nat -> pipeline -> result (option (list opportunity))) :
  forall (ps : list pipeline) (i k : nat) (p : pipeline) (e : jserror)
         (acc : list bottleneck),
  nth_error ps k = Some p ->
  search (i + k)%nat p = Throw e ->
  is_ok (for_pipelines Date_parse now cutoff search i ps acc) = false.
Proof.
  induction ps as [| p0 ps IH]; intros i k p e acc Hn Hs.
  - destruct k; discriminate.
  - destruct k as [| k]; cbn [for_pipelines].
    + injection Hn as ->. rewrite Nat.add_0_r in Hs. rewrite Hs. reflexivity.
    + destruct (search i p0) as [payload | e0]; [| reflexivity].
      cbn [Js.bind].
      destruct (pipeline_bottlenecks Date_parse now cutoff p0 _) as [entries | e0];
        [| reflexivity].
      cbn [Js.bind]. apply (IH (S i) k p e); [exact Hn |].
      rewrite <- Hs. f_equal. lia.
Qed.

(** It throws the error of the search when the pipelines before it were
    searched and grouped. *)
Lemma for_pipelines_fails (now : Z) (cutoff : option Z)
  (search : nat -> pipeline -> result (option (list opportunity))) :
  forall (ps : list pipeline) (i k : nat) (p : pipeline) (e : jserror)
         (acc : list bottleneck),
  nth_error ps k = Some p ->
  search (i + k)%nat p = Throw e ->
  (forall j q, (j < k)%nat -> nth_error ps j = Some q ->
     exists payload,
       search (i + j)%nat q = Ok payload /\
       own_keys Date_parse cutoff q
         (match payload with Some l => l | None => [] end) = true) ->
  for_pipelines Date_parse now cutoff search i ps acc = Throw e.
Proof.
  induction ps as [| p0 ps IH]; intros i k p e acc Hn Hs Hok.
  - destruct k; discriminate.
  - destruct k as [| k]; cbn [for_pipelines].
    + injection Hn as ->. rewrite Nat.add_0_r in Hs. rewrite Hs. reflexivity.
    + destruct (Hok 0%nat p0 (Nat.lt_0_succ k) eq_refl) as (payload & H0 & Hown).
      rewrite Nat.add_0_r in H0. rewrite H0. cbn [Js.bind].
      destruct (MonitorSpec.pipeline_bottlenecks_returns Date_parse now cutoff p0 _ Hown)
        as [entries He].
      rewrite He. cbn [Js.bind]. apply (IH (S i) k p e).
      * exact Hn.
      * rewrite <- Hs. f_equal. lia.
      * intros j q Hj Hq.
        replace (S i + j)%nat with (i + S j)%nat by lia.
        apply Hok; [lia | exact Hq].
Qed.

(** X20.  One failing search fails the whole check: when the search of
    the opportunities of one of the first three pipelines throws,
    [checkPipelineBottlenecks] throws, and what the earlier pipelines
    gave is lost.  It throws the error of that search when the searches
    before it returned and none of the stuck opportunities they returned
    is filed under a name that an object inherits; such a name makes the
    check throw earlier. *)
Theorem bottlenecks_search_failure_aborts (now now_items : Z)
  (config : locationConfig) (pipelines : list pipeline)
  (search : nat -> pipeline -> result (option (list opportunity)))
  (k : nat) (p : pipeline) (e : jserror) :
  (k < 3)%nat ->
  nth_error pipelines k = Some p ->
  search k p = Throw e ->
  let stuckDays := threshold_or (loc_thresholds config) stuck_opportunity_days 7 in
  let cutoff := new_Date (now - stuckDays * 86400000) in
  is_ok (checkPipelineBottlenecks Date_parse now now_items config
           (Ok (Some pipelines)) search) = false /\
  ((forall j q, (j < k)%nat -> nth_error pipelines j = Some q ->
      exists payload,
        search j q = Ok payload /\
        own_keys Date_parse cutoff q
          (match payload with Some l => l | None => [] end) = true) ->
   checkPipelineBottlenecks Date_parse now now_items config
     (Ok (Some pipelines)) search = Throw e).
Proof.
  intros Hk Hn Hs stuckDays cutoff.
  assert (Hn3 : nth_error (List.firstn 3 pipelines) k = Some p).
  { rewrite nth_error_firstn. destruct (Nat.ltb_spec k 3); [exact Hn | lia]. }
  unfold checkPipelineBottlenecks. cbn [Js.bind]. split.
  - pose proof (for_pipelines_throws now_items cutoff search
                  (List.firstn 3 pipelines) 0 k p e [] Hn3 Hs) as H.
    fold stuckDays. fold cutoff.
    destruct (for_pipelines Date_parse now_items cutoff search 0
                (List.firstn 3 pipelines) []); [discriminate | reflexivity].
  - intros Hok. fold stuckDays. fold cutoff.
    rewrite (for_pipelines_fails now_items cutoff search (List.firstn 3 pipelines)
               0 k p e []).
    + reflexivity.
    + exact Hn3.
    + exact Hs.
    + intros j q Hj Hq. rewrite nth_error_firstn in Hq.
      destruct (Nat.ltb_spec j 3); [| discriminate].
      apply Hok; assumption.
Qed.

(** X21.  Nothing is lost or counted twice by the grouping: whenever
    the check returns a finding, its [count] is the number of stuck
    opportunities among those that the searches of the first three
    pipelines returned, and the sum of the counts of its bottlenecks.
    It returns a finding when these searches return and no stuck
    opportunity is filed under a name that an object inherits. *)
Theorem bottlenecks_count_is_conserved (now now_items : Z)
  (config : locationConfig) (pipelines : list pipeline)
  (search : nat -> pipeline -> result (option (list opportunity))) :
  let stuckDays := threshold_or (loc_thresholds config) stuck_opportunity_days 7 in
  let cutoff := new_Date (now - stuckDays * 86400000) in
  (forall f,
     checkPipelineBottlenecks Date_parse now now_items config
       (Ok (Some pipelines)) search = Ok f ->
     bf_count f
     = List.length
         (List.filter (is_stuck Date_parse cutoff)
            (searched search 0 (List.firstn 3 pipelines))) /\
     bf_count f = list_sum (List.map b_count (bf_bottlenecks f))) /\
  ((forall j q,
      nth_error (List.firstn 3 pipelines) j = Some q ->
      exists payload,
        search j q = Ok payload /\
        own_keys Date_parse cutoff q
          (match payload with Some l => l | None => [] end) = true) ->
   is_ok (checkPipelineBottlenecks Date_parse now now_items config
            (Ok (Some pipelines)) search) = true).
Proof.
  intros stuckDays cutoff.
  unfold checkPipelineBottlenecks. cbn [Js.bind]. fold stuckDays. fold cutoff.
  split.
  - intros f H.
    destruct (for_pipelines Date_parse now_items cutoff search 0
                (List.firstn 3 pipelines) [])
      as [bs | e] eqn:Hfor; [| discriminate].
    cbn [Js.bind] in H. injection H as <-. cbn [bf_count bf_bottlenecks].
    rewrite fold_counts. cbn [Nat.add].
    split; [| reflexivity].
    rewrite (for_pipelines_total _ _ _ _ _ _ _ Hfor). reflexivity.
  - intros Hok.
    destruct (MonitorSpec.for_pipelines_extends Date_parse now_items cutoff search
                (List.firstn 3 pipelines) 0%nat [] Hok) as [more ->].
    reflexivity.
Qed.

End Bottlenecks.

Lemma bottlenecks_search_failure_aborts_witness :
  checkPipelineBottlenecks IsoDate.iso_read Samples.noon_jan_20 Samples.noon_jan_20
    Samples.location_48h
    (Ok (Some [Samples.audit_pipeline; Samples.audit_pipeline]))
    (fun i _ => match i with
                | O => Ok (Some [Samples.opp_audit])
                | _ => Throw Samples.connection_refused
                end)
  = Throw Samples.connection_refused.
Proof.
  apply (bottlenecks_search_failure_aborts IsoDate.iso_read Samples.noon_jan_20
           Samples.noon_jan_20 Samples.location_48h
           [Samples.audit_pipeline; Samples.audit_pipeline] _ 1%nat
           Samples.audit_pipeline Samples.connection_refused).
  - lia.
  - reflexivity.
  - reflexivity.
  - intros j q Hj Hq. destruct j as [| j]; [| lia].
    injection Hq as <-. eexists. split; reflexivity.
Defined.

Lemma bottlenecks_count_is_conserved_witness :
  exists f,
    checkPipelineBottlenecks IsoDate.iso_read Samples.noon_jan_20 Samples.noon_jan_20
      Samples.location_48h (Ok (Some [Samples.audit_pipeline]))
      (fun _ _ => Ok (Some [Samples.opp_audit; Samples.opp_recent; Samples.opp_no_value]))
    = Ok f /\ bf_count f = 2%nat.
Proof.
  eexists. split; [vm_compute; reflexivity |].
  refine (eq_trans
            (proj1 (proj1 (bottlenecks_count_is_conserved IsoDate.iso_read
                      Samples.noon_jan_20 Samples.noon_jan_20 Samples.location_48h
                      [Samples.audit_pipeline]
                      (fun _ _ => Ok (Some [Samples.opp_audit; Samples.opp_recent;
                                            Samples.opp_no_value])))
                      _ _)) _).
  - vm_compute. reflexivity.
  - vm_compute. reflexivity.
Defined.

Section Followups.

Variable Date_parse : string -> option Z.
Variable trim : string -> string.

Local Abbreviation checkMissedFollowups := (checkMissedFollowups Date_parse trim).
Local Abbreviation for_contacts := (for_contacts Date_parse trim).
Local Abbreviation for_tasks := (for_tasks Date_parse trim).
Local Abbreviation is_overdue := (is_overdue Date_parse).

(** A failure of [getContactTasks] read as a payload without tasks. *)
Local Abbreviation tolerant getTasks :=
  (fun (i : nat) (c : contact) =>
     match getTasks i c with
     | Throw _ => Ok (@None (list task))
     | Ok payload => Ok payload
     end).

Lemma for_contacts_tolerant (now : Z) (clock : nat -> Z)
  (getTasks : nat -> contact -> result (option (list task))) (cs : list contact) :
  forall (i : nat) (overdue : list overdue_item),
  for_contacts now clock getTasks i cs overdue
  = for_contacts now clock (tolerant getTasks) i cs overdue.
Proof.
  induction cs as [| c cs IH]; intros i overdue; [reflexivity |].
  cbn [Loops.for_contacts]. rewrite IH.
  destruct (getTasks i c); reflexivity.
Qed.

Lemma for_tasks_length (now : Z) (clock : nat -> Z) (c : contact)
  (tasks : list task) :
  forall overdue : list overdue_item,
  List.length (for_tasks now clock c tasks overdue)
  = (List.length overdue + List.length (List.filter (is_overdue now) tasks))%nat.
Proof.
  induction tasks as [| t tasks IH]; intros overdue;
    cbn [Loops.for_tasks List.filter].
  - cbn [List.length]. lia.
  - rewrite IH. destruct (Loops.is_overdue Date_parse now t).
    + rewrite length_app. cbn [List.length]. lia.
    + reflexivity.
Qed.

Lemma for_contacts_length (now : Z) (clock : nat -> Z)
  (getTasks : nat -> contact -> result (option (list task))) (cs : list contact) :
  forall (i : nat) (overdue : list overdue_item),
  List.length (for_contacts now clock getTasks i cs overdue)
  = (List.length overdue
     + List.length (List.filter (is_overdue now) (asked_tasks getTasks i cs)))%nat.
Proof.
  induction cs as [| c cs IH]; intros i overdue;
    cbn [Loops.for_contacts asked_tasks].
  - cbn [List.filter List.length]. lia.
  - rewrite IH, List.filter_app, length_app.
    destruct (getTasks i c) as [[l |] | e]; rewrite ?for_tasks_length;
      cbn [List.filter List.length]; lia.
Qed.

(** X22.  [checkMissedFollowups] survives the failures of
    [getContactTasks]: once the contacts are fetched it returns a
    finding, and a contact whose tasks cannot be fetched counts as a
    contact without tasks.  Contacts after the twentieth are not asked
    for their tasks. *)
Theorem followups_skip_failed_contacts (now : Z) (clock : nat -> Z)
  (contacts extra : list contact)
  (getTasks : nat -> contact -> result (option (list task))) :
  is_ok (checkMissedFollowups now clock (Ok (Some contacts)) getTasks) = true /\
  checkMissedFollowups now clock (Ok (Some contacts)) getTasks
  = checkMissedFollowups now clock (Ok (Some contacts)) (tolerant getTasks) /\
  ((20 <= List.length contacts)%nat ->
   checkMissedFollowups now clock (Ok (Some (contacts ++ extra)%list)) getTasks
   = checkMissedFollowups now clock (Ok (Some contacts)) getTasks).
Proof.
  unfold Loops.checkMissedFollowups. cbn [Js.bind]. repeat split.
  - rewrite <- for_contacts_tolerant. reflexivity.
  - intros Hlen. rewrite List.firstn_app.
    replace (20 - List.length contacts)%nat with 0%nat by lia.
    cbn [List.firstn]. rewrite app_nil_r. reflexivity.
Qed.

(** X23.  The [count] of the finding of [checkMissedFollowups] is the
    number of overdue tasks among the tasks fetched for the first twenty
    contacts: a task with a due date before the clock reading that is
    not completed.  At most ten of them are listed, and [hasMore] tells
    whether some were left out. *)
Theorem followups_count (now : Z) (clock : nat -> Z) (contacts : list contact)
  (getTasks : nat -> contact -> result (option (list task)))
  (f : followup_finding) :
  checkMissedFollowups now clock (Ok (Some contacts)) getTasks = Ok f ->
  ff_count f
  = List.length (List.filter (is_overdue now)
                   (asked_tasks getTasks 0 (List.firstn 20 contacts))) /\
  List.length (ff_items f) = Nat.min 10 (ff_count f) /\
  (ff_hasMore f = true <-> (10 < ff_count f)%nat).
Proof.
  unfold Loops.checkMissedFollowups. cbn [Js.bind].
  pose proof (for_contacts_length now clock getTasks (List.firstn 20 contacts)
                0%nat []) as Hlen.
  cbn [List.length Nat.add] in Hlen.
  remember (for_contacts now clock getTasks 0 (List.firstn 20 contacts) [])
    as overdue eqn:Ho.
  clear Ho. pose proof (List.length_firstn 10 overdue) as Hitems.
  remember (List.firstn 10 overdue) as items eqn:Hi. clear Hi.
  intros H. injection H as <-. cbn [ff_count ff_items ff_hasMore].
  split; [exact Hlen | split].
  - exact Hitems.
  - apply Nat.ltb_lt.
Qed.

End Followups.

Lemma followups_skip_failed_contacts_witness :
  Loops.checkMissedFollowups IsoDate.iso_read trim_ascii Samples.noon_jan_20
    (fun _ => Samples.noon_jan_20)
    (Ok (Some [Samples.contact_50h "c1"; Samples.contact_40h "c2"]))
    (fun i _ => match i with
                | O => Throw Samples.connection_refused
                | _ => Ok (Some [mkTask (Some "2025-01-18T10:00:00Z") false
                                   (Some "Call back") None])
                end)
  = Ok (mkFollowupFinding 1
          [mkOverdue (Some "c2") "Ann Lee" (Some "Call back") "2d ago"] false).
Proof.
  destruct (followups_skip_failed_contacts IsoDate.iso_read trim_ascii
              Samples.noon_jan_20 (fun _ => Samples.noon_jan_20)
              [Samples.contact_50h "c1"; Samples.contact_40h "c2"] []
              (fun i _ => match i with
                          | O => Throw Samples.connection_refused
                          | _ => Ok (Some [mkTask (Some "2025-01-18T10:00:00Z") false
                                             (Some "Call back") None])
                          end)) as (_ & H & _).
  rewrite H. vm_compute. reflexivity.
Defined.

Lemma followups_count_witness :
  exists f,
    Loops.checkMissedFollowups IsoDate.iso_read trim_ascii Samples.noon_jan_20
      (fun _ => Samples.noon_jan_20)
      (Ok (Some [Samples.contact_50h "c1"]))
      (fun _ _ => Ok (Some [mkTask (Some "2025-01-18T10:00:00Z") false
                              (Some "Call back") None;
                            mkTask (Some "2025-01-18T10:00:00Z") true
                              (Some "Send quote") None;
                            mkTask (Some "2025-02-01T10:00:00Z") false
                              (Some "Renewal") None]))
    = Ok f /\ ff_count f = 1%nat.
Proof.
  eexists. split; [vm_compute; reflexivity |].
  refine (eq_trans
            (proj1 (followups_count IsoDate.iso_read trim_ascii Samples.noon_jan_20
                      (fun _ => Samples.noon_jan_20) [Samples.contact_50h "c1"]
                      (fun _ _ => Ok (Some [mkTask (Some "2025-01-18T10:00:00Z") false
                                              (Some "Call back") None;
                                            mkTask (Some "2025-01-18T10:00:00Z") true
                                              (Some "Send quote") None;
                                            mkTask (Some "2025-02-01T10:00:00Z") false
                                              (Some "Renewal") None]))
                      _ _)) _).
  - vm_compute. reflexivity.
  - vm_compute. reflexivity.
Defined.

Section Responses.

Variable Date_parse : string -> option Z.
Variable trim : string -> string.

Local Abbreviation slow_item_of := (slow_item_of Date_parse trim).
Local Abbreviation response_ms := (response_ms Date_parse).
Local Abbreviation date_of := (date_of Date_parse).
Local Abbreviation checkSlowResponses := (checkSlowResponses Date_parse trim).
Local Abbreviation for_histories := (for_histories Date_parse trim).






Lemma for_histories_length (thresholdMin : Z)
  (getHistory : nat -> contact -> result (option (list message)))
  (cs : list contact) :
  forall (i : nat) (slow : list slow_item),
  (List.length slow
   <= List.length (for_histories thresholdMin getHistory i cs slow)
   <= List.length slow + List.length cs)%nat.
Proof.
  induction cs as [| c cs IH]; intros i slow; cbn [Loops.for_histories List.length].
  - lia.
  - match goal with
    | |- context [Loops.for_histories _ _ _ _ _ cs ?acc] =>
        specialize (IH (S i) acc);
        assert (Hacc : (List.length slow <= List.length acc <= S (List.length slow))%nat)
    end.
    { destruct (getHistory i c) as [payload | e]; [| lia].
      destruct (Loops.slow_item_of Date_parse trim thresholdMin c _);
        [rewrite length_app; cbn [List.length] |]; lia. }
    lia.
Qed.

(** X25.  [checkSlowResponses] looks at the first fifteen contacts and
    reports each of them at most once, so its [count] never passes
    fifteen; it lists at most ten items; and the failures of
    [getConversationHistory] do not fail it. *)
Theorem slow_responses_bounds (config : locationConfig) (contacts : list contact)
  (getHistory : nat -> contact -> result (option (list message))) :
  exists f,
    checkSlowResponses config (Ok (Some contacts)) getHistory = Ok f /\
    (slf_count f <= 15)%nat /\
    (slf_count f <= List.length contacts)%nat /\
    List.length (slf_items f) = Nat.min 10 (slf_count f).
Proof.
  unfold Loops.checkSlowResponses. cbn [Js.bind].
  pose proof (for_histories_length
                (threshold_or (loc_thresholds config) slow_response_minutes 30)
                getHistory (List.firstn 15 contacts) 0%nat []) as Hlen.
  rewrite List.length_firstn in Hlen. cbn [List.length Nat.add] in Hlen.
  remember (for_histories _ getHistory 0 (List.firstn 15 contacts) []) as slow eqn:Hs.
  clear Hs. pose proof (List.length_firstn 10 slow) as Hitems.
  remember (List.firstn 10 slow) as items eqn:Hi. clear Hi.
  eexists. split; [reflexivity |]. cbn [slf_count slf_items].
  repeat split; [lia | lia | exact Hitems].
Qed.

End Responses.


Section Summary.

Variable Date_parse : string -> option Z.
Variable toLocaleString : option Z -> string.

Lemma concat_last (sep : string) (l : list string) (x y : string) :
  String.concat sep ((x :: l) ++ [y])%list
  = (String.concat sep (x :: l) ++ sep ++ y)%string.
Proof.
  revert x. induction l as [| z l IH]; intros x.
  - reflexivity.
  - change (String.concat sep ((x :: z :: l) ++ [y])%list)
      with (x ++ sep ++ String.concat sep ((z :: l) ++ [y])%list)%string.
    rewrite IH.
    change (String.concat sep (x :: z :: l))
      with (x ++ sep ++ String.concat sep (z :: l))%string.
    rewrite !CodecSpec.append_assoc. reflexivity.
Qed.

(** X26.  A check that failed adds nothing to the total of the summary:
    when every check either failed or found nothing, the summary ends
    with the line [All clear], also when all four checks failed. *)
Theorem summary_all_clear (ts : string) (loc : option string) (c : checks) :
  (forall f, In f [staleLeads c; missedFollowups c; pipelineBottlenecks c;
                   slowResponses c] ->
             count_of f = None \/ count_of f = Some 0%nat) ->
  exists head,
    formatSummary Date_parse toLocaleString ts loc c
    = (head ++ nl ++ "✅ All clear — no issues detected.")%string.
Proof.
  intros H.
  assert (Hz : forall f, count_of f = None \/ count_of f = Some 0%nat ->
                         match count_of f with Some n => n | None => 0%nat end = 0%nat).
  { intros f [-> | ->]; reflexivity. }
  assert (Ht : total_issues c = 0%nat).
  { unfold total_issues. cbn [List.fold_left].
    rewrite !Hz by (apply H; cbn [In]; tauto). reflexivity. }
  unfold formatSummary. rewrite Ht. cbn [Nat.eqb].
  eexists.
  match goal with
  | |- String.concat nl [?a; ?b; ?c0; ?d; ?e; ?f; ?g; ?h; ?z] = _ =>
      change [a; b; c0; d; e; f; g; h; z] with ((a :: [b; c0; d; e; f; g; h]) ++ [z])%list
  end.
  rewrite concat_last. reflexivity.
Qed.

End Summary.

Lemma summary_all_clear_witness :
  exists head,
    formatSummary IsoDate.iso_read (fun _ => "1/20/2025, 12:00:00 PM")
      "2025-01-20T12:00:00.000Z" (Some "Main")
      (mkChecks (CheckError "stale_leads" (Some "Connection refused"))
         (CheckError "missed_followups" (Some "Connection refused"))
         (CheckError "pipeline_bottlenecks" (Some "Connection refused"))
         (CheckError "slow_responses" (Some "Connection refused")))
    = (head ++ nl ++ "✅ All clear — no issues detected.")%string.
Proof.
  apply (summary_all_clear IsoDate.iso_read (fun _ => "1/20/2025, 12:00:00 PM")
           "2025-01-20T12:00:00.000Z" (Some "Main")).
  cbn [In staleLeads missedFollowups pipelineBottlenecks slowResponses].
  intros f [<- | [<- | [<- | [<- | []]]]]; left; reflexivity.
Defined.

End MonitorRunsSpec.

(* --------------------------------------------------------------------- *)
(** ** The actions over the limiter, the retries and the client *)

Module ActionsSpec.

Import Session Actions.

(** The loop of [withRetry] over a state makes the attempts of the loop
    over the outcomes of its calls. *)
Lemma attempts_agree {St A : Type} (fn : St -> result A * St)
  (random : nat -> float) (o : Utils.options) (s : St) (fuel : nat) :
  forall (attempt : nat) (lastError : option jserror),
  fst (attempts fn o fuel attempt lastError (state_before fn attempt s))
  = fst (Utils.attempts (fun k => fst (fn (state_before fn k s))) random o
           fuel attempt lastError).
Proof.
  induction fuel as [| fuel IH]; intros attempt lastError; [reflexivity |].
  cbn [attempts Utils.attempts].
  destruct (fn (state_before fn attempt s)) as [[v | err] s'] eqn:Hfn;
    cbn [fst]; [reflexivity |].
  destruct (Nat.eqb attempt (Utils.maxRetries o) || negb (Utils.shouldRetry o err));
    [reflexivity |].
  specialize (IH (S attempt) (Some err)).
  cbn [state_before] in IH. rewrite Hfn in IH. cbn [snd] in IH. rewrite IH.
  destruct (Utils.attempts _ random o fuel (S attempt) (Some err)). reflexivity.
Qed.

Lemma assign_fresh {V : Type} (k : string) (v : V) (props : list (string * V)) :
  ~ In k (List.map fst props) -> assign k v props = (props ++ [(k, v)])%list.
Proof.
  induction props as [| [k' v'] props IH]; cbn [assign List.map fst In app];
    intros H; [reflexivity |].
  destruct (String.eqb_spec k k') as [-> | _]; [tauto |].
  rewrite IH by tauto. reflexivity.
Qed.

Lemma spread_fresh {V : Type} (options : list (string * V)) :
  forall props : list (string * V),
  NoDup (List.map fst options) ->
  (forall k, In k (List.map fst options) -> ~ In k (List.map fst props)) ->
  spread props options = (props ++ options)%list.
Proof.
  unfold spread.
  induction options as [| [k v] options IH]; intros props Hnd Hfresh;
    cbn [List.fold_left fst snd].
  - rewrite app_nil_r. reflexivity.
  - cbn [List.map fst] in Hnd, Hfresh. inversion Hnd as [| ? ? Hk Hnd']; subst.
    rewrite assign_fresh by (apply Hfresh; left; reflexivity).
    rewrite IH.
    + rewrite <- app_assoc. reflexivity.
    + exact Hnd'.
    + intros k' Hin. rewrite List.map_app, in_app_iff. cbn [List.map fst In].
      intros [H | [<- | []]]; [| contradiction].
      exact (Hfresh k' (or_intror Hin) H).
Qed.

Lemma written_defined (options : list (string * json)) :
  written (defined options) = options.
Proof.
  induction options as [| [k v] options IH]; [reflexivity |].
  cbn [defined List.map fst snd written]. unfold defined in IH. rewrite IH.
  reflexivity.
Qed.

Section Operations.

Variable JSON_parse : string -> option json.
Variable JSON_stringify : json -> string.
Variable ToString : json -> string.
Variable gt_zero : json -> bool.
Variable server : nat -> sent -> Client.fetched.
Variable clock : nat -> Limiter.readings.

Local Abbreviation call := (call JSON_parse JSON_stringify server clock).
Local Abbreviation callTool := (callTool JSON_parse JSON_stringify server).
Local Abbreviation ensureInitialized :=
  (ensureInitialized JSON_parse JSON_stringify server).
Local Abbreviation for_ids := (for_ids JSON_parse JSON_stringify server clock).
Local Abbreviation tagContacts := (tagContacts JSON_parse JSON_stringify server clock).
Local Abbreviation removeContactTags :=
  (removeContactTags JSON_parse JSON_stringify server clock).
Local Abbreviation getConversationHistory :=
  (getConversationHistory JSON_parse JSON_stringify ToString gt_zero server clock).
Local Abbreviation decoded := (decoded JSON_parse ToString).
Local Abbreviation has_elements := (has_elements gt_zero).

(** X27.  The daily cap guards the network: when the day's count has
    reached the cap of the limiter and the day has not run out, [call]
    throws the daily limit error, nothing is sent, and the client and
    the counters of the limiter are as before. *)
Theorem call_blocked_by_daily_cap (toolName : string) (args : json) (w : world) :
  Limiter.maxPerDay Limiter.default_options <= Limiter.dayCount (limiter w) ->
  Limiter.at_day (clock (acquired w)) - Limiter.dayStart (limiter w) < 86400000 ->
  call toolName args w
  = (Throw (Error "Daily rate limit reached (200000)"),
     mkWorld (limiter w) (client_of w) (net_of w) (S (acquired w))).
Proof.
  intros Hcap Hday. unfold Actions.call, Limiter.acquire, Limiter.acquire_begin.
  rewrite (LimiterSpec.resetDay_not_elapsed _ _ Hday).
  destruct (Z.leb_spec (Limiter.maxPerDay Limiter.default_options)
              (Limiter.dayCount (limiter w))) as [_ | Hlt]; [| lia].
  reflexivity.
Qed.

(** What one attempt of [callTool] does when the response is not OK. *)
Lemma callTool_not_ok (name : string) (args : json) (c : client) (w : net)
  (r : Client.response) :
  initialized c = true ->
  (forall k s, server k s = Client.Resolved r) ->
  Client.ok r = false ->
  callTool name args (c, w)
  = (Throw (Error ("MCP HTTP " ++ show_Z (Client.status r) ++ ": "
                   ++ match Client.text r with Ok t => t | Throw _ => "" end)),
     (c, mkNet (requestId w + 1)
           (wire w ++ [mkSent (call_request (requestId w + 1) name args)
                         (header_of (sessionId c))]))).
Proof.
  intros Hi Hsrv Hok.
  unfold Session.callTool, Session.roundtrip, ensure_initialized, nextId, send.
  rewrite Hi. cbn [requestId wire id]. rewrite Hsrv.
  cbn [Client.sendJsonRpc]. rewrite Hok. reflexivity.
Qed.

(** X28.  [call] retries a tool call that the server refuses with the
    status 429 or a status of the 5xx class: with such a response to
    every request, four [tools/call] requests are sent, with four
    consecutive ids, before the error of the transport is thrown.  With
    any other status one request is sent. *)
Theorem call_retries_refused_requests (toolName : string) (args : json)
  (w : world) (r : Client.response) :
  initialized (client_of w) = true ->
  (forall k s, server k s = Client.Resolved r) ->
  Client.ok r = false ->
  0 <= Client.status r ->
  LimiterRuns.rejected
    (fst (Limiter.acquire Limiter.default_options (clock (acquired w)) (limiter w)))
  = false ->
  let text := match Client.text r with Ok t => t | Throw _ => "" end in
  let status := Client.status r in
  let retried :=
    includes "fetch failed" text
    || ((status =? 429) || ((500 <=? status) && (status <? 600))) in
  let first := requestId (net_of w) in
  fst (call toolName args w)
  = Throw (Error ("MCP HTTP " ++ show_Z status ++ ": " ++ text)) /\
  List.map request_of (wire (net_of (snd (call toolName args w))))
  = (List.map request_of (wire (net_of w))
     ++ List.map (fun i => call_request (first + i) toolName args)
          (if retried then [1; 2; 3; 4] else [1]))%list.
Proof.
  intros Hi Hsrv Hok Hst Hgrant text status retried first.
  unfold Actions.call.
  destruct (Limiter.acquire Limiter.default_options (clock (acquired w)) (limiter w))
    as [out l]. cbn [fst] in Hgrant.
  assert (Hstep : forall c n, initialized c = true ->
            callTool toolName args (c, n)
            = (Throw (Error ("MCP HTTP " ++ show_Z status ++ ": " ++ text)),
               (c, mkNet (requestId n + 1)
                     (wire n ++ [mkSent (call_request (requestId n + 1) toolName args)
                                   (header_of (sessionId c))])))).
  { intros c n Hc. apply callTool_not_ok; assumption. }
  assert (Hretry : Utils.shouldRetry Utils.default_options
                     (Error ("MCP HTTP " ++ show_Z status ++ ": " ++ text)) = retried).
  { apply RetrySpec.shouldRetry_transport_error. exact Hst. }
  assert (Hrun :
    withRetry (callTool toolName args) Utils.default_options (client_of w, net_of w)
    = (Throw (Error ("MCP HTTP " ++ show_Z status ++ ": " ++ text)),
       (client_of w,
        if retried then
          mkNet (first + 1 + 1 + 1 + 1)
            ((((wire (net_of w)
                ++ [mkSent (call_request (first + 1) toolName args)
                      (header_of (sessionId (client_of w)))])
               ++ [mkSent (call_request (first + 1 + 1) toolName args)
                     (header_of (sessionId (client_of w)))])
              ++ [mkSent (call_request (first + 1 + 1 + 1) toolName args)
                    (header_of (sessionId (client_of w)))])
             ++ [mkSent (call_request (first + 1 + 1 + 1 + 1) toolName args)
                   (header_of (sessionId (client_of w)))])
        else
          mkNet (first + 1)
            (wire (net_of w)
             ++ [mkSent (call_request (first + 1) toolName args)
                   (header_of (sessionId (client_of w)))])))).
  { unfold withRetry. change (Utils.maxRetries Utils.default_options) with 3%nat.
    cbn [attempts]. rewrite (Hstep _ _ Hi). rewrite Hretry.
    cbn [Nat.eqb orb]. destruct retried; cbn [negb]; [| reflexivity].
    rewrite (Hstep _ _ Hi). cbn [requestId wire]. rewrite Hretry. cbn [negb].
    rewrite (Hstep _ _ Hi). cbn [requestId wire]. rewrite Hretry. cbn [negb].
    rewrite (Hstep _ _ Hi). cbn [requestId wire]. reflexivity. }
  destruct out as [e | | waitMs]; [discriminate Hgrant | |];
    rewrite Hrun; cbn [fst snd net_of]; (split; [reflexivity |]);
    destruct retried; cbn [wire];
    rewrite !List.map_app; cbn [List.map request_of];
    rewrite <- ?app_assoc; cbn [app];
    replace (first + 1 + 1 + 1 + 1) with (first + 4) by lia;
    replace (first + 1 + 1 + 1) with (first + 3) by lia;
    replace (first + 1 + 1) with (first + 2) by lia;
    reflexivity.
Qed.

Lemma call_acquired (toolName : string) (args : json) (w : world) :
  acquired (snd (call toolName args w)) = S (acquired w).
Proof.
  unfold Actions.call.
  destruct (Limiter.acquire Limiter.default_options (clock (acquired w)) (limiter w))
    as [[e | | waitMs] l];
    try destruct (withRetry _ Utils.default_options (client_of w, net_of w));
    reflexivity.
Qed.

Lemma ensureInitialized_acquired (w : world) :
  acquired (snd (ensureInitialized w)) = acquired w.
Proof.
  unfold Actions.ensureInitialized. destruct (initialized (client_of w));
    [reflexivity |].
  destruct (initialize JSON_parse JSON_stringify server (client_of w, net_of w)).
  reflexivity.
Qed.

Lemma for_ids_spec (tool : string) (tagList : list json) (ids : list json) :
  forall (results : list json) (w : world),
  match for_ids tool tagList ids results w with
  | (Ok out, w') =>
      exists more,
        out = (results ++ more)%list /\
        List.map (get "contactId") more = List.map (fun i => Ok (Some i)) ids /\
        acquired w' = (acquired w + List.length ids)%nat
  | (Throw _, w') =>
      (acquired w < acquired w' <= acquired w + List.length ids)%nat
  end.
Proof.
  induction ids as [| i ids IH]; intros results w; cbn [Actions.for_ids].
  - exists []. rewrite app_nil_r. cbn [List.length]. repeat split. lia.
  - unfold and_then. pose proof (call_acquired tool
      (JObj [("contactId", i); ("tags", JArr tagList)]) w) as Hacq.
    destruct (call tool (JObj [("contactId", i); ("tags", JArr tagList)]) w)
      as [[result | e] w1]; cbn [snd] in Hacq.
    + specialize (IH (results ++ [JObj [("contactId", i); ("result", result)]])%list w1).
      destruct (for_ids tool tagList ids _ w1) as [[out | e] w2].
      * destruct IH as (more & -> & Hids & Hn).
        exists (JObj [("contactId", i); ("result", result)] :: more).
        rewrite <- app_assoc. cbn [app List.map List.length]. rewrite Hids.
        repeat split. lia.
      * cbn [List.length]. lia.
    + cbn [List.length]. lia.
Qed.

Lemma ensureInitialized_connected (w : world) :
  initialized (client_of w) = true -> ensureInitialized w = (Ok tt, w).
Proof.
  intros Hi. unfold Actions.ensureInitialized. rewrite Hi. reflexivity.
Qed.

(** X29.  [tagContacts] and [removeContactTags] make one call per
    contact, in the order given: when they return, the result holds one
    entry per contact, in that order, each with the id of its contact,
    and that many calls were made.  When [tagContacts] throws, at most
    that many calls were made and the entries collected are lost: none
    was made when the handshake of a client not yet initialized failed,
    whose error is the one thrown, and at least one otherwise. *)
Theorem tagContacts_one_call_per_contact (contactIds tags : json) (w : world) :
  (forall out w',
     tagContacts contactIds tags w = (Ok out, w') ->
     List.map (get "contactId") out
     = List.map (fun i => Ok (Some i)) (as_array contactIds) /\
     acquired w' = (acquired w + List.length (as_array contactIds))%nat) /\
  (forall out w',
     removeContactTags contactIds tags w = (Ok out, w') ->
     List.map (get "contactId") out
     = List.map (fun i => Ok (Some i)) (as_array contactIds) /\
     acquired w' = (acquired w + List.length (as_array contactIds))%nat) /\
  (forall e w',
     tagContacts contactIds tags w = (Throw e, w') ->
     (acquired w <= acquired w' <= acquired w + List.length (as_array contactIds))%nat /\
     (fst (ensureInitialized w) = Ok tt -> (acquired w < acquired w')%nat) /\
     (forall e0, fst (ensureInitialized w) = Throw e0 ->
                 e = e0 /\ acquired w' = acquired w)).
Proof.
  pose proof (ensureInitialized_acquired w) as Hacq.
  unfold Actions.tagContacts, Actions.removeContactTags, and_then.
  destruct (ensureInitialized w) as [[[] | e0] w0]; cbn [fst snd] in *.
  - split; [| split].
    + intros out w' H.
      pose proof (for_ids_spec "add-tags" (as_array tags) (as_array contactIds) [] w0) as S.
      rewrite H in S. destruct S as (more & -> & Hids & Hn). cbn [app].
      split; [assumption | lia].
    + intros out w' H.
      pose proof (for_ids_spec "remove-tags" (as_array tags) (as_array contactIds) [] w0) as S.
      rewrite H in S. destruct S as (more & -> & Hids & Hn). cbn [app].
      split; [assumption | lia].
    + intros e w' H.
      pose proof (for_ids_spec "add-tags" (as_array tags) (as_array contactIds) [] w0) as S.
      rewrite H in S. split; [lia |]. split; [intros _; lia | discriminate].
  - split; [| split]; [discriminate | discriminate |].
    intros e w' [= <- <-]. split; [lia |]. split; [discriminate |].
    intros e1 [= <-]. split; [reflexivity | exact Hacq].
Qed.

(** X30.  [getConversationHistory] searches the conversations of the
    contact first.  When the answer holds no conversation, it returns an
    empty list of messages without a second call and without reading
    the options.  Otherwise it asks for the messages of the first
    conversation, with the options beside its id. *)
Theorem getConversationHistory_first_conversation (contactId : json)
  (options : list (string * json)) (w w1 : world) (convResult conv : json) :
  initialized (client_of w) = true ->
  call "search-conversation" (JObj [("contactId", contactId)]) w
    = (Ok convResult, w1) ->
  decoded convResult = Ok conv ->
  (has_elements (chain (Some conv) "conversations") = false ->
   getConversationHistory contactId options w
   = (Ok (JObj [("messages", JArr [])]), w1)) /\
  (forall first rest cid,
     chain (Some conv) "conversations" = Some (JArr (JObj first :: rest)) ->
     assoc "id" first = Some cid ->
     NoDup (List.map fst options) ->
     ~ In "conversationId" (List.map fst options) ->
     getConversationHistory contactId options w
     = call "get-messages" (JObj (("conversationId", cid) :: options)) w1).
Proof.
  intros Hi Hcall Hdec.
  assert (He : ensureInitialized w = (Ok tt, w)).
  { unfold Actions.ensureInitialized. rewrite Hi. reflexivity. }
  unfold Actions.getConversationHistory, and_then, lift.
  rewrite He, Hcall, Hdec. split.
  - intros Hnone. rewrite Hnone. reflexivity.
  - intros first rest cid Hlist Hid Hnd Hfresh. rewrite Hlist.
    cbn [Actions.has_elements List.length Nat.eqb negb first_id Content.first get].
    rewrite Hid.
    rewrite spread_fresh.
    + cbn [app written]. rewrite written_defined. reflexivity.
    + unfold defined. rewrite List.map_map. cbn [fst]. exact Hnd.
    + unfold defined. rewrite List.map_map. cbn [fst List.map In].
      intros k Hin [<- | []]. exact (Hfresh Hin).
Qed.

End Operations.

Lemma call_blocked_by_daily_cap_witness :
  Actions.call JsonReader.json_read JsonWriter.json_write Servers.healthy
    Worlds.one_second_in "get-contacts" (JObj []) Worlds.exhausted
  = (Throw (Error "Daily rate limit reached (200000)"),
     mkWorld (Limiter.mkState 0 0 0 200000) (fst Servers.connected)
       (snd Servers.connected) 1).
Proof.
  apply (call_blocked_by_daily_cap JsonReader.json_read JsonWriter.json_write
           Servers.healthy Worlds.one_second_in "get-contacts" (JObj [])
           Worlds.exhausted).
  - vm_compute. discriminate.
  - reflexivity.
Defined.

Lemma call_retries_refused_requests_witness :
  fst (Actions.call JsonReader.json_read JsonWriter.json_write Worlds.unavailable
         Worlds.one_second_in "get-contacts" (JObj []) Worlds.connected)
  = Throw (Error "MCP HTTP 503: Service Unavailable") /\
  List.map request_of
    (wire (net_of (snd (Actions.call JsonReader.json_read JsonWriter.json_write
                          Worlds.unavailable Worlds.one_second_in "get-contacts"
                          (JObj []) Worlds.connected))))
  = [initialize_request 1; initialized_notification;
     call_request 3 "get-contacts" (JObj []);
     call_request 4 "get-contacts" (JObj []);
     call_request 5 "get-contacts" (JObj []);
     call_request 6 "get-contacts" (JObj [])].
Proof.
  exact (call_retries_refused_requests JsonReader.json_read JsonWriter.json_write
           Worlds.unavailable Worlds.one_second_in "get-contacts" (JObj [])
           Worlds.connected
           (Client.mkResponse false 503 (Ok "Service Unavailable") None
              (Some "text/plain") ["Service Unavailable"])
           eq_refl (fun _ _ => eq_refl) eq_refl ltac:(discriminate) eq_refl).
Defined.

Lemma tagContacts_one_call_per_contact_witness :
  (exists out w',
     Actions.tagContacts JsonReader.json_read JsonWriter.json_write Servers.healthy
       Worlds.one_second_in (JArr [JStr "c1"; JStr "c2"]) (JStr "vip")
       (Actions.createActions 0 0 (mkNet 0 [])) = (Ok out, w') /\
     List.map (get "contactId") out = [Ok (Some (JStr "c1")); Ok (Some (JStr "c2"))] /\
     acquired w' = 2%nat) /\
  (exists e w',
     Actions.tagContacts JsonReader.json_read JsonWriter.json_write
       Servers.unauthorized Worlds.one_second_in
       (JArr [JStr "c1"; JStr "c2"]) (JStr "vip")
       (Actions.createActions 0 0 (mkNet 0 [])) = (Throw e, w') /\
     e = Error "MCP HTTP 401: Unauthorized" /\
     acquired w' = 0%nat).
Proof.
  split.
  - do 2 eexists. split; [vm_compute; reflexivity |].
    destruct (tagContacts_one_call_per_contact JsonReader.json_read
                JsonWriter.json_write Servers.healthy Worlds.one_second_in
                (JArr [JStr "c1"; JStr "c2"]) (JStr "vip")
                (Actions.createActions 0 0 (mkNet 0 [])))
      as (H & _ & _).
    exact (H _ _ eq_refl).
  - do 2 eexists. split; [vm_compute; reflexivity |].
    destruct (tagContacts_one_call_per_contact JsonReader.json_read
                JsonWriter.json_write Servers.unauthorized Worlds.one_second_in
                (JArr [JStr "c1"; JStr "c2"]) (JStr "vip")
                (Actions.createActions 0 0 (mkNet 0 [])))
      as (_ & _ & H).
    destruct (H _ _ eq_refl) as (_ & _ & H0).
    exact (H0 _ eq_refl).
Defined.

Lemma getConversationHistory_first_conversation_witness :
  fst (Actions.getConversationHistory JsonReader.json_read JsonWriter.json_write
         Worlds.js_String Worlds.no_length Worlds.no_conversation
         Worlds.one_second_in (JStr "c1") [("limit", JNum 5)] Worlds.connected)
  = Ok (JObj [("messages", JArr [])]).
Proof.
  edestruct (getConversationHistory_first_conversation JsonReader.json_read
               JsonWriter.json_write Worlds.js_String Worlds.no_length
               Worlds.no_conversation Worlds.one_second_in (JStr "c1")
               [("limit", JNum 5)] Worlds.connected) as [H _];
    [reflexivity | vm_compute; reflexivity | vm_compute; reflexivity |].
  rewrite (H eq_refl). reflexivity.
Defined.

End ActionsSpec.
